(** * Black-Core backend: queue engine, telemetry service and manual assignment

    A shallow embedding of three pieces of the backend:

    - the queue engine  ([processQueue], services/queueEngine, 15 s cron tick),
    - the telemetry service ([pollPrinter], [mapKlipperStatus],
      [calculateEnergyDraw], [runPoll]),
    - the route [PUT /api/queue/:id/assign] ([assign]).

    Modelling conventions.

    - SQLite [REAL] columns and JavaScript numbers are written as rationals
      ([Q]).  The energy gate and the load calculation are evaluated in
      IEEE 754 binary64 on the doubles these rationals stand for
      ([Number_of]); the power-draw estimate and the thermal test are
      evaluated on the rationals, with [toFixed] and [Math.round] modelled.
      [INTEGER] and [DATETIME] columns are [Z] (timestamps in milliseconds),
      [TEXT] columns are [string].
    - A table is the list of its rows in insertion (rowid) order.
    - The Prisma client is a state-and-exception monad over a [World]: the
      database, the wall clock, the messages pushed to the socket server and a
      schedule of storage faults.  An exception leaves the writes made before
      it in place, as an [await]ed Prisma call outside [$transaction] does.
    - The services are modelled after [start(prisma, io)] has run, so
      [prismaClient] is set. *)

From Stdlib Require Import ZArith QArith Qround String List Bool Lia Lqa.
From Stdlib Require Import Permutation Sorted SpecFloat.
Import ListNotations.

Local Open Scope string_scope.
Local Open Scope Z_scope.

(** ** Rows (prisma/migrations/20260221074307_init/migration.sql) *)

Record EnergySettings := mkEnergySettings {
  maxLoadKw : Q;
  peakProtection : bool;
  warmupStaggering : bool;
  staggerDelayMin : Z;
  baseLoadKw : Q
}.

Record EnergyReading := mkEnergyReading {
  er_currentKw : Q;
  er_maxKw : Q;
  er_activeCount : Z;
  er_source : string;
  er_recordedAt : Z
}.

Record Printer := mkPrinter {
  printer_id : Z;
  printer_name : string;
  isActive : bool;
  maxTempExtruder : Q;
  energyRating : Q
}.

Record PrinterTelemetry := mkPrinterTelemetry {
  pt_id : Z;
  pt_printerId : Z;
  pt_extruderTemp : Q;
  pt_bedTemp : Q;
  pt_progress : Q;
  pt_energyDraw : Q;
  pt_status : string;
  pt_filamentPresent : bool;
  pt_fanRpm : Z;
  pt_recordedAt : Z
}.

(** The [message] column is a template string built from two numbers; the row
    keeps the two numbers. *)
Record PrinterEvent := mkPrinterEvent {
  pe_printerId : Z;
  pe_level : string;
  pe_code : string;
  pe_temp : Q;
  pe_limit : Q;
  pe_createdAt : Z
}.

Record Job := mkJob {
  job_id : Z;
  job_name : string;
  job_status : string;
  job_printerId : option Z;
  job_startedAt : option Z;
  job_updatedAt : Z
}.

Record QueueItem := mkQueueItem {
  qi_id : Z;
  qi_jobId : Z;
  qi_printerId : option Z;
  qi_priority : Z;
  qi_status : string;
  qi_createdAt : Z;
  qi_updatedAt : Z
}.

Record PowerEvent := mkPowerEvent {
  pw_type : string;
  pw_currentKw : Q;
  pw_limitKw : Q;
  pw_action : string;
  pw_createdAt : Z
}.

Record AuditLog := mkAuditLog {
  al_userId : Z;
  al_action : string;
  al_entity : string;
  al_entityId : Z;
  al_printerId : Z;
  al_createdAt : Z
}.

Record Db := mkDb {
  energySettings : option EnergySettings;   (* the row with id 1, if any *)
  energyReadings : list EnergyReading;
  printers : list Printer;
  telemetry : list PrinterTelemetry;
  telemetrySeq : Z;                         (* sqlite_sequence of PrinterTelemetry *)
  printerEvents : list PrinterEvent;
  jobs : list Job;
  queueItems : list QueueItem;
  powerEvents : list PowerEvent;
  auditLogs : list AuditLog
}.

(** Messages handed to [io.emit]. *)
Inductive SocketMsg :=
| MsgTelemetry (printerId : Z) (room : bool)
| MsgPrinterEvent (printerId : Z)
| MsgQueueUpdated (queueItemId : Z).

Record World := mkWorld {
  db : Db;
  clock : Z;
  emitted : list SocketMsg;
  faults : list bool      (* one flag per storage write still to come: [true] = it throws *)
}.

(** ** JavaScript numbers

    A [REAL] column and a JavaScript number hold an IEEE 754 binary64 value.
    A row writes such a value as a rational [q]; the double it stands for is
    [Number_of q], the quotient of numerator by denominator rounded to
    nearest, ties to even: [q] itself when [q] is a double, the value of the
    decimal literal otherwise ([0.9] is 8106479329266893 * 2^-53).  The
    operations are those of the Standard Library's [SpecFloat] at precision
    53. *)

Definition binary64_prec : Z := 53.
Definition binary64_emax : Z := 1024.

Definition Number_of (q : Q) : spec_float :=
  match Qnum q with
  | Z0 => S754_zero false
  | Zpos n => SFdiv binary64_prec binary64_emax
                    (S754_finite false n 0) (S754_finite false (Qden q) 0)
  | Zneg n => SFdiv binary64_prec binary64_emax
                    (S754_finite true n 0) (S754_finite false (Qden q) 0)
  end.

(** [a * b], [a + b], [a / b] and [a >= b] *)
Definition js_times (a b : spec_float) : spec_float := SFmul binary64_prec binary64_emax a b.
Definition js_plus (a b : spec_float) : spec_float := SFadd binary64_prec binary64_emax a b.
Definition js_div (a b : spec_float) : spec_float := SFdiv binary64_prec binary64_emax a b.
Definition js_ge (a b : spec_float) : bool := SFleb b a.

Arguments Number_of : simpl never.
Arguments js_times : simpl never.
Arguments js_plus : simpl never.
Arguments js_div : simpl never.
Arguments js_ge : simpl never.

(** ** The client monad *)

Inductive Outcome (A : Type) :=
| Ret (a : A)
| Throw.
Arguments Ret {A} a.
Arguments Throw {A}.

Definition M (A : Type) := World -> Outcome A * World.

Definition ret {A} (a : A) : M A := fun w => (Ret a, w).

Definition bind {A B} (m : M A) (k : A -> M B) : M B :=
  fun w => match m w with
           | (Ret a, w') => k a w'
           | (Throw, w') => (Throw, w')
           end.

(** [try { m } catch (err) { h }] *)
Definition try_catch {A} (m : M A) (h : M A) : M A :=
  fun w => match m w with
           | (Ret a, w') => (Ret a, w')
           | (Throw, w') => h w'
           end.

Declare Scope client_scope.
Delimit Scope client_scope with client.
Notation "x <- m ;; k" := (bind m (fun x => k))
  (at level 61, m at next level, right associativity) : client_scope.
Notation "m ;; k" := (bind m (fun _ => k))
  (at level 61, right associativity) : client_scope.
Local Open Scope client_scope.

Definition set_db (d : Db) (w : World) : World :=
  mkWorld d (clock w) (emitted w) (faults w).
Definition set_faults (f : list bool) (w : World) : World :=
  mkWorld (db w) (clock w) (emitted w) f.

(** A read of the database. *)
Definition query {A} (f : Db -> A) : M A := fun w => (Ret (f (db w)), w).

(** A storage write.  It consumes one fault flag; [f] returning [None] is
    Prisma's "record to update not found".  The result is the row Prisma
    hands back. *)
Definition write {A} (f : Z -> Db -> option (A * Db)) : M A :=
  fun w =>
    match faults w with
    | true :: rest => (Throw, set_faults rest w)
    | fl =>
        let w1 := set_faults (tl fl) w in
        match f (clock w) (db w) with
        | Some (a, d) => (Ret a, set_db d w1)
        | None => (Throw, w1)
        end
    end.

(** A call the client rejects before it reaches the database. *)
Definition invalid_argument {A} : M A := fun w => (Throw, w).

(** A read of the database that can fail as a write can: it consumes one
    fault flag and throws when the flag is set.  The read-only handlers and
    the load calculation are written with it. *)
Definition read {A} (f : Db -> A) : M A :=
  fun w =>
    match faults w with
    | true :: rest => (Throw, set_faults rest w)
    | fl => (Ret (f (db w)), set_faults (tl fl) w)
    end.

(** [await new Promise(r => setTimeout(r, ms))] *)
Definition sleep (ms : Z) : M unit :=
  fun w => (Ret tt, mkWorld (db w) (clock w + ms) (emitted w) (faults w)).

(** [io.emit(...)] *)
Definition emit (msg : SocketMsg) : M unit :=
  fun w => (Ret tt, mkWorld (db w) (clock w) (emitted w ++ [msg]) (faults w)).

(** ** Queries *)

Section OrderBy.
Context {A : Type} (le : A -> A -> bool).

Fixpoint insert_row (x : A) (l : list A) : list A :=
  match l with
  | [] => [x]
  | y :: l' => if le x y then x :: l else y :: insert_row x l'
  end.

(** [orderBy]: a stable sort of the rows; rows with equal keys stay in
    table order. *)
Fixpoint orderBy (l : list A) : list A :=
  match l with
  | [] => []
  | x :: l' => insert_row x (orderBy l')
  end.
End OrderBy.

Definition optZ_eqb (a b : option Z) : bool :=
  match a, b with
  | Some x, Some y => x =? y
  | None, None => true
  | _, _ => false
  end.

(** [energyReading.findFirst({ orderBy: { recordedAt: 'desc' } })] *)
Definition latestEnergyReading (d : Db) : option EnergyReading :=
  hd_error (orderBy (fun a b => er_recordedAt b <=? er_recordedAt a) (energyReadings d)).

(** [printerTelemetry.findFirst({ where: { printerId }, orderBy: { recordedAt: 'desc' } })] *)
Definition latestTelemetryOf (printerId : Z) (d : Db) : option PrinterTelemetry :=
  hd_error (orderBy (fun a b => pt_recordedAt b <=? pt_recordedAt a)
              (filter (fun t => pt_printerId t =? printerId) (telemetry d))).

(** [printer.findMany({ where: { isActive: true } })] *)
Definition activePrinters (d : Db) : list Printer :=
  filter isActive (printers d).

(** [printer.findUnique({ where: { id } })] *)
Definition findPrinter (id : Z) (d : Db) : option Printer :=
  find (fun p => printer_id p =? id) (printers d).

(** [orderBy: [{ priority: 'asc' }, { createdAt: 'asc' }]] *)
Definition queue_le (a b : QueueItem) : bool :=
  (qi_priority a <? qi_priority b)
  || ((qi_priority a =? qi_priority b) && (qi_createdAt a <=? qi_createdAt b)).

(** [where: { status: 'queued', printerId: null }] *)
Definition is_candidate (q : QueueItem) : bool :=
  (qi_status q =? "queued")%string && optZ_eqb (qi_printerId q) None.

Definition candidates (d : Db) : list QueueItem :=
  orderBy queue_le (filter is_candidate (queueItems d)).

(** [queueItem.findMany({ where, include, orderBy, take })] *)
Definition findQueueItems (take : nat) (d : Db) : list QueueItem :=
  firstn take (candidates d).

Definition findQueueItem (id : Z) (d : Db) : option QueueItem :=
  find (fun q => qi_id q =? id) (queueItems d).

Definition findJob (id : Z) (d : Db) : option Job :=
  find (fun j => job_id j =? id) (jobs d).

(** ** Writes *)

Definition with_queueItems (l : list QueueItem) (d : Db) : Db :=
  mkDb (energySettings d) (energyReadings d) (printers d) (telemetry d) (telemetrySeq d)
       (printerEvents d) (jobs d) l (powerEvents d) (auditLogs d).

Definition with_jobs (l : list Job) (d : Db) : Db :=
  mkDb (energySettings d) (energyReadings d) (printers d) (telemetry d) (telemetrySeq d)
       (printerEvents d) l (queueItems d) (powerEvents d) (auditLogs d).

Definition with_powerEvents (l : list PowerEvent) (d : Db) : Db :=
  mkDb (energySettings d) (energyReadings d) (printers d) (telemetry d) (telemetrySeq d)
       (printerEvents d) (jobs d) (queueItems d) l (auditLogs d).

Definition with_auditLogs (l : list AuditLog) (d : Db) : Db :=
  mkDb (energySettings d) (energyReadings d) (printers d) (telemetry d) (telemetrySeq d)
       (printerEvents d) (jobs d) (queueItems d) (powerEvents d) l.

Definition with_printerEvents (l : list PrinterEvent) (d : Db) : Db :=
  mkDb (energySettings d) (energyReadings d) (printers d) (telemetry d) (telemetrySeq d)
       l (jobs d) (queueItems d) (powerEvents d) (auditLogs d).

Definition with_telemetry (l : list PrinterTelemetry) (seq : Z) (d : Db) : Db :=
  mkDb (energySettings d) (energyReadings d) (printers d) l seq
       (printerEvents d) (jobs d) (queueItems d) (powerEvents d) (auditLogs d).

(** [data: { printerId, status: 'assigned' }] on a QueueItem row;
    [updatedAt] is maintained by Prisma. *)
Definition assign_item (printerId now : Z) (q : QueueItem) : QueueItem :=
  mkQueueItem (qi_id q) (qi_jobId q) (Some printerId) (qi_priority q) "assigned"
              (qi_createdAt q) now.

(** [data: { printerId, status: 'printing', startedAt: new Date() }] on a Job row. *)
Definition start_job (printerId now : Z) (j : Job) : Job :=
  mkJob (job_id j) (job_name j) "printing" (Some printerId) (Some now) now.

Definition set_queueItem (id printerId now : Z) (rows : list QueueItem) : list QueueItem :=
  map (fun q => if qi_id q =? id then assign_item printerId now q else q) rows.

Definition set_job (id printerId now : Z) (rows : list Job) : list Job :=
  map (fun j => if job_id j =? id then start_job printerId now j else j) rows.

(** [queueItem.update({ where: { id }, data: { printerId, status: 'assigned' } })] *)
Definition queueItem_update (id printerId : Z) : M QueueItem :=
  write (fun now d =>
    match findQueueItem id d with
    | None => None
    | Some q =>
        Some (assign_item printerId now q,
              with_queueItems (set_queueItem id printerId now (queueItems d)) d)
    end).

(** [job.update({ where: { id }, data: { printerId, status: 'printing', startedAt } })] *)
Definition job_update (id printerId : Z) : M Job :=
  write (fun now d =>
    match findJob id d with
    | None => None
    | Some j =>
        Some (start_job printerId now j,
              with_jobs (set_job id printerId now (jobs d)) d)
    end).

(** [powerEvent.create({ data: { type, currentKw, limitKw, action } })] *)
Definition powerEvent_create (type : string) (currentKw limitKw : Q) (action : string) : M unit :=
  write (fun now d =>
    Some (tt, with_powerEvents
                (powerEvents d ++ [mkPowerEvent type currentKw limitKw action now]) d)).

(** [auditLog.create({ data: ... })] *)
Definition auditLog_create (userId : Z) (action entity : string) (entityId printerId : Z) : M unit :=
  write (fun now d =>
    Some (tt, with_auditLogs
                (auditLogs d ++ [mkAuditLog userId action entity entityId printerId now]) d)).

(** ** Queue engine: [processQueue] *)

(** The JavaScript function returns [undefined] from every exit; the model
    returns which exit was taken. *)
Inductive TickExit :=
| PeakSkip          (* return; // silently skip — peak protection active *)
| NoIdlePrinter     (* if (idlePrinters.length === 0) return; *)
| NoQueueItem       (* if (queueItems.length === 0) return; *)
| LoopDone          (* fell off the end of the matching loop *)
| Caught.           (* console.error('[QUEUE] Processing error:', ...) *)

(** The test of the [for (const printer of allPrinters)] loop. *)
Definition counts_as_idle (latestTelemetry : option PrinterTelemetry) : bool :=
  match latestTelemetry with
  | None => true
  | Some t => (pt_status t =? "idle")%string || (pt_status t =? "offline")%string
  end.

Definition idlePrinters (d : Db) : list Printer :=
  filter (fun printer => counts_as_idle (latestTelemetryOf (printer_id printer) d))
         (activePrinters d).

(** [(settings.staggerDelayMin || 5) * 60 * 1000] *)
Definition staggerMs (s : EnergySettings) : Z :=
  (if staggerDelayMin s =? 0 then 5 else staggerDelayMin s) * 60 * 1000.

(** [settings?.warmupStaggering && i > 0] *)
Definition staggers (settings : option EnergySettings) (i : nat) : option Z :=
  match settings with
  | Some s => if warmupStaggering s && (0 <? i)%nat then Some (staggerMs s) else None
  | None => None
  end.

(** The matching loop, from index [i] on; [pairs] are the remaining
    [(queueItems[i], idlePrinters[i])].  The closing [console.log] is left
    out. *)
Fixpoint matchLoop (settings : option EnergySettings) (i : nat)
         (pairs : list (QueueItem * Printer)) : M unit :=
  match pairs with
  | [] => ret tt
  | (item, printer) :: rest =>
      match staggers settings i with
      | Some ms => sleep ms
      | None => ret tt
      end ;;
      queueItem_update (qi_id item) (printer_id printer) ;;
      job_update (qi_jobId item) (printer_id printer) ;;
      matchLoop settings (S i) rest
  end.

(** Everything after the energy gate. *)
Definition matchQueue (settings : option EnergySettings) : M TickExit :=
  idle <- query idlePrinters ;;
  if (length idle =? 0)%nat then ret NoIdlePrinter else
  queueItems <- query (findQueueItems (length idle)) ;;
  if (length queueItems =? 0)%nat then ret NoQueueItem else
  matchLoop settings 0 (combine queueItems idle) ;;
  ret LoopDone.

Definition processQueue : M TickExit :=
  try_catch
    (settings <- query energySettings ;;
     latestEnergy <- query latestEnergyReading ;;
     match settings, latestEnergy with
     | Some s, Some e =>
         if peakProtection s then
           let threshold := js_times (Number_of (maxLoadKw s)) (Number_of 0.9) in
           if js_ge (Number_of (er_currentKw e)) threshold
           then ret PeakSkip
           else matchQueue settings
         else matchQueue settings
     | _, _ => matchQueue settings
     end)
    (ret Caught).

(** ** Manual assignment: [PUT /api/queue/:id/assign] *)

Inductive Response :=
| Json200 (updated : QueueItem)              (* res.json(updated) *)
| PeakProtection409 (currentKw maxKw : Q)    (* 'PEAK PROTECTION ACTIVE: ...' *)
| PrinterNotFound404                         (* 'Printer not found' *)
| PrinterBusy409                             (* 'Printer is currently busy' *)
| Failed500.                                 (* 'Failed to assign job' *)

(** [printerTelemetry?.status === 'printing'] *)
Definition is_printing (printerTelemetry : option PrinterTelemetry) : bool :=
  match printerTelemetry with
  | Some t => (pt_status t =? "printing")%string
  | None => false
  end.

(** Everything after the energy check. *)
Definition assignCommit (userId queueItemId printerId : Z) : M Response :=
  printer <- query (findPrinter printerId) ;;
  match printer with
  | None => ret PrinterNotFound404
  | Some _ =>
      printerTelemetry <- query (latestTelemetryOf printerId) ;;
      if is_printing printerTelemetry then ret PrinterBusy409 else
      updated <- queueItem_update queueItemId printerId ;;
      job_update (qi_jobId updated) printerId ;;
      auditLog_create userId "JOB_ASSIGNED" "QueueItem" queueItemId printerId ;;
      emit (MsgQueueUpdated (qi_id updated)) ;;
      ret (Json200 updated)
  end.

Definition assign (userId queueItemId printerId : Z) : M Response :=
  try_catch
    (energySettings <- query energySettings ;;
     latestEnergy <- query latestEnergyReading ;;
     match energySettings, latestEnergy with
     | Some s, Some e =>
         if peakProtection s then
           let threshold := js_times (Number_of (maxLoadKw s)) (Number_of 0.9) in
           if js_ge (Number_of (er_currentKw e)) threshold then
             powerEvent_create "OVERLOAD_PREVENTED" (er_currentKw e) (maxLoadKw s)
                               "Job assignment blocked" ;;
             ret (PeakProtection409 (er_currentKw e) (maxLoadKw s))
           else assignCommit userId queueItemId printerId
         else assignCommit userId queueItemId printerId
     | _, _ => assignCommit userId queueItemId printerId
     end)
    (ret Failed500).

(** ** Object literals *)

(** The names every object literal inherits from [Object.prototype]; looked up
    in a literal such as [priorityMap] or the status [map] they yield a
    function or an object, not one of the literal's own values. *)
Definition inherited_key (key : string) : bool :=
  existsb (String.eqb key)
    ["constructor"; "__defineGetter__"; "__defineSetter__"; "hasOwnProperty";
     "__lookupGetter__"; "__lookupSetter__"; "isPrototypeOf"; "propertyIsEnumerable";
     "toString"; "valueOf"; "__proto__"; "toLocaleString"].

(** ** Telemetry service *)

Definition POLL_INTERVAL_MS : Z := 7000.

(** [response.data?.result?.status || {}], the fields the service reads:
    each is a number or [undefined], written [None]; [state] is the property
    key the reported value converts to. *)
Record KlipperStatus := mkKlipperStatus {
  ks_extruder_temperature : option Q;
  ks_bed_temperature : option Q;
  ks_progress : option Q;
  ks_state : option string;
  ks_fan_speed : option Q
}.

(** What [map[state] || 'offline'] evaluates to: a status string, or -- when
    [state] names a member of [Object.prototype], which the literal [map]
    inherits -- that member: a function, or the prototype object itself for
    [__proto__].  Both are truthy, so the [|| 'offline'] does not replace
    them. *)
Inductive StatusValue :=
| StatusText (status : string)
| PrototypeMember (key : string).

(** What [pollPrinter] resolves to ([error] text left out). *)
Record PollData := mkPollData {
  pd_printerId : Z;
  pd_extruderTemp : Q;
  pd_bedTemp : Q;
  pd_progress : Q;
  pd_status : StatusValue;
  pd_filamentPresent : bool;
  pd_fanRpm : Z;
  pd_energyDraw : Q;
  pd_isReachable : bool
}.

(** [x || 0] *)
Definition or_zero (x : option Q) : Q :=
  match x with Some q => q | None => 0%Q end.

(** [x < c] and [x > c] on a possibly [undefined] left operand. *)
Definition js_lt (x : option Q) (c : Q) : bool :=
  match x with Some q => negb (Qle_bool c q) | None => false end.
Definition js_gt (x : option Q) (c : Q) : bool :=
  match x with Some q => negb (Qle_bool q c) | None => false end.

(** [Math.round] *)
Definition Math_round (x : Q) : Z := Qfloor (x + (1 # 2))%Q.

(** [+x.toFixed(3)]: the nearest multiple of 1/1000, ties to the larger
    magnitude. *)
Definition round3 (x : Q) : Q := Qfloor (x * 1000 + (1 # 2))%Q # 1000.
Definition toFixed3 (x : Q) : Q :=
  if Qle_bool 0 x then round3 x else (- round3 (- x))%Q.

(** [map[state] || 'offline'] *)
Definition mapKlipperStatus (state : option string) : StatusValue :=
  match state with
  | None => StatusText "offline"
  | Some key =>
      if (key =? "printing")%string then StatusText "printing"
      else if (key =? "paused")%string then StatusText "paused"
      else if (key =? "standby")%string then StatusText "idle"
      else if (key =? "complete")%string then StatusText "idle"
      else if (key =? "cancelled")%string then StatusText "idle"
      else if (key =? "error")%string then StatusText "error"
      else if inherited_key key then PrototypeMember key
      else StatusText "offline"
  end.

Definition calculateEnergyDraw (extruderTemp bedTemp : option Q) (baseRating : Q) : Q :=
  if js_lt extruderTemp 50 && js_lt bedTemp 30 then 0.05%Q else
  let extruderLoad := if js_gt extruderTemp 150 then 0.25%Q else 0.05%Q in
  let bedLoad := if js_gt bedTemp 50 then 0.15%Q else 0.02%Q in
  toFixed3 (baseRating * 0.6 + extruderLoad + bedLoad)%Q.

(** [pollPrinter]; [None] is a request that threw (timeout, refused). *)
Definition pollPrinter (printer : Printer) (response : option KlipperStatus) : PollData :=
  match response with
  | Some data =>
      mkPollData (printer_id printer)
                 (or_zero (ks_extruder_temperature data))
                 (or_zero (ks_bed_temperature data))
                 (or_zero (ks_progress data) * 100)%Q
                 (mapKlipperStatus (ks_state data))
                 true
                 (Math_round (or_zero (ks_fan_speed data) * 5000)%Q)
                 (calculateEnergyDraw (ks_extruder_temperature data)
                                      (ks_bed_temperature data) (energyRating printer))
                 true
  | None =>
      mkPollData (printer_id printer) 0%Q 0%Q 0%Q (StatusText "offline") false 0 0%Q false
  end.

(** [printerTelemetry.create({ data: ... })]; the client refuses a [status]
    that is not a string. *)
Definition telemetry_create (data : PollData) : M unit :=
  match pd_status data with
  | PrototypeMember _ => invalid_argument
  | StatusText status =>
      write (fun now d =>
        let id := telemetrySeq d + 1 in
        Some (tt, with_telemetry
                    (telemetry d ++
                     [mkPrinterTelemetry id (pd_printerId data) (pd_extruderTemp data)
                        (pd_bedTemp data) (pd_progress data) (pd_energyDraw data)
                        status (pd_filamentPresent data) (pd_fanRpm data) now])
                    id d))
  end.

(** [printerEvent.create({ data: { printerId, level, code, message } })] *)
Definition printerEvent_create (printerId : Z) (level code : string) (temp limit : Q) : M unit :=
  write (fun now d =>
    Some (tt, with_printerEvents
                (printerEvents d ++ [mkPrinterEvent printerId level code temp limit now]) d)).

(** [printerTelemetry.count({ where: { printerId } })] *)
Definition telemetryCount (printerId : Z) (d : Db) : nat :=
  length (filter (fun t => pt_printerId t =? printerId) (telemetry d)).

(** [findMany({ where: { printerId }, orderBy: { recordedAt: 'asc' }, take, select: { id } })] *)
Definition oldestTelemetryIds (printerId : Z) (take : nat) (d : Db) : list Z :=
  map pt_id
      (firstn take
         (orderBy (fun a b => pt_recordedAt a <=? pt_recordedAt b)
                  (filter (fun t => pt_printerId t =? printerId) (telemetry d)))).

(** [printerTelemetry.deleteMany({ where: { id: { in: ids } } })] *)
Definition telemetry_deleteMany (ids : list Z) : M unit :=
  write (fun _ d =>
    Some (tt, with_telemetry
                (filter (fun t => negb (existsb (Z.eqb (pt_id t)) ids)) (telemetry d))
                (telemetrySeq d) d)).

(** The body of [for (const printer of printers)]. *)
Definition pollOne (ioClient : bool) (printer : Printer) (response : option KlipperStatus)
  : M unit :=
  let data := pollPrinter printer response in
  telemetry_create data ;;
  (if ioClient then
     emit (MsgTelemetry (printer_id printer) false) ;;
     emit (MsgTelemetry (printer_id printer) true)
   else ret tt) ;;
  (if negb (Qle_bool (pd_extruderTemp data) (maxTempExtruder printer)) then
     printerEvent_create (printer_id printer) "CRITICAL" "THERMAL_RUNAWAY"
                         (pd_extruderTemp data) (maxTempExtruder printer) ;;
     (if ioClient then emit (MsgPrinterEvent (printer_id printer)) else ret tt)
   else ret tt) ;;
  count <- query (telemetryCount (printer_id printer)) ;;
  if (500 <? count)%nat then
    oldest <- query (oldestTelemetryIds (printer_id printer) (count - 500)) ;;
    telemetry_deleteMany oldest
  else ret tt.

Fixpoint pollLoop (ioClient : bool) (network : Printer -> option KlipperStatus)
         (printers : list Printer) : M unit :=
  match printers with
  | [] => ret tt
  | printer :: rest =>
      pollOne ioClient printer (network printer) ;;
      pollLoop ioClient network rest
  end.

(** [network] is what each printer's Moonraker endpoint answers during this
    poll. *)
Definition runPoll (ioClient : bool) (network : Printer -> option KlipperStatus) : M unit :=
  try_catch
    (printers <- query activePrinters ;;
     pollLoop ioClient network printers)
    (ret tt).

(** [setInterval(runPoll, POLL_INTERVAL_MS)], for as many firings as
    [networks] has entries. *)
Fixpoint pollEvery (ioClient : bool) (networks : list (Printer -> option KlipperStatus))
  : M unit :=
  match networks with
  | [] => ret tt
  | network :: rest =>
      sleep POLL_INTERVAL_MS ;;
      runPoll ioClient network ;;
      pollEvery ioClient rest
  end.

(** ** Vocabulary of the statements *)

(** The two rows one pair of the matching loop writes, at time [now]. *)
Definition commit_pair (now : Z) (item : QueueItem) (printer : Printer) (d : Db) : Db :=
  with_jobs (set_job (qi_jobId item) (printer_id printer) now (jobs d))
    (with_queueItems (set_queueItem (qi_id item) (printer_id printer) now (queueItems d)) d).

(** The database and the clock after a run of the matching loop in which no
    write throws. *)
Fixpoint commitAll (settings : option EnergySettings) (i : nat) (now : Z)
         (pairs : list (QueueItem * Printer)) (d : Db) : Db * Z :=
  match pairs with
  | [] => (d, now)
  | (item, printer) :: rest =>
      let now' := match staggers settings i with Some ms => now + ms | None => now end in
      commitAll settings (S i) now' rest (commit_pair now' item printer d)
  end.

(** Number of QueueItem rows with status [assigned]. *)
Definition count_assigned (d : Db) : nat :=
  length (filter (fun q => (qi_status q =? "assigned")%string) (queueItems d)).

(** The idle count in the specification's sense (its section 4.3, step 2):
    the active devices whose current status, the status of their latest
    reading, is [idle]. *)
Definition spec_idleCount (d : Db) : nat :=
  length (filter (fun p => match latestTelemetryOf (printer_id p) d with
                           | Some t => (pt_status t =? "idle")%string
                           | None => false
                           end)
                 (activePrinters d)).

(** Priority rank ascending, then insertion timestamp ascending. *)
Definition served_before (a b : QueueItem) : Prop :=
  qi_priority a < qi_priority b
  \/ (qi_priority a = qi_priority b /\ qi_createdAt a <= qi_createdAt b).

(** What the schema guarantees about the queue: the primary key of
    QueueItem, the unique index [QueueItem_jobId_key] and the foreign key
    [QueueItem_jobId_fkey]. *)
Record schema_ok (d : Db) : Prop := mkSchemaOk {
  queue_pk : NoDup (map qi_id (queueItems d));
  queue_job_unique : NoDup (map qi_jobId (queueItems d));
  queue_job_fk : forall q, In q (queueItems d) -> exists j, In j (jobs d) /\ job_id j = qi_jobId q
}.

(** The threshold test both paths make, as a proposition. *)
Definition over_threshold (s : EnergySettings) (e : EnergyReading) : Prop :=
  js_ge (Number_of (er_currentKw e)) (js_times (Number_of (maxLoadKw s)) (Number_of 0.9)) = true.

(** Neither path's energy check fires on this database. *)
Definition admission_open (d : Db) : Prop :=
  forall s e, energySettings d = Some s -> latestEnergyReading d = Some e ->
              peakProtection s = true -> ~ over_threshold s e.

(** The three rows a successful manual assignment leaves behind. *)
Definition manual_commit (userId queueItemId printerId now : Z) (d : Db) : Db :=
  with_auditLogs
    (auditLogs d ++ [mkAuditLog userId "JOB_ASSIGNED" "QueueItem" queueItemId printerId now])
    (with_jobs
       (set_job (match findQueueItem queueItemId d with
                 | Some q => qi_jobId q
                 | None => 0
                 end) printerId now (jobs d))
       (with_queueItems (set_queueItem queueItemId printerId now (queueItems d)) d)).

(** The printer's answer names a member of [Object.prototype] as its state. *)
Definition names_prototype_member (response : option KlipperStatus) : bool :=
  match response with
  | Some data =>
      match ks_state data with
      | Some key => inherited_key key
      | None => false
      end
  | None => false
  end.

(** The thermal test of [runPoll] on what a printer answered. *)
Definition over_limit (printer : Printer) (response : option KlipperStatus) : bool :=
  negb (Qle_bool (pd_extruderTemp (pollPrinter printer response)) (maxTempExtruder printer)).

(** The PrinterEvent row the thermal test writes. *)
Definition thermal_event (printer : Printer) (response : option KlipperStatus) (now : Z)
  : PrinterEvent :=
  mkPrinterEvent (printer_id printer) "CRITICAL" "THERMAL_RUNAWAY"
                 (pd_extruderTemp (pollPrinter printer response))
                 (maxTempExtruder printer) now.

(** Number of PrinterEvent rows of one printer. *)
Definition events_of (printerId : Z) (d : Db) : nat :=
  length (filter (fun e => pe_printerId e =? printerId) (printerEvents d)).

(** ** Sample states *)

Definition settings6 : EnergySettings := mkEnergySettings 6 true true 5 1.2.

Definition printerA : Printer := mkPrinter 1 "A" true 260 0.4.
Definition printerB : Printer := mkPrinter 2 "B" true 260 0.4.

Definition telemetry_of (id printerId : Z) (status : string) (at_ : Z) : PrinterTelemetry :=
  mkPrinterTelemetry id printerId 0 0 0 0 status true 0 at_.

(** Printer A idle, printer B printing; queue [P=5, t=1] and [P=1, t=2]. *)
Definition shop (currentKw : Q) : Db :=
  mkDb (Some settings6)
       [mkEnergyReading currentKw 6 0 "calculated" 100]
       [printerA; printerB]
       [telemetry_of 1 1 "idle" 50; telemetry_of 2 2 "printing" 50] 2
       []
       [mkJob 1 "bracket" "queued" None None 0; mkJob 2 "gear" "queued" None None 0]
       [mkQueueItem 1 1 None 5 "queued" 1 1; mkQueueItem 2 2 None 1 "queued" 2 2]
       [] [].

Definition at_peak : World := mkWorld (shop 5.5) 1000 [] [].
Definition calm : World := mkWorld (shop 3) 1000 [] [].

(** The same shop with limit [maxLoadKw] and latest reading [currentKw]. *)
Definition tight (maxLoadKw currentKw : Q) : World :=
  mkWorld
    (mkDb (Some (mkEnergySettings maxLoadKw true true 5 1.2))
          [mkEnergyReading currentKw maxLoadKw 0 "calculated" 100]
          [printerA; printerB]
          [telemetry_of 1 1 "idle" 50; telemetry_of 2 2 "printing" 50] 2
          []
          [mkJob 1 "bracket" "queued" None None 0; mkJob 2 "gear" "queued" None None 0]
          [mkQueueItem 1 1 None 5 "queued" 1 1; mkQueueItem 2 2 None 1 "queued" 2 2]
          [] [])
    1000 [] [].

(** The second storage write of the run throws. *)
Definition calm_second_write_fails : World := mkWorld (shop 3) 1000 [] [false; true].

(** One printer whose last reading is [offline], one queued entry, peak
    protection on, no energy reading yet. *)
Definition offline_shop : Db :=
  mkDb (Some settings6) []
       [printerA]
       [telemetry_of 1 1 "offline" 50] 1
       []
       [mkJob 1 "bracket" "queued" None None 0]
       [mkQueueItem 1 1 None 5 "queued" 1 1]
       [] [].

Definition offline_world : World := mkWorld offline_shop 1000 [] [].

(** The same shop with a latest energy reading of 3 kW against the limit of
    6 kW. *)
Definition offline_open : World :=
  mkWorld
    (mkDb (Some settings6)
          [mkEnergyReading 3 6 0 "calculated" 100]
          [printerA]
          [telemetry_of 1 1 "offline" 50] 1
          []
          [mkJob 1 "bracket" "queued" None None 0]
          [mkQueueItem 1 1 None 5 "queued" 1 1]
          [] [])
    1000 [] [].

(** Entry 1 is already assigned to printer A; printer B is idle. *)
Definition assigned_shop : Db :=
  mkDb (Some settings6)
       [mkEnergyReading 3 6 0 "calculated" 100]
       [printerA; printerB]
       [telemetry_of 1 1 "idle" 50; telemetry_of 2 2 "idle" 50] 2
       []
       [mkJob 1 "bracket" "printing" (Some 1) (Some 500) 500]
       [mkQueueItem 1 1 (Some 1) 5 "assigned" 1 500]
       [] [].

Definition assigned_world : World := mkWorld assigned_shop 1000 [] [].

(** A printer that answers with a 300 degree extruder. *)
Definition hot : Printer -> option KlipperStatus :=
  fun _ => Some (mkKlipperStatus (Some 300%Q) (Some 60%Q) (Some 0.5%Q) (Some "printing") (Some 1%Q)).

Definition one_printer : World :=
  mkWorld (mkDb (Some settings6) [] [printerA] [] 0 [] [] [] [] []) 0 [] [].

(** ** Queue engine: [restoreQueueState] *)

(** [job.findMany({ where: { status: 'printing', printerId: { not: null } } })] *)
Definition inProgressJobs (d : Db) : list Job :=
  filter (fun j => (job_status j =? "printing")%string
                   && negb (optZ_eqb (job_printerId j) None)) (jobs d).

(** Returns [orphans.length], or 0 from the [catch] branch. *)
Definition restoreQueueState : M nat :=
  try_catch
    (orphans <- query inProgressJobs ;;
     ret (length orphans))
    (ret 0%nat).

(** ** Queue routes: [GET /api/queue], [PUT /api/queue/:id/priority],
       [DELETE /api/queue/:id] *)

Inductive QueueListResponse :=
| QueueList200 (items : list (QueueItem * option Job * option Printer))
| QueueListFailed500.                        (* 'Failed to load queue' *)

(** [include: { job: true, printer: true }] *)
Definition with_relations (d : Db) (q : QueueItem)
  : QueueItem * option Job * option Printer :=
  (q, findJob (qi_jobId q) d,
   match qi_printerId q with
   | Some printerId => findPrinter printerId d
   | None => None
   end).

Definition listQueue : M QueueListResponse :=
  try_catch
    (items <- read (fun d => map (with_relations d) (orderBy queue_le (queueItems d))) ;;
     ret (QueueList200 items))
    (ret QueueListFailed500).

(** [priorityMap[priority] || 5] with [priorityMap = { high: 1, medium: 5, low: 10 }];
    [priority] is the property key the request's value converts to.  [None]
    is a value Prisma refuses for an integer column. *)
Definition priorityRank (priority : string) : option Z :=
  if (priority =? "high")%string then Some 1
  else if (priority =? "medium")%string then Some 5
  else if (priority =? "low")%string then Some 10
  else if inherited_key priority then None
  else Some 5.

Definition rerank_item (rank now : Z) (q : QueueItem) : QueueItem :=
  mkQueueItem (qi_id q) (qi_jobId q) (qi_printerId q) rank (qi_status q)
              (qi_createdAt q) now.

Definition set_priority (id rank now : Z) (rows : list QueueItem) : list QueueItem :=
  map (fun q => if qi_id q =? id then rerank_item rank now q else q) rows.

(** [queueItem.update({ where: { id }, data: { priority }, include: { job: true } })] *)
Definition queueItem_update_priority (id : Z) (rank : option Z) : M QueueItem :=
  match rank with
  | None => invalid_argument
  | Some r =>
      write (fun now d =>
        match findQueueItem id d with
        | None => None
        | Some q =>
            Some (rerank_item r now q,
                  with_queueItems (set_priority id r now (queueItems d)) d)
        end)
  end.

Inductive PriorityResponse :=
| Priority200 (updated : QueueItem)          (* res.json(updated), the included job left out *)
| PriorityFailed500.                         (* 'Failed to update priority' *)

Definition changePriority (queueItemId : Z) (priority : string) : M PriorityResponse :=
  try_catch
    (updated <- queueItem_update_priority queueItemId (priorityRank priority) ;;
     emit (MsgQueueUpdated (qi_id updated)) ;;
     ret (Priority200 updated))
    (ret PriorityFailed500).

(** [queueItem.delete({ where: { id } })] *)
Definition queueItem_delete (id : Z) : M unit :=
  write (fun _ d =>
    match findQueueItem id d with
    | None => None
    | Some _ =>
        Some (tt, with_queueItems (filter (fun q => negb (qi_id q =? id)) (queueItems d)) d)
    end).

Definition cancel_job (now : Z) (j : Job) : Job :=
  mkJob (job_id j) (job_name j) "cancelled" (job_printerId j) (job_startedAt j) now.

(** [job.update({ where: { id }, data: { status: 'cancelled' } })] *)
Definition job_cancel (id : Z) : M unit :=
  write (fun now d =>
    match findJob id d with
    | None => None
    | Some _ =>
        Some (tt, with_jobs (map (fun j => if job_id j =? id then cancel_job now j else j)
                                 (jobs d)) d)
    end).

Inductive RemoveResponse :=
| Removed200                                 (* 'Removed from queue' *)
| QueueItemNotFound404                       (* 'Queue item not found' *)
| RemoveFailed500.                           (* 'Failed to remove from queue' *)

Definition removeFromQueue (queueItemId : Z) : M RemoveResponse :=
  try_catch
    (item <- query (findQueueItem queueItemId) ;;
     match item with
     | None => ret QueueItemNotFound404
     | Some item =>
         queueItem_delete queueItemId ;;
         job_cancel (qi_jobId item) ;;
         emit (MsgQueueUpdated queueItemId) ;;
         ret Removed200
     end)
    (ret RemoveFailed500).

(** ** Energy routes: [GET /api/energy/settings], [GET /api/energy/readings] *)

(** The column defaults of [EnergySettings], which [create({ data: { id: 1 } })]
    fills in. *)
Definition default_settings : EnergySettings := mkEnergySettings 6 true true 5 1.2.

Definition with_energySettings (s : option EnergySettings) (d : Db) : Db :=
  mkDb s (energyReadings d) (printers d) (telemetry d) (telemetrySeq d)
       (printerEvents d) (jobs d) (queueItems d) (powerEvents d) (auditLogs d).

(** [energySettings.create({ data: { id: 1 } })]; the primary key refuses a
    second row. *)
Definition energySettings_create : M EnergySettings :=
  write (fun _ d =>
    match energySettings d with
    | Some _ => None
    | None => Some (default_settings, with_energySettings (Some default_settings) d)
    end).

Inductive SettingsResponse :=
| Settings200 (settings : EnergySettings)
| SettingsFailed500.                         (* 'Failed to load energy settings' *)

Definition getEnergySettings : M SettingsResponse :=
  try_catch
    (settings <- query energySettings ;;
     match settings with
     | Some s => ret (Settings200 s)
     | None =>
         s <- energySettings_create ;;
         ret (Settings200 s)
     end)
    (ret SettingsFailed500).

Inductive ReadingsResponse :=
| Readings200 (readings : list EnergyReading)
| ReadingsFailed500.                         (* 'Failed to load energy readings' *)

(** [findMany({ orderBy: { recordedAt: 'desc' }, take: 100 })], then
    [readings.reverse()]. *)
Definition getEnergyReadings : M ReadingsResponse :=
  try_catch
    (readings <- read (fun d =>
        firstn 100 (orderBy (fun a b => er_recordedAt b <=? er_recordedAt a)
                            (energyReadings d))) ;;
     ret (Readings200 (rev readings)))
    (ret ReadingsFailed500).

(** ** Energy engine: [readEnergyLoad] *)

Record LoadReading := mkLoadReading {
  lr_currentKw : spec_float;
  lr_source : string
}.

(** The exact value [m * 2^e] of a finite double's magnitude. *)
Definition magnitude (m : positive) (e : Z) : Q :=
  match e with
  | Zneg k => Zpos m # (2 ^ k)
  | _ => inject_Z (Zpos m * 2 ^ e)
  end.

(** [+x.toFixed(2)]: the digits are those of the integer nearest to the
    exact value times 100, the larger one at a tie; from 10^21 on [toFixed]
    prints the number itself.  The unary plus reads the digits back. *)
Definition toFixed2 (x : spec_float) : spec_float :=
  match x with
  | S754_finite s m e =>
      let v := magnitude m e in
      if Qle_bool (inject_Z (10 ^ 21)) v then x
      else
        let n := Qfloor (v * 100 + (1 # 2))%Q in
        if n =? 0 then S754_zero s
        else Number_of ((if s then - n else n) # 100)
  | S754_zero _ => S754_zero false
  | _ => x
  end.

(** [distinct: [...]]: of the rows with the same key the first one stays. *)
Fixpoint distinctBy {A} (key : A -> Z) (seen : list Z) (rows : list A) : list A :=
  match rows with
  | [] => []
  | r :: rest =>
      if existsb (Z.eqb (key r)) seen then distinctBy key seen rest
      else r :: distinctBy key (key r :: seen) rest
  end.

(** [printerTelemetry.findMany({ distinct: ['printerId'], orderBy: { recordedAt: 'desc' } })] *)
Definition latestPerPrinter (d : Db) : list PrinterTelemetry :=
  distinctBy pt_printerId []
    (orderBy (fun a b => pt_recordedAt b <=? pt_recordedAt a) (telemetry d)).

(** [x || dflt] *)
Definition or_default (x dflt : Q) : Q := if Qeq_bool x 0 then dflt else x.

(** [latest.reduce((sum, t) => sum + (t.energyDraw || 0), 0)] *)
Definition printerLoad (latest : list PrinterTelemetry) : spec_float :=
  fold_left (fun sum t => js_plus sum (Number_of (or_default (pt_energyDraw t) 0)))
            latest (S754_zero false).

(** [settings?.baseLoadKw || 1.2] *)
Definition baseLoad (settings : option EnergySettings) : Q :=
  match settings with
  | Some s => or_default (baseLoadKw s) 1.2
  | None => 1.2%Q
  end.

(** [modbusRegister] is holding register 0 when [MODBUS_HOST] is set and the
    meter answered, [None] when it is not set or the read threw.  The result
    is [None] for the [null] of the outer [catch]. *)
Definition readEnergyLoad (modbusRegister : option Z) : M (option LoadReading) :=
  try_catch
    (match modbusRegister with
     | Some register =>
         ret (Some (mkLoadReading
                      (js_div (Number_of (inject_Z register)) (Number_of 100)) "modbus"))
     | None =>
         settings <- read energySettings ;;
         latest <- read latestPerPrinter ;;
         let printerLoad := printerLoad latest in
         let currentKw := toFixed2 (js_plus (Number_of (baseLoad settings)) printerLoad) in
         ret (Some (mkLoadReading currentKw "calculated"))
     end)
    (ret None).

(** ** Printer routes: [DELETE /api/printers/:id] *)

Definition with_printers (l : list Printer) (d : Db) : Db :=
  mkDb (energySettings d) (energyReadings d) l (telemetry d) (telemetrySeq d)
       (printerEvents d) (jobs d) (queueItems d) (powerEvents d) (auditLogs d).

Definition deactivate (p : Printer) : Printer :=
  mkPrinter (printer_id p) (printer_name p) false (maxTempExtruder p) (energyRating p).

(** [printer.update({ where: { id }, data: { isActive: false } })] *)
Definition printer_deactivate (id : Z) : M unit :=
  write (fun _ d =>
    match findPrinter id d with
    | None => None
    | Some _ =>
        Some (tt, with_printers (map (fun p => if printer_id p =? id then deactivate p else p)
                                     (printers d)) d)
    end).

Inductive DeactivateResponse :=
| Deactivated200                             (* 'Printer deactivated' *)
| DeactivateFailed500.                       (* 'Failed to remove printer' *)

Definition removePrinter (printerId : Z) : M DeactivateResponse :=
  try_catch
    (printer_deactivate printerId ;;
     ret Deactivated200)
    (ret DeactivateFailed500).

(** ** More vocabulary *)

(** The PrinterTelemetry row a poll stores for what [pollPrinter] returned
    with status string [status]. *)
Definition telemetry_row (id now : Z) (data : PollData) (status : string) : PrinterTelemetry :=
  mkPrinterTelemetry id (pd_printerId data) (pd_extruderTemp data) (pd_bedTemp data)
    (pd_progress data) (pd_energyDraw data) status (pd_filamentPresent data)
    (pd_fanRpm data) now.

(** Primary key of PrinterTelemetry, and its AUTOINCREMENT counter ahead of
    every row. *)
Record telemetry_ok (d : Db) : Prop := mkTelemetryOk {
  telemetry_pk : NoDup (map pt_id (telemetry d));
  telemetry_below_seq : forall t, In t (telemetry d) -> pt_id t <= telemetrySeq d
}.

(** Every stored reading is older than [now]. *)
Definition readings_before (now : Z) (d : Db) : Prop :=
  forall t, In t (telemetry d) -> pt_recordedAt t < now.

(** The rows of one printer, in table order. *)
Definition rows_of (printerId : Z) (d : Db) : list PrinterTelemetry :=
  filter (fun t => pt_printerId t =? printerId) (telemetry d).

(** The PrinterTelemetry table after the clean-up at the end of one poll of
    printer [printerId]. *)
Definition pruned (printerId : Z) (rows : list PrinterTelemetry) : list PrinterTelemetry :=
  let mine := filter (fun t => pt_printerId t =? printerId) rows in
  let count := length mine in
  if (500 <? count)%nat then
    filter (fun t =>
              negb (existsb (Z.eqb (pt_id t))
                      (map pt_id
                         (firstn (count - 500)
                            (orderBy (fun a b => pt_recordedAt a <=? pt_recordedAt b) mine)))))
           rows
  else rows.

(** A property of the database that a computation keeps, whatever it returns
    and whichever of its storage calls throw. *)
Definition keeps {A} (I : Db -> Prop) (m : M A) : Prop :=
  forall w, I (db w) -> I (db (snd (m w))).

(** The rows of the telemetry table are rows of [rows0] or carry one of the
    five status strings. *)
Definition known_status (rows0 : list PrinterTelemetry) (d : Db) : Prop :=
  forall t, In t (telemetry d) ->
    In t rows0 \/ In (pt_status t) ["printing"; "paused"; "idle"; "error"; "offline"].

(** Two queued entries of rank 5 and 10, printer A idle, no energy reading. *)
Definition backlog : World :=
  mkWorld
    (mkDb (Some settings6) []
          [printerA]
          [telemetry_of 1 1 "idle" 50] 1
          []
          [mkJob 1 "bracket" "queued" None None 0; mkJob 2 "gear" "queued" None None 0]
          [mkQueueItem 1 1 None 5 "queued" 1 1; mkQueueItem 2 2 None 10 "queued" 2 2]
          [] [])
    1000 [] [].

(** Printer A with a full history: 500 readings, taken at milliseconds 1
    to 500, all [printing]. *)
Definition full_history : World :=
  mkWorld
    (mkDb (Some settings6) []
          [printerA]
          (map (fun k => telemetry_of (Z.of_nat k) 1 "printing" (Z.of_nat k)) (seq 1 500)) 500
          [] [] [] [] [])
    1000 [] [].

(** Three energy readings, stored out of chronological order. *)
Definition three_readings : World :=
  mkWorld
    (mkDb (Some settings6)
          [mkEnergyReading 3 6 0 "calculated" 100;
           mkEnergyReading 5.5 6 1 "calculated" 300;
           mkEnergyReading 4 6 1 "calculated" 200]
          [printerA] [] 0 [] [] [] [] [])
    1000 [] [].

(** Base load 1.2 kW; printer A has an older reading drawing 0.5 kW and a
    latest one drawing 0.325 kW. *)
Definition metered : World :=
  mkWorld
    (mkDb (Some settings6) []
          [printerA]
          [mkPrinterTelemetry 1 1 200 60 50 0.5 "printing" true 0 10;
           mkPrinterTelemetry 2 1 210 60 60 0.325 "printing" true 0 20] 2
          [] [] [] [] [])
    1000 [] [].

(** Printer A's firmware reports the state [toString] (with a 300 degree
    extruder); every other printer answers like [hot]. *)
Definition odd_state : Printer -> option KlipperStatus :=
  fun p =>
    if printer_id p =? 1
    then Some (mkKlipperStatus (Some 300%Q) (Some 60%Q) (Some 0.5%Q) (Some "toString")
                               (Some 1%Q))
    else hot p.

(** A printer that has cooled down and reports [standby]. *)
Definition cooled : Printer -> option KlipperStatus :=
  fun _ => Some (mkKlipperStatus (Some 25%Q) (Some 22%Q) (Some 1%Q) (Some "standby") (Some 0%Q)).

(** * Properties *)

(** ** The energy gate *)

Lemma matchQueue_never_PeakSkip settings w : fst (matchQueue settings w) <> Ret PeakSkip.
Proof.
  unfold matchQueue, bind, query, ret.
  destruct (length (idlePrinters (db w)) =? 0)%nat; cbn; [discriminate|].
  destruct (length (findQueueItems _ _) =? 0)%nat; cbn; [discriminate|].
  destruct (matchLoop _ _ _ w) as [[[]|] w']; cbn; discriminate.
Qed.

Lemma caught_tick_never_PeakSkip settings w :
  fst (try_catch (matchQueue settings) (ret Caught) w) <> Ret PeakSkip.
Proof.
  unfold try_catch. pose proof (matchQueue_never_PeakSkip settings w) as H.
  destruct (matchQueue settings w) as [[x|] w']; cbn in *; [exact H | discriminate].
Qed.

Lemma assignCommit_never_peak u q p w c m :
  fst (assignCommit u q p w) <> Ret (PeakProtection409 c m).
Proof.
  unfold assignCommit, bind, query, ret.
  destruct (findPrinter p (db w)); cbn; [|discriminate].
  destruct (is_printing _); cbn; [discriminate|].
  destruct (queueItem_update q p w) as [[x|] w1]; cbn; [|discriminate].
  destruct (job_update _ _ w1) as [[y|] w2]; cbn; [|discriminate].
  destruct (auditLog_create _ _ _ _ _ w2) as [[z|] w3]; cbn; [|discriminate].
  discriminate.
Qed.

Lemma caught_assign_never_peak u q p w c m :
  fst (try_catch (assignCommit u q p) (ret Failed500) w) <> Ret (PeakProtection409 c m).
Proof.
  unfold try_catch. pose proof (assignCommit_never_peak u q p w c m) as H.
  destruct (assignCommit u q p w) as [[x|] w']; cbn in *; [exact H | discriminate].
Qed.

Lemma processQueue_gate_open w :
  (forall s e, energySettings (db w) = Some s -> latestEnergyReading (db w) = Some e ->
               peakProtection s = true -> ~ over_threshold s e) ->
  processQueue w = try_catch (matchQueue (energySettings (db w))) (ret Caught) w.
Proof.
  intro H. unfold processQueue, try_catch, bind, query. cbn.
  destruct (energySettings (db w)) as [s|] eqn:S; [|reflexivity].
  destruct (latestEnergyReading (db w)) as [e|] eqn:L; [|reflexivity].
  destruct (peakProtection s) eqn:P; [|reflexivity].
  destruct (js_ge (Number_of (er_currentKw e)) _) eqn:G; [|reflexivity].
  exfalso. now apply (H s e eq_refl eq_refl P).
Qed.

Lemma processQueue_gate_shut w s e :
  energySettings (db w) = Some s -> latestEnergyReading (db w) = Some e ->
  peakProtection s = true -> over_threshold s e ->
  processQueue w = (Ret PeakSkip, w).
Proof.
  intros S L P G. unfold processQueue, try_catch, bind, query. cbn.
  rewrite S, L, P. unfold over_threshold in G. now rewrite G.
Qed.

Lemma assign_gate_open u q p w :
  (forall s e, energySettings (db w) = Some s -> latestEnergyReading (db w) = Some e ->
               peakProtection s = true -> ~ over_threshold s e) ->
  assign u q p w = try_catch (assignCommit u q p) (ret Failed500) w.
Proof.
  intro H. unfold assign, try_catch, bind, query. cbn.
  destruct (energySettings (db w)) as [s|] eqn:S; [|reflexivity].
  destruct (latestEnergyReading (db w)) as [e|] eqn:L; [|reflexivity].
  destruct (peakProtection s) eqn:P; [|reflexivity].
  destruct (js_ge (Number_of (er_currentKw e)) _) eqn:G; [|reflexivity].
  exfalso. now apply (H s e eq_refl eq_refl P).
Qed.

Lemma assign_gate_shut u q p w s e :
  energySettings (db w) = Some s -> latestEnergyReading (db w) = Some e ->
  peakProtection s = true -> over_threshold s e ->
  assign u q p w =
  try_catch (powerEvent_create "OVERLOAD_PREVENTED" (er_currentKw e) (maxLoadKw s)
                               "Job assignment blocked" ;;
             ret (PeakProtection409 (er_currentKw e) (maxLoadKw s)))
            (ret Failed500) w.
Proof.
  intros S L P G. unfold assign, try_catch, bind, query. cbn.
  rewrite S, L, P. unfold over_threshold in G. now rewrite G.
Qed.

Lemma over_threshold_dec s e : {over_threshold s e} + {~ over_threshold s e}.
Proof.
  unfold over_threshold.
  destruct (js_ge (Number_of (er_currentKw e)) _); [now left|right; discriminate].
Qed.

(** C2.  A scheduler tick that leaves through the peak-protection exit
    terminates with the world exactly as it found it: no QueueItem, Job,
    printer or telemetry row is touched, nothing is emitted, the clock has not
    moved and no storage write was attempted.  The tick leaves that way
    whenever peak protection is on and the latest reading is at or over 90% of
    the limit. *)
Theorem blocked_tick_changes_nothing w :
  (fst (processQueue w) = Ret PeakSkip -> snd (processQueue w) = w)
  /\ (forall s e,
        energySettings (db w) = Some s -> peakProtection s = true ->
        latestEnergyReading (db w) = Some e -> over_threshold s e ->
        processQueue w = (Ret PeakSkip, w)).
Proof.
  split.
  2:{ intros s e S P L G. now apply (processQueue_gate_shut w s e). }
  intro H.
  destruct (energySettings (db w)) as [s|] eqn:S.
  2:{ rewrite processQueue_gate_open in H by (intros; congruence).
      now apply caught_tick_never_PeakSkip in H. }
  destruct (latestEnergyReading (db w)) as [e|] eqn:L.
  2:{ rewrite processQueue_gate_open in H by (intros; congruence).
      now apply caught_tick_never_PeakSkip in H. }
  destruct (peakProtection s) eqn:P.
  2:{ rewrite processQueue_gate_open in H by (intros; congruence).
      now apply caught_tick_never_PeakSkip in H. }
  destruct (over_threshold_dec s e) as [G|G].
  - now rewrite (processQueue_gate_shut w s e).
  - rewrite processQueue_gate_open in H.
    + now apply caught_tick_never_PeakSkip in H.
    + intros s' e' S' L' _ G'. apply G. congruence.
Qed.

Lemma blocked_tick_changes_nothing_witness :
  fst (processQueue at_peak) = Ret PeakSkip /\ snd (processQueue at_peak) = at_peak.
Proof.
  split.
  - vm_compute. reflexivity.
  - apply (proj1 (blocked_tick_changes_nothing at_peak)). vm_compute. reflexivity.
Defined.

(** C1 (counterexample).  Limit 6 kW, latest reading 5.5 kW, peak protection
    on: the scheduler tick is blocked, yet the PowerEvent table is still
    empty afterwards. *)
Lemma scheduler_block_records_no_PowerEvent :
  energySettings (db at_peak) = Some settings6
  /\ peakProtection settings6 = true
  /\ (exists e, latestEnergyReading (db at_peak) = Some e /\ over_threshold settings6 e)
  /\ fst (processQueue at_peak) = Ret PeakSkip
  /\ powerEvents (db (snd (processQueue at_peak))) = [].
Proof.
  repeat split.
  eexists. split; [reflexivity|]. vm_compute. reflexivity.
Qed.

(** C1 (amended).  With peak protection off neither path is ever blocked.
    With it on and a latest reading [e], each path is blocked exactly when
    [currentKw >= maxLoadKw * 0.9], the product being the double JavaScript
    computes ([over_threshold]).  The manual route then inserts a
    PowerEvent carrying [currentKw] and [limitKw = maxLoadKw] and answers 409
    (500, with the database untouched, if that insert throws); the scheduler
    tick returns silently and the PowerEvent table is unchanged. *)
Theorem admission_gate_on_both_paths w s userId queueItemId printerId :
  energySettings (db w) = Some s ->
  let tick := processQueue w in
  let resp := assign userId queueItemId printerId w in
  (peakProtection s = false ->
     fst tick <> Ret PeakSkip
     /\ (forall c m, fst resp <> Ret (PeakProtection409 c m)))
  /\
  (peakProtection s = true ->
   forall e, latestEnergyReading (db w) = Some e ->
     (fst tick = Ret PeakSkip <-> over_threshold s e)
     /\ (fst tick = Ret PeakSkip -> powerEvents (db (snd tick)) = powerEvents (db w))
     /\ ((exists c m, fst resp = Ret (PeakProtection409 c m)) -> over_threshold s e)
     /\ (over_threshold s e -> hd false (faults w) = false ->
           fst resp = Ret (PeakProtection409 (er_currentKw e) (maxLoadKw s))
           /\ powerEvents (db (snd resp))
              = (powerEvents (db w)
                 ++ [mkPowerEvent "OVERLOAD_PREVENTED" (er_currentKw e) (maxLoadKw s)
                                  "Job assignment blocked" (clock w)])%list)
     /\ (over_threshold s e -> hd false (faults w) = true ->
           fst resp = Ret Failed500 /\ db (snd resp) = db w)).
Proof.
  intros S tick resp. subst tick resp. split.
  - intro P.
    assert (open : forall s' e, energySettings (db w) = Some s' ->
                     latestEnergyReading (db w) = Some e ->
                     peakProtection s' = true -> ~ over_threshold s' e)
      by (intros; congruence).
    rewrite (processQueue_gate_open w open), (assign_gate_open _ _ _ w open).
    split; [apply caught_tick_never_PeakSkip | intros; apply caught_assign_never_peak].
  - intros P e L.
    destruct (over_threshold_dec s e) as [G|G].
    + rewrite (processQueue_gate_shut w s e S L P G).
      rewrite (assign_gate_shut _ _ _ w s e S L P G).
      split; [split; auto|].
      split; [reflexivity|].
      split; [auto|].
      split; intros _ F; unfold try_catch, bind, powerEvent_create, write, ret;
        destruct (faults w) as [|[|] rest]; cbn in F; try discriminate;
        split; reflexivity.
    + assert (open : forall s' e', energySettings (db w) = Some s' ->
                       latestEnergyReading (db w) = Some e' ->
                       peakProtection s' = true -> ~ over_threshold s' e')
        by (intros s' e' S' L' _ G'; apply G; congruence).
      rewrite (processQueue_gate_open w open), (assign_gate_open _ _ _ w open).
      split; [split; [intro H; now apply caught_tick_never_PeakSkip in H | tauto]|].
      split; [intro H; now apply caught_tick_never_PeakSkip in H|].
      split; [intros (c & m & H); now apply caught_assign_never_peak in H|].
      split; tauto.
Qed.

Lemma admission_gate_on_both_paths_witness :
  fst (processQueue at_peak) = Ret PeakSkip
  /\ fst (assign 7 1 1 at_peak) = Ret (PeakProtection409 5.5 6)
  /\ powerEvents (db (snd (assign 7 1 1 at_peak)))
     = [mkPowerEvent "OVERLOAD_PREVENTED" 5.5 6 "Job assignment blocked" 1000].
Proof.
  destruct (admission_gate_on_both_paths at_peak settings6 7 1 1 eq_refl) as [_ H].
  destruct (H eq_refl (mkEnergyReading 5.5 6 0 "calculated" 100) eq_refl)
    as (Htick & _ & _ & Hresp & _).
  assert (G : over_threshold settings6 (mkEnergyReading 5.5 6 0 "calculated" 100))
    by (vm_compute; reflexivity).
  split; [now apply Htick|].
  exact (Hresp G eq_refl).
Defined.

(** The threshold is the double product.  With a limit of 2.2 kW it is
    1.9800000000000002, so a reading of 1.98 kW -- 90% of the limit in exact
    arithmetic -- is let through by both paths; with a limit of 6 kW the
    product is the double 5.4 and a reading of 5.4 kW blocks both. *)
Example threshold_is_the_double_product :
  js_times (Number_of 2.2) (Number_of 0.9) = S754_finite false 8917127262193583 (-52)
  /\ Number_of 1.98 = S754_finite false 8917127262193582 (-52)
  /\ fst (processQueue (tight 2.2 1.98)) = Ret LoopDone
  /\ fst (assign 7 1 1 (tight 2.2 1.98))
     = Ret (Json200 (mkQueueItem 1 1 (Some 1) 5 "assigned" 1 1000))
  /\ fst (processQueue (tight 6 5.4)) = Ret PeakSkip
  /\ fst (assign 7 1 1 (tight 6 5.4)) = Ret (PeakProtection409 5.4 6).
Proof. vm_compute. repeat split. Qed.

(** ** Power-draw estimate *)

Lemma js_lt_spec q c : js_lt (Some q) c = true <-> (q < c)%Q.
Proof.
  unfold js_lt. rewrite negb_true_iff. split; intro H.
  - apply Qnot_le_lt. intro Hle. apply Qle_bool_iff in Hle. congruence.
  - destruct (Qle_bool c q) eqn:E; auto. apply Qle_bool_iff in E. lra.
Qed.

Lemma js_gt_spec q c : js_gt (Some q) c = true <-> (c < q)%Q.
Proof.
  unfold js_gt. rewrite negb_true_iff. split; intro H.
  - apply Qnot_le_lt. intro Hle. apply Qle_bool_iff in Hle. congruence.
  - destruct (Qle_bool q c) eqn:E; auto. apply Qle_bool_iff in E. lra.
Qed.

Lemma round3_mono x y : (x <= y)%Q -> (round3 x <= round3 y)%Q.
Proof.
  intro H. unfold round3, Qle. cbn [Qnum Qden].
  apply Z.mul_le_mono_nonneg_r; [lia|].
  apply Qfloor_resp_le. lra.
Qed.

Lemma toFixed3_mono_nonneg x y : (0 <= x)%Q -> (x <= y)%Q -> (toFixed3 x <= toFixed3 y)%Q.
Proof.
  intros Hx Hxy. unfold toFixed3.
  assert (Hy : (0 <= y)%Q) by lra.
  apply Qle_bool_iff in Hx. apply Qle_bool_iff in Hy. rewrite Hx, Hy.
  now apply round3_mono.
Qed.

(** The smallest draw outside standby, 0.05 + 0.02, is above the standby
    figure. *)
Lemma standby_below_active x : (0.07 <= x)%Q -> (0.05 <= toFixed3 x)%Q.
Proof.
  intros Hx. apply Qle_trans with (toFixed3 0.07).
  - vm_compute. discriminate.
  - apply toFixed3_mono_nonneg; lra.
Qed.

Ltac threshold_facts :=
  repeat match goal with
  | H : js_lt _ _ = true |- _ => apply js_lt_spec in H
  | H : js_gt _ _ = true |- _ => apply js_gt_spec in H
  | H : js_lt (Some ?q) ?c = false |- _ =>
      assert (~ (q < c)%Q)
        by (let X := fresh in intro X; apply js_lt_spec in X; congruence); clear H
  | H : js_gt (Some ?q) ?c = false |- _ =>
      assert (~ (c < q)%Q)
        by (let X := fresh in intro X; apply js_gt_spec in X; congruence); clear H
  end.

(** C9.  For a non-negative rating the estimate is monotone in the pair of
    temperatures, and below 50 degrees at the extruder and 30 at the bed it
    is the standby figure 0.05 kW. *)
Theorem calculateEnergyDraw_monotone r e1 b1 e2 b2 :
  (0 <= r)%Q -> (e1 <= e2)%Q -> (b1 <= b2)%Q ->
  (calculateEnergyDraw (Some e1) (Some b1) r <= calculateEnergyDraw (Some e2) (Some b2) r)%Q
  /\ ((e1 < 50)%Q -> (b1 < 30)%Q -> calculateEnergyDraw (Some e1) (Some b1) r = 0.05%Q).
Proof.
  intros Hr He Hb. split.
  - unfold calculateEnergyDraw.
    destruct (js_lt (Some e1) 50) eqn:E1; destruct (js_lt (Some b1) 30) eqn:B1;
    destruct (js_lt (Some e2) 50) eqn:E2; destruct (js_lt (Some b2) 30) eqn:B2;
    cbn [andb]; threshold_facts; try lra;
    try (destruct (js_gt (Some e2) 150), (js_gt (Some b2) 50);
         apply standby_below_active; lra);
    destruct (js_gt (Some e1) 150) eqn:E1'; destruct (js_gt (Some b1) 50) eqn:B1';
    destruct (js_gt (Some e2) 150) eqn:E2'; destruct (js_gt (Some b2) 50) eqn:B2';
    threshold_facts; try lra; apply toFixed3_mono_nonneg; lra.
  - intros E B. unfold calculateEnergyDraw.
    apply js_lt_spec in E. apply js_lt_spec in B. now rewrite E, B.
Qed.

Lemma calculateEnergyDraw_monotone_witness :
  (calculateEnergyDraw (Some 20%Q) (Some 20%Q) 0.4
   <= calculateEnergyDraw (Some 200%Q) (Some 60%Q) 0.4)%Q
  /\ calculateEnergyDraw (Some 20%Q) (Some 20%Q) 0.4 = 0.05%Q.
Proof.
  destruct (calculateEnergyDraw_monotone 0.4 20 20 200 60) as [Hle Hfloor];
    try (unfold Qle; simpl; lia).
  split; [exact Hle|].
  apply Hfloor; unfold Qlt; simpl; lia.
Defined.

(** ** Ordering of query results *)

Section OrderByFacts.
Context {A : Type} (le : A -> A -> bool).

Lemma insert_row_perm x l : Permutation (insert_row le x l) (x :: l).
Proof.
  induction l as [|y l IH]; cbn.
  - reflexivity.
  - destruct (le x y).
    + reflexivity.
    + rewrite IH. apply perm_swap.
Qed.

Lemma orderBy_perm l : Permutation (orderBy le l) l.
Proof.
  induction l as [|x l IH]; cbn.
  - constructor.
  - rewrite insert_row_perm. now constructor.
Qed.

Hypothesis le_total : forall a b, le a b = true \/ le b a = true.
Hypothesis le_trans : forall a b c, le a b = true -> le b c = true -> le a c = true.

Lemma insert_row_sorted x l :
  StronglySorted (fun a b => le a b = true) l ->
  StronglySorted (fun a b => le a b = true) (insert_row le x l).
Proof.
  induction 1 as [|y l Hs IH Hall]; cbn.
  - repeat constructor.
  - destruct (le x y) eqn:E.
    + constructor.
      * now constructor.
      * constructor; [exact E|].
        eapply Forall_impl; [|exact Hall]. intros z Hz. now apply le_trans with y.
    + constructor; [exact IH|].
      assert (Hyx : le y x = true) by (destruct (le_total x y); congruence).
      eapply Permutation_Forall; [symmetry; apply insert_row_perm|].
      now constructor.
Qed.

Lemma orderBy_sorted l : StronglySorted (fun a b => le a b = true) (orderBy le l).
Proof.
  induction l as [|x l IH]; cbn.
  - constructor.
  - now apply insert_row_sorted.
Qed.
End OrderByFacts.

Lemma queue_le_spec a b : queue_le a b = true <-> served_before a b.
Proof.
  unfold queue_le, served_before.
  rewrite orb_true_iff, andb_true_iff, Z.ltb_lt, Z.eqb_eq, Z.leb_le. tauto.
Qed.

Lemma queue_le_total a b : queue_le a b = true \/ queue_le b a = true.
Proof. rewrite !queue_le_spec. unfold served_before. lia. Qed.

Lemma queue_le_trans a b c :
  queue_le a b = true -> queue_le b c = true -> queue_le a c = true.
Proof. rewrite !queue_le_spec. unfold served_before. lia. Qed.

Lemma candidates_perm d : Permutation (candidates d) (filter is_candidate (queueItems d)).
Proof. apply orderBy_perm. Qed.

Lemma candidates_sorted d : StronglySorted served_before (candidates d).
Proof.
  unfold candidates.
  pose proof (orderBy_sorted queue_le queue_le_total queue_le_trans
                (filter is_candidate (queueItems d))) as H.
  induction H as [|a l Hs IH Hall]; constructor; auto.
  eapply Forall_impl; [|exact Hall]. intros b. apply queue_le_spec.
Qed.

Lemma candidate_in_queue d q :
  In q (candidates d) -> In q (queueItems d) /\ qi_status q = "queued" /\ qi_printerId q = None.
Proof.
  intro H. apply (Permutation_in _ (candidates_perm d)) in H.
  apply filter_In in H. destruct H as [Hin Hc]. split; [exact Hin|].
  unfold is_candidate in Hc. apply andb_true_iff in Hc. destruct Hc as [Hs Hp].
  apply String.eqb_eq in Hs. split; [exact Hs|].
  destruct (qi_printerId q); [discriminate|reflexivity].
Qed.

(** ** Row updates *)

Lemma set_queueItem_ids id p t l : map qi_id (set_queueItem id p t l) = map qi_id l.
Proof.
  unfold set_queueItem. rewrite map_map. apply map_ext.
  intro q. now destruct (qi_id q =? id).
Qed.

Lemma set_job_ids id p t l : map job_id (set_job id p t l) = map job_id l.
Proof.
  unfold set_job. rewrite map_map. apply map_ext.
  intro j. now destruct (job_id j =? id).
Qed.

Lemma set_queueItem_other id p t l q :
  In q l -> qi_id q <> id -> In q (set_queueItem id p t l).
Proof.
  intros Hin Hne. unfold set_queueItem. apply in_map_iff. exists q. split; [|exact Hin].
  destruct (Z.eqb_spec (qi_id q) id); congruence.
Qed.

Lemma set_queueItem_hit id p t l q :
  In q l -> qi_id q = id -> In (assign_item p t q) (set_queueItem id p t l).
Proof.
  intros Hin He. unfold set_queueItem. apply in_map_iff. exists q. split; [|exact Hin].
  destruct (Z.eqb_spec (qi_id q) id); congruence.
Qed.

Lemma set_queueItem_rows id p t l q' :
  In q' (set_queueItem id p t l) ->
  In q' l \/ exists q, In q l /\ qi_id q = id /\ q' = assign_item p t q.
Proof.
  unfold set_queueItem. intro H. apply in_map_iff in H. destruct H as (q & Hq & Hin).
  destruct (Z.eqb_spec (qi_id q) id).
  - right. exists q. auto.
  - left. now subst.
Qed.

Lemma set_queueItem_absent id p t l :
  ~ In id (map qi_id l) -> set_queueItem id p t l = l.
Proof.
  induction l as [|x l IH]; cbn; intro H; [reflexivity|].
  destruct (Z.eqb_spec (qi_id x) id); [tauto|]. f_equal. apply IH. tauto.
Qed.

Lemma set_job_other id p t l j : In j l -> job_id j <> id -> In j (set_job id p t l).
Proof.
  intros Hin Hne. unfold set_job. apply in_map_iff. exists j. split; [|exact Hin].
  destruct (Z.eqb_spec (job_id j) id); congruence.
Qed.

Lemma set_job_hit id p t l j :
  In j l -> job_id j = id -> In (start_job p t j) (set_job id p t l).
Proof.
  intros Hin He. unfold set_job. apply in_map_iff. exists j. split; [|exact Hin].
  destruct (Z.eqb_spec (job_id j) id); congruence.
Qed.

Lemma findQueueItem_found id d :
  In id (map qi_id (queueItems d)) -> exists q, findQueueItem id d = Some q.
Proof.
  intro H. apply in_map_iff in H. destruct H as (q & Hid & Hin).
  unfold findQueueItem. destruct (find _ _) as [q'|] eqn:F; [now exists q'|].
  apply (find_none _ _ F) in Hin. apply Z.eqb_neq in Hin. congruence.
Qed.

Lemma findJob_found id d :
  In id (map job_id (jobs d)) -> exists j, findJob id d = Some j.
Proof.
  intro H. apply in_map_iff in H. destruct H as (j & Hid & Hin).
  unfold findJob. destruct (find _ _) as [j'|] eqn:F; [now exists j'|].
  apply (find_none _ _ F) in Hin. apply Z.eqb_neq in Hin. congruence.
Qed.

Lemma findQueueItem_unique id d q :
  NoDup (map qi_id (queueItems d)) -> In q (queueItems d) -> qi_id q = id ->
  findQueueItem id d = Some q.
Proof.
  unfold findQueueItem. induction (queueItems d) as [|x l IH]; cbn; intros ND Hin Hid.
  - contradiction.
  - inversion ND as [|? ? Hx ND']; subst.
    destruct Hin as [->|Hin].
    + now rewrite Z.eqb_refl.
    + destruct (Z.eqb_spec (qi_id x) (qi_id q)) as [E|E].
      * exfalso. apply Hx. rewrite E. now apply in_map.
      * now apply IH.
Qed.

Lemma count_set_queueItem p t l q :
  NoDup (map qi_id l) -> In q l -> qi_status q <> "assigned" ->
  length (filter (fun q => (qi_status q =? "assigned")%string) (set_queueItem (qi_id q) p t l))
  = S (length (filter (fun q => (qi_status q =? "assigned")%string) l)).
Proof.
  induction l as [|x l IH]; intros ND Hin Hs; [contradiction|].
  inversion ND as [|? ? Hx ND']; subst.
  destruct Hin as [->|Hin].
  - cbn. rewrite Z.eqb_refl. cbn.
    apply String.eqb_neq in Hs. rewrite Hs.
    change (map _ l) with (set_queueItem (qi_id q) p t l).
    now rewrite set_queueItem_absent.
  - cbn. destruct (Z.eqb_spec (qi_id x) (qi_id q)) as [E|E].
    + exfalso. apply Hx. rewrite E. now apply in_map.
    + change (map _ l) with (set_queueItem (qi_id q) p t l).
      destruct (qi_status x =? "assigned")%string; cbn; now rewrite IH.
Qed.

(** ** The matching loop when no write throws *)

Ltac rows :=
  unfold commit_pair;
  cbn [db set_db set_faults queueItems jobs with_jobs with_queueItems fst snd].

Lemma bind_Ret {A B} (m : M A) (k : A -> M B) w a w' :
  m w = (Ret a, w') -> bind m k w = k a w'.
Proof. unfold bind. now intros ->. Qed.

Lemma bind_Throw {A B} (m : M A) (k : A -> M B) w w' :
  m w = (Throw, w') -> bind m k w = (Throw, w').
Proof. unfold bind. now intros ->. Qed.

Lemma write_no_fault {A} (f : Z -> Db -> option (A * Db)) w a d :
  faults w = [] -> f (clock w) (db w) = Some (a, d) ->
  write f w = (Ret a, set_db d w).
Proof.
  intros F E. unfold write. rewrite F, E. cbn.
  destruct w; cbn in *; now subst.
Qed.

Lemma queueItem_update_no_fault id pid w :
  faults w = [] -> In id (map qi_id (queueItems (db w))) ->
  exists q,
    queueItem_update id pid w
    = (Ret q, set_db (with_queueItems (set_queueItem id pid (clock w) (queueItems (db w)))
                                      (db w)) w).
Proof.
  intros F Hin. destruct (findQueueItem_found id (db w) Hin) as [q Hq].
  exists (assign_item pid (clock w) q). unfold queueItem_update.
  apply write_no_fault; [exact F|]. now rewrite Hq.
Qed.

Lemma job_update_no_fault id pid w :
  faults w = [] -> In id (map job_id (jobs (db w))) ->
  exists j,
    job_update id pid w
    = (Ret j, set_db (with_jobs (set_job id pid (clock w) (jobs (db w))) (db w)) w).
Proof.
  intros F Hin. destruct (findJob_found id (db w) Hin) as [j Hj].
  exists (start_job pid (clock w) j). unfold job_update.
  apply write_no_fault; [exact F|]. now rewrite Hj.
Qed.

Lemma stagger_step settings i w :
  (match staggers settings i with Some ms => sleep ms | None => ret tt end) w
  = (Ret tt,
     mkWorld (db w)
             (match staggers settings i with Some ms => clock w + ms | None => clock w end)
             (emitted w) (faults w)).
Proof.
  destruct (staggers settings i); cbn; [reflexivity|]. now destruct w.
Qed.

Lemma matchLoop_no_fault pairs : forall settings i w,
  faults w = [] ->
  (forall item p, In (item, p) pairs ->
     In (qi_id item) (map qi_id (queueItems (db w)))
     /\ In (qi_jobId item) (map job_id (jobs (db w)))) ->
  matchLoop settings i pairs w
  = (Ret tt, mkWorld (fst (commitAll settings i (clock w) pairs (db w)))
                     (snd (commitAll settings i (clock w) pairs (db w)))
                     (emitted w) []).
Proof.
  induction pairs as [|[item p] rest IH]; intros settings i w F Hall.
  - cbn. destruct w; cbn in *; now subst.
  - cbn [matchLoop commitAll].
    rewrite (bind_Ret _ _ _ _ _ (stagger_step settings i w)).
    set (now' := match staggers settings i with Some ms => clock w + ms | None => clock w end).
    set (w1 := mkWorld (db w) now' (emitted w) (faults w)).
    destruct (Hall item p (or_introl eq_refl)) as [Hq Hj].
    destruct (queueItem_update_no_fault (qi_id item) (printer_id p) w1 F Hq) as [q Eq].
    rewrite (bind_Ret _ _ _ _ _ Eq).
    set (w2 := set_db _ w1) in *.
    destruct (job_update_no_fault (qi_jobId item) (printer_id p) w2 F Hj) as [j Ej].
    rewrite (bind_Ret _ _ _ _ _ Ej).
    rewrite IH.
    + reflexivity.
    + exact F.
    + intros item' p' Hin. subst w2 w1.
      cbn [db set_db queueItems jobs with_jobs with_queueItems].
      rewrite set_queueItem_ids, set_job_ids.
      apply (Hall item' p'). now right.
Qed.

Lemma commitAll_queue_ids pairs : forall settings i now d,
  map qi_id (queueItems (fst (commitAll settings i now pairs d))) = map qi_id (queueItems d).
Proof.
  induction pairs as [|[item p] rest IH]; intros; cbn [commitAll]; [reflexivity|].
  rewrite IH. rows. apply set_queueItem_ids.
Qed.

Lemma commitAll_queue_other pairs : forall settings i now d q,
  In q (queueItems d) -> ~ In (qi_id q) (map qi_id (map fst pairs)) ->
  In q (queueItems (fst (commitAll settings i now pairs d))).
Proof.
  induction pairs as [|[item p] rest IH]; intros settings i now d q Hin Hout;
    cbn [commitAll]; [exact Hin|].
  cbn in Hout. apply IH; [|tauto].
  rows. apply set_queueItem_other; [exact Hin|]. intro E. apply Hout. now left.
Qed.

Lemma commitAll_job_other pairs : forall settings i now d j,
  In j (jobs d) -> ~ In (job_id j) (map qi_jobId (map fst pairs)) ->
  In j (jobs (fst (commitAll settings i now pairs d))).
Proof.
  induction pairs as [|[item p] rest IH]; intros settings i now d j Hin Hout;
    cbn [commitAll]; [exact Hin|].
  cbn in Hout. apply IH; [|tauto].
  rows. apply set_job_other; [exact Hin|]. intro E. apply Hout. now left.
Qed.

Lemma commitAll_pair pairs : forall settings i now d item p j,
  NoDup (map qi_id (map fst pairs)) ->
  NoDup (map qi_jobId (map fst pairs)) ->
  In (item, p) pairs -> In item (queueItems d) ->
  In j (jobs d) -> job_id j = qi_jobId item ->
  exists t, In (assign_item (printer_id p) t item)
               (queueItems (fst (commitAll settings i now pairs d)))
            /\ In (start_job (printer_id p) t j)
                  (jobs (fst (commitAll settings i now pairs d))).
Proof.
  induction pairs as [|[item0 p0] rest IH];
    intros settings i now d item p j ND NDj Hin Hq Hj Hid; [contradiction|].
  cbn in ND, NDj. inversion ND as [|? ? Hx ND']; inversion NDj as [|? ? Hxj NDj']; subst.
  cbn [commitAll].
  set (now' := match staggers settings i with Some ms => now + ms | None => now end).
  destruct Hin as [E|Hin].
  - inversion E; subst. exists now'. split.
    + apply commitAll_queue_other; [|exact Hx].
      rows. now apply set_queueItem_hit.
    + apply commitAll_job_other; [|cbn; rewrite Hid; exact Hxj].
      rows. now apply set_job_hit.
  - apply IH; auto.
    + rows. apply set_queueItem_other; [exact Hq|].
      intro E. apply Hx. rewrite <- E.
      apply in_map. apply in_map_iff. now exists (item, p).
    + rows. apply set_job_other; [exact Hj|].
      intro E. apply Hxj. rewrite <- E, Hid.
      apply in_map. apply in_map_iff. now exists (item, p).
Qed.

Lemma commitAll_count pairs : forall settings i now d,
  NoDup (map qi_id (queueItems d)) ->
  NoDup (map qi_id (map fst pairs)) ->
  (forall item, In item (map fst pairs) ->
     In item (queueItems d) /\ qi_status item <> "assigned") ->
  count_assigned (fst (commitAll settings i now pairs d))
  = (count_assigned d + length pairs)%nat.
Proof.
  induction pairs as [|[item p] rest IH]; intros settings i now d NDq ND Hall;
    cbn [commitAll length].
  - cbn [fst]. lia.
  - cbn in ND. inversion ND as [|? ? Hx ND']; subst.
    destruct (Hall item (or_introl eq_refl)) as [Hin Hs].
    rewrite IH.
    + unfold count_assigned at 1. rows. rewrite count_set_queueItem by assumption.
      unfold count_assigned. lia.
    + rows. now rewrite set_queueItem_ids.
    + exact ND'.
    + intros item' Hin'. destruct (Hall item' (or_intror Hin')) as [Hq' Hs'].
      split; [|exact Hs']. rows. apply set_queueItem_other; [exact Hq'|].
      intro E. apply Hx. rewrite <- E. now apply in_map.
Qed.

Lemma map_fst_combine {A B} (l1 : list A) (l2 : list B) :
  map fst (combine l1 l2) = firstn (length l2) l1.
Proof.
  revert l2. induction l1 as [|a l1 IH]; intros [|b l2]; cbn; try reflexivity.
  now rewrite IH.
Qed.

Lemma In_firstn {A} n : forall (l : list A) x, In x (firstn n l) -> In x l.
Proof.
  induction n as [|n IH]; intros [|a l] x; cbn; try tauto.
  intros [->|H]; [now left|right; now apply IH].
Qed.

Lemma NoDup_firstn_map {A B} (f : A -> B) n (l : list A) :
  NoDup (map f l) -> NoDup (map f (firstn n l)).
Proof.
  revert n. induction l as [|a l IH]; intros [|n] ND; cbn; try constructor.
  - inversion ND as [|? ? Hx ND']; subst.
    intro H. apply Hx. apply in_map_iff in H. destruct H as (x & E & Hin).
    apply in_map_iff. exists x. split; [exact E|]. now apply In_firstn in Hin.
  - inversion ND; subst. now apply IH.
Qed.

Lemma NoDup_map_filter {A B} (f : A -> B) (g : A -> bool) l :
  NoDup (map f l) -> NoDup (map f (filter g l)).
Proof.
  induction l as [|a l IH]; cbn; intro ND; [constructor|].
  inversion ND as [|? ? Hx ND']; subst.
  destruct (g a); cbn; [|now apply IH].
  constructor; [|now apply IH].
  intro H. apply Hx. apply in_map_iff in H. destruct H as (x & E & Hin).
  apply filter_In in Hin. apply in_map_iff. exists x. tauto.
Qed.

Lemma NoDup_map_injective {A B} (f : A -> B) l a b :
  NoDup (map f l) -> In a l -> In b l -> f a = f b -> a = b.
Proof.
  induction l as [|x l IH]; cbn; intros ND Ha Hb E; [contradiction|].
  inversion ND as [|? ? Hx ND']; subst.
  destruct Ha as [->|Ha], Hb as [->|Hb]; auto.
  - exfalso. apply Hx. rewrite E. now apply in_map.
  - exfalso. apply Hx. rewrite <- E. now apply in_map.
Qed.

Lemma firstn_min {A} n (l : list A) : firstn n l = firstn (Nat.min n (length l)) l.
Proof.
  destruct (Nat.le_ge_cases n (length l)) as [H|H].
  - now rewrite Nat.min_l.
  - rewrite Nat.min_r by exact H. rewrite firstn_all. now apply firstn_all2.
Qed.

Lemma candidates_ids_NoDup d :
  NoDup (map qi_id (queueItems d)) -> NoDup (map qi_id (candidates d)).
Proof.
  intro ND. eapply Permutation_NoDup.
  - apply Permutation_map. symmetry. apply candidates_perm.
  - now apply NoDup_map_filter.
Qed.

Lemma candidates_jobIds_NoDup d :
  NoDup (map qi_jobId (queueItems d)) -> NoDup (map qi_jobId (candidates d)).
Proof.
  intro ND. eapply Permutation_NoDup.
  - apply Permutation_map. symmetry. apply candidates_perm.
  - now apply NoDup_map_filter.
Qed.

(** The pairs the loop walks through. *)
Lemma served_pairs d :
  combine (findQueueItems (length (idlePrinters d)) d) (idlePrinters d)
  = combine (candidates d) (idlePrinters d).
Proof. unfold findQueueItems. symmetry. apply combine_firstn_r. Qed.

Lemma matchQueue_no_fault settings w :
  faults w = [] -> schema_ok (db w) ->
  exists x w',
    matchQueue settings w = (Ret x, w')
    /\ db w' = fst (commitAll settings 0 (clock w)
                      (combine (candidates (db w)) (idlePrinters (db w))) (db w)).
Proof.
  intros F OK. unfold matchQueue, bind, query, ret.
  destruct (Nat.eqb_spec (length (idlePrinters (db w))) 0) as [E|E].
  - apply length_zero_iff_nil in E. rewrite E, combine_nil. cbn. eauto.
  - destruct (Nat.eqb_spec (length (findQueueItems (length (idlePrinters (db w))) (db w))) 0)
      as [E'|E'].
    + apply length_zero_iff_nil in E'. rewrite <- served_pairs, E'. cbn. eauto.
    + rewrite served_pairs. rewrite matchLoop_no_fault.
      * cbn. eauto.
      * exact F.
      * intros item p Hin. apply in_combine_l in Hin.
        apply candidate_in_queue in Hin. destruct Hin as [Hin _].
        split; [now apply in_map|].
        destruct (queue_job_fk _ OK _ Hin) as (j & Hj & Ej).
        rewrite <- Ej. now apply in_map.
Qed.

(** What a tick that went past the energy gate has done when no write
    threw. *)
Lemma open_tick_commits w :
  faults w = [] -> schema_ok (db w) ->
  processQueue w = try_catch (matchQueue (energySettings (db w))) (ret Caught) w ->
  let d := db w in
  let d' := db (snd (processQueue w)) in
  let served := combine (candidates d) (idlePrinters d) in
  let n := Nat.min (length (idlePrinters d)) (length (candidates d)) in
  length served = n
  /\ map fst served = firstn n (candidates d)
  /\ (forall item printer, In (item, printer) served ->
        exists t j, In j (jobs d) /\ job_id j = qi_jobId item
                    /\ In (assign_item (printer_id printer) t item) (queueItems d')
                    /\ In (start_job (printer_id printer) t j) (jobs d'))
  /\ (forall q, In q (queueItems d) -> ~ In q (firstn n (candidates d)) ->
        In q (queueItems d'))
  /\ (forall j, In j (jobs d) ->
        ~ In (job_id j) (map qi_jobId (firstn n (candidates d))) -> In j (jobs d'))
  /\ map qi_id (queueItems d') = map qi_id (queueItems d)
  /\ count_assigned d' = (count_assigned d + n)%nat.
Proof.
  intros F OK Hpass d d' served n.
  destruct (matchQueue_no_fault (energySettings (db w)) w F OK) as (x & w' & Hrun & Hdb).
  assert (Hd' : d' = fst (commitAll (energySettings d) 0 (clock w) served d)).
  { subst d'. rewrite Hpass. unfold try_catch. rewrite Hrun. exact Hdb. }
  assert (Hlen : length served = n).
  { subst served n. rewrite length_combine. apply Nat.min_comm. }
  assert (Hfst : map fst served = firstn n (candidates d)).
  { subst served n. rewrite map_fst_combine. apply firstn_min. }
  assert (Hsub : forall item, In item (map fst served) ->
                   In item (queueItems d) /\ qi_status item <> "assigned").
  { intros item Hin. rewrite Hfst in Hin. apply In_firstn in Hin.
    apply candidate_in_queue in Hin. destruct Hin as (Hin & Hs & _).
    split; [exact Hin|]. rewrite Hs. discriminate. }
  assert (NDs : NoDup (map qi_id (map fst served))).
  { rewrite Hfst. apply NoDup_firstn_map. apply candidates_ids_NoDup. apply OK. }
  assert (NDj : NoDup (map qi_jobId (map fst served))).
  { rewrite Hfst. apply NoDup_firstn_map. apply candidates_jobIds_NoDup. apply OK. }
  split; [exact Hlen|].
  split; [exact Hfst|].
  split.
  { intros item printer Hin.
    assert (Hq : In item (queueItems d)).
    { apply Hsub. apply in_map_iff. now exists (item, printer). }
    destruct (queue_job_fk _ OK _ Hq) as (j & Hj & Ej).
    destruct (commitAll_pair served (energySettings d) 0 (clock w) d item printer j
                NDs NDj Hin Hq Hj Ej) as (t & H1 & H2).
    exists t, j. rewrite Hd'. auto. }
  split.
  { intros q Hq Hout. rewrite Hd'. apply commitAll_queue_other; [exact Hq|].
    intro Hin. apply Hout. rewrite <- Hfst.
    apply in_map_iff in Hin. destruct Hin as (c & Ec & Hc).
    assert (c = q); [|now subst].
    apply (NoDup_map_injective qi_id (queueItems d)); auto.
    - apply OK.
    - now apply Hsub. }
  split.
  { intros j Hj Hout. rewrite Hd'. apply commitAll_job_other; [exact Hj|].
    now rewrite Hfst. }
  split.
  { rewrite Hd'. apply commitAll_queue_ids. }
  rewrite Hd', <- Hlen. apply commitAll_count; auto. apply OK.
Qed.

(** C7 (counterexample).  Admission allows (3 kW against a limit of 6 kW),
    the only printer's latest reading says [offline], so no device is idle
    and min(idleCount, candidateCount) is 0; the tick makes one assignment
    all the same. *)
Lemma tick_assigns_without_idle_device :
  fst (processQueue offline_open) = Ret LoopDone
  /\ latestTelemetryOf 1 (db offline_open) = Some (telemetry_of 1 1 "offline" 50)
  /\ spec_idleCount (db offline_open) = 0%nat
  /\ length (candidates (db offline_open)) = 1%nat
  /\ count_assigned (db offline_open) = 0%nat
  /\ count_assigned (db (snd (processQueue offline_open))) = 1%nat
  /\ queueItems (db (snd (processQueue offline_open)))
     = [mkQueueItem 1 1 (Some 1) 5 "assigned" 1 1000].
Proof. repeat split. Qed.

(** C7 (amended).  When no write throws, on a database that satisfies the
    keys of the schema, a tick that admission lets through commits exactly
    the pairs (k-th candidate, k-th eligible printer): there are
    [min(eligible, candidates)] of them, where the eligible printers are the
    active ones with no reading or with a latest reading [idle] or [offline];
    the candidates are the queued, printer-less entries sorted by priority
    rank and then by insertion time, the served entries are the first ones of
    that list, each served entry is rewritten to [assigned] on its printer
    and its job to [printing] on that printer, every other entry and job is
    left alone, and the number of [assigned] rows grows by exactly that
    count. *)
Theorem tick_serves_first_candidates w :
  faults w = [] -> schema_ok (db w) -> fst (processQueue w) <> Ret PeakSkip ->
  let d := db w in
  let d' := db (snd (processQueue w)) in
  let served := combine (candidates d) (idlePrinters d) in
  let n := Nat.min (length (idlePrinters d)) (length (candidates d)) in
  Permutation (candidates d) (filter is_candidate (queueItems d))
  /\ StronglySorted served_before (candidates d)
  /\ length served = n
  /\ map fst served = firstn n (candidates d)
  /\ (forall item printer, In (item, printer) served ->
        exists t j, In j (jobs d) /\ job_id j = qi_jobId item
                    /\ In (mkQueueItem (qi_id item) (qi_jobId item) (Some (printer_id printer))
                                       (qi_priority item) "assigned" (qi_createdAt item) t)
                          (queueItems d')
                    /\ In (mkJob (job_id j) (job_name j) "printing"
                                 (Some (printer_id printer)) (Some t) t)
                          (jobs d'))
  /\ (forall q, In q (queueItems d) -> ~ In q (firstn n (candidates d)) ->
        In q (queueItems d'))
  /\ (forall j, In j (jobs d) ->
        ~ In (job_id j) (map qi_jobId (firstn n (candidates d))) -> In j (jobs d'))
  /\ map qi_id (queueItems d') = map qi_id (queueItems d)
  /\ count_assigned d' = (count_assigned d + n)%nat.
Proof.
  intros F OK Hgate d d' served n.
  assert (Hpass : processQueue w = try_catch (matchQueue (energySettings d)) (ret Caught) w).
  { apply processQueue_gate_open. intros s e S L P G. apply Hgate.
    now rewrite (processQueue_gate_shut w s e S L P G). }
  split; [apply candidates_perm|].
  split; [apply candidates_sorted|].
  exact (open_tick_commits w F OK Hpass).
Qed.

Lemma calm_schema_ok : schema_ok (db calm).
Proof.
  constructor; cbn.
  - repeat constructor; cbn; intuition discriminate.
  - repeat constructor; cbn; intuition discriminate.
  - intros q [<-|[<-|[]]]; eexists;
      [split; [left; reflexivity|reflexivity]
      |split; [right; left; reflexivity|reflexivity]].
Qed.

Lemma tick_serves_first_candidates_witness :
  count_assigned (db (snd (processQueue calm))) = (count_assigned (db calm) + 1)%nat
  /\ exists t j,
       In j (jobs (db calm)) /\ job_id j = 2
       /\ In (mkQueueItem 2 2 (Some 1) 1 "assigned" 2 t) (queueItems (db (snd (processQueue calm))))
       /\ In (mkJob (job_id j) (job_name j) "printing" (Some 1) (Some t) t)
             (jobs (db (snd (processQueue calm)))).
Proof.
  assert (Hgate : fst (processQueue calm) <> Ret PeakSkip) by (vm_compute; discriminate).
  destruct (tick_serves_first_candidates calm eq_refl calm_schema_ok Hgate)
    as (_ & _ & _ & _ & Hpair & _ & _ & _ & Hcount).
  split; [exact Hcount|].
  exact (Hpair (mkQueueItem 2 2 None 1 "queued" 2 2) printerA (or_introl eq_refl)).
Defined.

(** Printer A idle, printer B printing, queue [P=5, t=1] and [P=1, t=2]: one
    tick gives the [P=1] entry to printer A and leaves the other queued. *)
Example lower_rank_is_served_first :
  fst (processQueue calm) = Ret LoopDone
  /\ queueItems (db (snd (processQueue calm)))
     = [mkQueueItem 1 1 None 5 "queued" 1 1; mkQueueItem 2 2 (Some 1) 1 "assigned" 2 1000]
  /\ jobs (db (snd (processQueue calm)))
     = [mkJob 1 "bracket" "queued" None None 0;
        mkJob 2 "gear" "printing" (Some 1) (Some 1000) 1000].
Proof. repeat split. Qed.

(** ** The matching loop under arbitrary storage faults *)

Lemma write_result {A} (f : Z -> Db -> option (A * Db)) w :
  exists r w',
    write f w = (r, w') /\ clock w' = clock w /\ emitted w' = emitted w
    /\ match r with
       | Ret a => f (clock w) (db w) = Some (a, db w')
       | Throw => db w' = db w
       end.
Proof.
  unfold write. destruct (faults w) as [|[|] rest].
  - destruct (f (clock w) (db w)) as [[a d]|] eqn:E; eexists; eexists; cbn; eauto.
  - eexists; eexists; cbn; eauto.
  - destruct (f (clock w) (db w)) as [[a d]|] eqn:E; eexists; eexists; cbn; eauto.
Qed.

Lemma queueItem_update_result id pid w :
  exists r w',
    queueItem_update id pid w = (r, w') /\ clock w' = clock w
    /\ jobs (db w') = jobs (db w)
    /\ (queueItems (db w') = queueItems (db w)
        \/ queueItems (db w') = set_queueItem id pid (clock w) (queueItems (db w))).
Proof.
  unfold queueItem_update.
  destruct (write_result
              (fun now d =>
                 match findQueueItem id d with
                 | Some q => Some (assign_item pid now q,
                                   with_queueItems (set_queueItem id pid now (queueItems d)) d)
                 | None => None
                 end) w) as (r & w' & E & C & _ & H).
  exists r, w'. split; [exact E|]. split; [exact C|].
  destruct r as [a|].
  - destruct (findQueueItem id (db w)); [|discriminate].
    injection H as Ha Hd. rewrite <- Hd. cbn [jobs queueItems with_queueItems]. auto.
  - rewrite H. auto.
Qed.

Lemma job_update_result id pid w :
  exists r w',
    job_update id pid w = (r, w') /\ queueItems (db w') = queueItems (db w).
Proof.
  unfold job_update.
  destruct (write_result
              (fun now d =>
                 match findJob id d with
                 | Some j => Some (start_job pid now j,
                                   with_jobs (set_job id pid now (jobs d)) d)
                 | None => None
                 end) w) as (r & w' & E & _ & _ & H).
  exists r, w'. split; [exact E|].
  destruct r as [a|].
  - destruct (findJob id (db w)); [|discriminate].
    injection H as Ha Hd. rewrite <- Hd. reflexivity.
  - now rewrite H.
Qed.

(** Every QueueItem row after the loop is a row from before it, or a row the
    loop assigned to the printer of one of its pairs. *)
Lemma matchLoop_rows pairs : forall settings i w q',
  In q' (queueItems (db (snd (matchLoop settings i pairs w)))) ->
  In q' (queueItems (db w))
  \/ exists item p t q, In (item, p) pairs /\ q' = assign_item (printer_id p) t q.
Proof.
  induction pairs as [|[item p] rest IH]; intros settings i w q' Hin.
  - left. exact Hin.
  - cbn [matchLoop] in Hin.
    rewrite (bind_Ret _ _ _ _ _ (stagger_step settings i w)) in Hin.
    set (w1 := mkWorld _ _ _ _) in Hin.
    destruct (queueItem_update_result (qi_id item) (printer_id p) w1)
      as (r & w2 & E & _ & _ & Hq).
    assert (Hstep : In q' (queueItems (db w2)) ->
                    In q' (queueItems (db w))
                    \/ exists item0 p0 t q, In (item0, p0) ((item, p) :: rest)
                                            /\ q' = assign_item (printer_id p0) t q).
    { intro H. destruct Hq as [Hq|Hq]; rewrite Hq in H.
      - left. exact H.
      - apply set_queueItem_rows in H. destruct H as [H|(q & Hq' & _ & ->)].
        + left. exact H.
        + right. exists item, p, (clock w1), q. split; [now left|reflexivity]. }
    destruct r as [a|].
    + rewrite (bind_Ret _ _ _ _ _ E) in Hin.
      destruct (job_update_result (qi_jobId item) (printer_id p) w2) as (r' & w3 & E' & Hj).
      destruct r' as [b|].
      * rewrite (bind_Ret _ _ _ _ _ E') in Hin.
        apply IH in Hin. destruct Hin as [Hin|(item0 & p0 & t & q & Hp & ->)].
        -- rewrite Hj in Hin. now apply Hstep.
        -- right. exists item0, p0, t, q. split; [now right|reflexivity].
      * rewrite (bind_Throw _ _ _ _ E') in Hin. cbn in Hin.
        rewrite Hj in Hin. now apply Hstep.
    + rewrite (bind_Throw _ _ _ _ E) in Hin. cbn in Hin. now apply Hstep.
Qed.

Lemma matchQueue_rows settings w q' :
  In q' (queueItems (db (snd (matchQueue settings w)))) ->
  In q' (queueItems (db w))
  \/ exists item p t q,
       In (item, p) (combine (candidates (db w)) (idlePrinters (db w)))
       /\ q' = assign_item (printer_id p) t q.
Proof.
  unfold matchQueue, bind, query, ret.
  destruct (length (idlePrinters (db w)) =? 0)%nat; cbn; [tauto|].
  destruct (length (findQueueItems _ _) =? 0)%nat; cbn; [tauto|].
  rewrite served_pairs.
  destruct (matchLoop settings 0 _ w) as [[[]|] w'] eqn:E; cbn; intro H;
    apply (matchLoop_rows _ settings 0%nat w q'); now rewrite E.
Qed.

Lemma processQueue_cases w :
  processQueue w = (Ret PeakSkip, w)
  \/ processQueue w = try_catch (matchQueue (energySettings (db w))) (ret Caught) w.
Proof.
  destruct (energySettings (db w)) as [s|] eqn:S.
  2:{ right. rewrite <- S. apply processQueue_gate_open. intros; congruence. }
  destruct (latestEnergyReading (db w)) as [e|] eqn:L.
  2:{ right. rewrite <- S. apply processQueue_gate_open. intros; congruence. }
  destruct (peakProtection s) eqn:P.
  2:{ right. rewrite <- S. apply processQueue_gate_open. intros; congruence. }
  destruct (over_threshold_dec s e) as [G|G].
  - left. now apply (processQueue_gate_shut w s e).
  - right. rewrite <- S. apply processQueue_gate_open.
    intros s' e' S' L' _ G'. apply G. congruence.
Qed.

Lemma try_catch_ret_db {A} (m : M A) (a : A) w :
  db (snd (try_catch m (ret a) w)) = db (snd (m w)).
Proof. unfold try_catch, ret. now destruct (m w) as [[x|] w']. Qed.

(** C4 (counterexample).  The only printer's latest reading says [offline];
    the tick pairs it with the queued entry all the same. *)
Lemma offline_printer_is_paired :
  latestTelemetryOf 1 (db offline_world) = Some (telemetry_of 1 1 "offline" 50)
  /\ fst (processQueue offline_world) = Ret LoopDone
  /\ queueItems (db (snd (processQueue offline_world)))
     = [mkQueueItem 1 1 (Some 1) 5 "assigned" 1 1000].
Proof. repeat split. Qed.

(** C4 (amended).  The printers a tick may give work to are exactly the
    active printers that have no reading at all or whose latest reading says
    [idle] or [offline]; whatever row of the queue a tick rewrites, it
    rewrites to [assigned] on one of those printers, so a printer whose latest
    reading says anything else (printing, paused, error, maintenance, ...) is
    never paired. *)
Theorem tick_pairs_only_eligible_printers w :
  (forall p,
     In p (idlePrinters (db w)) <->
     In p (printers (db w)) /\ isActive p = true
     /\ (latestTelemetryOf (printer_id p) (db w) = None
         \/ exists t, latestTelemetryOf (printer_id p) (db w) = Some t
                      /\ (pt_status t = "idle" \/ pt_status t = "offline")))
  /\ (forall q',
        In q' (queueItems (db (snd (processQueue w)))) ->
        ~ In q' (queueItems (db w)) ->
        exists p, In p (idlePrinters (db w))
                  /\ qi_printerId q' = Some (printer_id p)
                  /\ qi_status q' = "assigned").
Proof.
  split.
  - intro p. unfold idlePrinters, activePrinters. rewrite !filter_In.
    unfold counts_as_idle.
    destruct (latestTelemetryOf (printer_id p) (db w)) as [t|].
    + rewrite orb_true_iff, !String.eqb_eq. split.
      * intros [[H1 H2] H3]. repeat split; auto. right. now exists t.
      * intros (H1 & H2 & [H3|(t' & E & H3)]); [discriminate|].
        inversion E; subst. auto.
    + split; [intros [[H1 H2] _]; auto | intros (H1 & H2 & _); auto].
  - intros q' Hin Hnew.
    destruct (processQueue_cases w) as [E|E]; rewrite E in Hin.
    + contradiction.
    + rewrite try_catch_ret_db in Hin. apply matchQueue_rows in Hin.
      destruct Hin as [Hin|(item & p & t & q & Hp & ->)]; [contradiction|].
      exists p. split; [|split; reflexivity].
      now apply in_combine_r in Hp.
Qed.

Lemma tick_pairs_only_eligible_printers_witness :
  exists p, In p (idlePrinters (db calm))
            /\ Some 1 = Some (printer_id p).
Proof.
  destruct (proj2 (tick_pairs_only_eligible_printers calm)
              (mkQueueItem 2 2 (Some 1) 1 "assigned" 2 1000)) as (p & Hp & Hid & _).
  - vm_compute. auto.
  - vm_compute. intros [H|[H|[]]]; discriminate.
  - exists p. split; [exact Hp | exact Hid].
Defined.

(** C3.  One idle printer, two queued entries, and the second storage write
    of the tick (the [job.update]) throws: the tick ends in its [catch]
    branch with entry 2 already [assigned] to printer 1 while job 2 is still
    [queued] with no printer.  The manual route tears the same way. *)
Theorem two_step_commit_can_tear :
  (fst (processQueue calm_second_write_fails) = Ret Caught
   /\ In (mkQueueItem 2 2 (Some 1) 1 "assigned" 2 1000)
         (queueItems (db (snd (processQueue calm_second_write_fails))))
   /\ In (mkJob 2 "gear" "queued" None None 0)
         (jobs (db (snd (processQueue calm_second_write_fails)))))
  /\
  (fst (assign 7 2 1 calm_second_write_fails) = Ret Failed500
   /\ In (mkQueueItem 2 2 (Some 1) 1 "assigned" 2 1000)
         (queueItems (db (snd (assign 7 2 1 calm_second_write_fails))))
   /\ In (mkJob 2 "gear" "queued" None None 0)
         (jobs (db (snd (assign 7 2 1 calm_second_write_fails))))).
Proof. vm_compute. intuition. Qed.

(** ** Manual assignment *)

Lemma assignCommit_busy u qid pid w p :
  findPrinter pid (db w) = Some p ->
  is_printing (latestTelemetryOf pid (db w)) = true ->
  assignCommit u qid pid w = (Ret PrinterBusy409, w).
Proof.
  intros Hp Hb. unfold assignCommit, bind, query, ret. cbn. now rewrite Hp, Hb.
Qed.

Lemma assignCommit_not_busy u qid pid w :
  is_printing (latestTelemetryOf pid (db w)) = false ->
  fst (assignCommit u qid pid w) <> Ret PrinterBusy409.
Proof.
  intros Hb. unfold assignCommit, bind, query, ret. cbn.
  destruct (findPrinter pid (db w)); cbn; [|discriminate].
  rewrite Hb.
  destruct (queueItem_update qid pid w) as [[x|] w1]; cbn; [|discriminate].
  destruct (job_update _ _ w1) as [[y|] w2]; cbn; [|discriminate].
  destruct (auditLog_create _ _ _ _ _ w2) as [[z|] w3]; cbn; discriminate.
Qed.

Lemma try_catch_Ret {A} (m h : M A) w a w' :
  m w = (Ret a, w') -> try_catch m h w = (Ret a, w').
Proof. unfold try_catch. now intros ->. Qed.

Lemma assignCommit_no_fault u qid pid w p q j :
  faults w = [] ->
  findPrinter pid (db w) = Some p ->
  is_printing (latestTelemetryOf pid (db w)) = false ->
  NoDup (map qi_id (queueItems (db w))) ->
  In q (queueItems (db w)) -> qi_id q = qid ->
  In j (jobs (db w)) -> job_id j = qi_jobId q ->
  assignCommit u qid pid w
  = (Ret (Json200 (assign_item pid (clock w) q)),
     mkWorld (manual_commit u qid pid (clock w) (db w)) (clock w)
             (emitted w ++ [MsgQueueUpdated qid]) []).
Proof.
  intros F Hp Hb ND Hq Hid Hj Hjid.
  pose proof (findQueueItem_unique qid (db w) q ND Hq Hid) as Hfind.
  unfold assignCommit.
  unfold bind at 1. unfold query at 1. rewrite Hp.
  unfold bind at 1. unfold query at 1. rewrite Hb.
  assert (E1 : queueItem_update qid pid w
               = (Ret (assign_item pid (clock w) q),
                  set_db (with_queueItems (set_queueItem qid pid (clock w) (queueItems (db w)))
                                          (db w)) w)).
  { unfold queueItem_update. apply write_no_fault; [exact F|]. now rewrite Hfind. }
  rewrite (bind_Ret _ _ _ _ _ E1).
  set (w1 := set_db _ w).
  assert (Hj1 : In (qi_jobId q) (map job_id (jobs (db w1)))).
  { subst w1. cbn [db set_db jobs with_queueItems]. rewrite <- Hjid. now apply in_map. }
  destruct (job_update_no_fault (qi_jobId q) pid w1 F Hj1) as [j' E2].
  change (qi_jobId (assign_item pid (clock w) q)) with (qi_jobId q).
  rewrite (bind_Ret _ _ _ _ _ E2).
  set (w2 := set_db _ w1).
  assert (E3 : auditLog_create u "JOB_ASSIGNED" "QueueItem" qid pid w2
               = (Ret tt,
                  set_db (with_auditLogs
                            (auditLogs (db w2)
                             ++ [mkAuditLog u "JOB_ASSIGNED" "QueueItem" qid pid (clock w2)])
                            (db w2)) w2)).
  { unfold auditLog_create. now apply write_no_fault. }
  rewrite (bind_Ret _ _ _ _ _ E3).
  unfold bind, emit, ret. cbn [fst snd].
  change (qi_id (assign_item pid (clock w) q)) with (qi_id q). rewrite Hid.
  f_equal. subst w2 w1. unfold manual_commit. rewrite Hfind.
  destruct w as [d c em fl]. cbn in F. subst fl. reflexivity.
Qed.

(** C8 (counterexample).  The target printer's latest reading says
    [offline]; the manual route answers 200 and commits. *)
Lemma manual_assign_accepts_offline_printer :
  latestTelemetryOf 1 (db offline_world) = Some (telemetry_of 1 1 "offline" 50)
  /\ fst (assign 7 1 1 offline_world)
     = Ret (Json200 (mkQueueItem 1 1 (Some 1) 5 "assigned" 1 1000))
  /\ queueItems (db (snd (assign 7 1 1 offline_world)))
     = [mkQueueItem 1 1 (Some 1) 5 "assigned" 1 1000]
  /\ jobs (db (snd (assign 7 1 1 offline_world)))
     = [mkJob 1 "bracket" "printing" (Some 1) (Some 1000) 1000].
Proof. repeat split. Qed.

(** C8 (amended).  Past the energy check and for an existing printer: if the
    printer's latest reading says [printing] the route answers "printer
    busy" and the world is exactly as before; if the printer has no reading,
    or its latest reading says [idle] or [offline], the busy check lets the
    request through. *)
Theorem manual_assign_busy_check w userId queueItemId printerId p :
  admission_open (db w) ->
  findPrinter printerId (db w) = Some p ->
  (forall t, latestTelemetryOf printerId (db w) = Some t -> pt_status t = "printing" ->
     assign userId queueItemId printerId w = (Ret PrinterBusy409, w))
  /\ (latestTelemetryOf printerId (db w) = None
      \/ (exists t, latestTelemetryOf printerId (db w) = Some t
                    /\ (pt_status t = "idle" \/ pt_status t = "offline")) ->
      fst (assign userId queueItemId printerId w) <> Ret PrinterBusy409).
Proof.
  intros Hopen Hp. rewrite (assign_gate_open _ _ _ w Hopen). split.
  - intros t Ht Hs. apply try_catch_Ret. apply (assignCommit_busy _ _ _ _ p Hp).
    rewrite Ht. cbn. rewrite Hs. reflexivity.
  - intros H.
    assert (Hb : is_printing (latestTelemetryOf printerId (db w)) = false).
    { destruct H as [->|(t & -> & [Hs|Hs])]; cbn; [reflexivity| |]; now rewrite Hs. }
    unfold try_catch. pose proof (assignCommit_not_busy userId queueItemId printerId w Hb) as N.
    destruct (assignCommit userId queueItemId printerId w) as [[x|] w']; cbn in *;
      [exact N|discriminate].
Qed.

Lemma manual_assign_busy_check_witness :
  assign 7 1 2 calm = (Ret PrinterBusy409, calm).
Proof.
  assert (Hopen : admission_open (db calm)).
  { intros s e S L _ G. vm_compute in S, L. injection S as <-. injection L as <-.
    vm_compute in G. discriminate. }
  destruct (manual_assign_busy_check calm 7 1 2 printerB Hopen eq_refl) as [H _].
  apply (H (telemetry_of 2 2 "printing" 50)); reflexivity.
Defined.

(** C6 (counterexample).  Entry 1 is already [assigned] to printer 1; a
    manual assign of it to printer 2 answers 200 and moves both the entry and
    its job to printer 2. *)
Lemma assigned_entry_is_assigned_again :
  queueItems (db assigned_world) = [mkQueueItem 1 1 (Some 1) 5 "assigned" 1 500]
  /\ fst (assign 7 1 2 assigned_world)
     = Ret (Json200 (mkQueueItem 1 1 (Some 2) 5 "assigned" 1 1000))
  /\ queueItems (db (snd (assign 7 1 2 assigned_world)))
     = [mkQueueItem 1 1 (Some 2) 5 "assigned" 1 1000]
  /\ jobs (db (snd (assign 7 1 2 assigned_world)))
     = [mkJob 1 "bracket" "printing" (Some 2) (Some 1000) 1000].
Proof. repeat split. Qed.

(** C6 (amended).  The route never looks at the entry's own status or
    printer.  When no write throws, the energy check passes, the requested
    printer exists and its latest reading is not [printing], any existing
    entry -- queued or already assigned -- is rewritten to [assigned] on the
    requested printer and its job to [printing] on that printer with a fresh
    start time; the answer is 200 with the rewritten entry, every other entry
    stays as it was and the printers are not touched. *)
Theorem manual_assign_rewrites_any_entry w userId queueItemId printerId p q j :
  faults w = [] ->
  admission_open (db w) ->
  findPrinter printerId (db w) = Some p ->
  is_printing (latestTelemetryOf printerId (db w)) = false ->
  NoDup (map qi_id (queueItems (db w))) ->
  In q (queueItems (db w)) -> qi_id q = queueItemId ->
  In j (jobs (db w)) -> job_id j = qi_jobId q ->
  let after := snd (assign userId queueItemId printerId w) in
  fst (assign userId queueItemId printerId w)
  = Ret (Json200 (assign_item printerId (clock w) q))
  /\ In (assign_item printerId (clock w) q) (queueItems (db after))
  /\ In (start_job printerId (clock w) j) (jobs (db after))
  /\ (forall q0, In q0 (queueItems (db w)) -> qi_id q0 <> queueItemId ->
        In q0 (queueItems (db after)))
  /\ printers (db after) = printers (db w)
  /\ telemetry (db after) = telemetry (db w).
Proof.
  intros F Hopen Hp Hb ND Hq Hid Hj Hjid after. subst after.
  rewrite (assign_gate_open _ _ _ w Hopen).
  rewrite (try_catch_Ret _ _ _ _ _
             (assignCommit_no_fault userId queueItemId printerId w p q j
                F Hp Hb ND Hq Hid Hj Hjid)).
  cbn [fst snd db]. unfold manual_commit.
  cbn [queueItems jobs printers telemetry with_auditLogs with_jobs with_queueItems].
  rewrite (findQueueItem_unique queueItemId (db w) q ND Hq Hid).
  split; [reflexivity|].
  split; [now apply set_queueItem_hit|].
  split; [now apply set_job_hit|].
  split; [|split; reflexivity].
  intros q0 H0 Hne. now apply set_queueItem_other.
Qed.

Lemma manual_assign_rewrites_any_entry_witness :
  fst (assign 7 1 2 assigned_world)
  = Ret (Json200 (assign_item 2 1000 (mkQueueItem 1 1 (Some 1) 5 "assigned" 1 500))).
Proof.
  assert (Hopen : admission_open (db assigned_world)).
  { intros s e S L _ G. vm_compute in S, L. injection S as <-. injection L as <-.
    vm_compute in G. discriminate. }
  refine (proj1 (manual_assign_rewrites_any_entry assigned_world 7 1 2 printerB
                   (mkQueueItem 1 1 (Some 1) 5 "assigned" 1 500)
                   (mkJob 1 "bracket" "printing" (Some 1) (Some 500) 500)
                   eq_refl Hopen eq_refl eq_refl _ _ eq_refl _ eq_refl)).
  - repeat constructor. cbn. tauto.
  - left. reflexivity.
  - left. reflexivity.
Defined.

(** ** No energy reading yet *)

Lemma backlog_schema_ok : schema_ok (db backlog).
Proof.
  constructor; cbn.
  - repeat constructor; cbn; intuition discriminate.
  - repeat constructor; cbn; intuition discriminate.
  - intros q [<-|[<-|[]]]; eexists;
      [split; [left; reflexivity|reflexivity]
      |split; [right; left; reflexivity|reflexivity]].
Qed.

(** C10.  With an empty energy-reading history neither path applies the
    threshold, whatever the settings say: the tick never leaves through the
    peak-protection exit and the manual route never answers with the
    peak-protection conflict, also with peak protection on.  Both go on to
    commit: when no write throws, the tick assigns the first
    [min(eligible, candidates)] candidates, each to its printer, with its job
    set to [printing]; and a manual assign of an existing entry to an
    existing printer whose latest reading is not [printing] answers 200 and
    rewrites the entry and its job. *)
Theorem no_reading_no_gate w userId queueItemId printerId :
  energyReadings (db w) = [] ->
  let d := db w in
  (fst (processQueue w) <> Ret PeakSkip
   /\ forall c m, fst (assign userId queueItemId printerId w) <> Ret (PeakProtection409 c m))
  /\ (faults w = [] -> schema_ok d ->
      let d' := db (snd (processQueue w)) in
      count_assigned d'
      = (count_assigned d + Nat.min (length (idlePrinters d)) (length (candidates d)))%nat
      /\ forall item printer,
           In (item, printer) (combine (candidates d) (idlePrinters d)) ->
           exists t j,
             In j (jobs d) /\ job_id j = qi_jobId item
             /\ In (mkQueueItem (qi_id item) (qi_jobId item) (Some (printer_id printer))
                                (qi_priority item) "assigned" (qi_createdAt item) t)
                   (queueItems d')
             /\ In (mkJob (job_id j) (job_name j) "printing"
                          (Some (printer_id printer)) (Some t) t)
                   (jobs d'))
  /\ (faults w = [] -> NoDup (map qi_id (queueItems d)) ->
      forall p q j,
        findPrinter printerId d = Some p ->
        is_printing (latestTelemetryOf printerId d) = false ->
        In q (queueItems d) -> qi_id q = queueItemId ->
        In j (jobs d) -> job_id j = qi_jobId q ->
        let after := snd (assign userId queueItemId printerId w) in
        fst (assign userId queueItemId printerId w)
        = Ret (Json200 (mkQueueItem (qi_id q) (qi_jobId q) (Some printerId) (qi_priority q)
                                    "assigned" (qi_createdAt q) (clock w)))
        /\ In (mkQueueItem (qi_id q) (qi_jobId q) (Some printerId) (qi_priority q)
                           "assigned" (qi_createdAt q) (clock w))
              (queueItems (db after))
        /\ In (mkJob (job_id j) (job_name j) "printing" (Some printerId) (Some (clock w))
                     (clock w))
              (jobs (db after))).
Proof.
  intros E d.
  assert (L : latestEnergyReading (db w) = None)
    by (unfold latestEnergyReading; now rewrite E).
  assert (open : forall s e, energySettings (db w) = Some s ->
                   latestEnergyReading (db w) = Some e ->
                   peakProtection s = true -> ~ over_threshold s e)
    by (intros; congruence).
  pose proof (processQueue_gate_open w open) as Htick.
  pose proof (assign_gate_open userId queueItemId printerId w open) as Hassign.
  split; [split|split].
  - rewrite Htick. apply caught_tick_never_PeakSkip.
  - intros c m. rewrite Hassign. apply caught_assign_never_peak.
  - intros F OK d'.
    destruct (open_tick_commits w F OK Htick) as (_ & _ & Hpair & _ & _ & _ & Hcount).
    split; [exact Hcount|exact Hpair].
  - intros F ND p q j Hp Hb Hq Hid Hj Hjid after. subst after.
    rewrite Hassign.
    rewrite (try_catch_Ret _ _ _ _ _
               (assignCommit_no_fault userId queueItemId printerId w p q j
                  F Hp Hb ND Hq Hid Hj Hjid)).
    cbn [fst snd db]. unfold manual_commit.
    cbn [queueItems jobs with_auditLogs with_jobs with_queueItems].
    rewrite (findQueueItem_unique queueItemId (db w) q ND Hq Hid).
    split; [reflexivity|].
    split; [now apply (set_queueItem_hit queueItemId printerId (clock w))|].
    now apply (set_job_hit (qi_jobId q) printerId (clock w)).
Qed.

Lemma no_reading_no_gate_witness :
  peakProtection settings6 = true
  /\ energySettings (db backlog) = Some settings6
  /\ count_assigned (db backlog) = 0%nat
  /\ count_assigned (db (snd (processQueue backlog))) = 1%nat
  /\ fst (assign 7 2 1 backlog)
     = Ret (Json200 (mkQueueItem 2 2 (Some 1) 10 "assigned" 2 1000))
  /\ In (mkJob 2 "gear" "printing" (Some 1) (Some 1000) 1000)
        (jobs (db (snd (assign 7 2 1 backlog)))).
Proof.
  destruct (no_reading_no_gate backlog 7 2 1 eq_refl) as (_ & Htick & Hassign).
  split; [reflexivity|]. split; [reflexivity|]. split; [reflexivity|].
  split.
  - exact (proj1 (Htick eq_refl backlog_schema_ok)).
  - assert (ND : NoDup (map qi_id (queueItems (db backlog))))
      by (repeat constructor; cbn; intuition discriminate).
    destruct (Hassign eq_refl ND printerA (mkQueueItem 2 2 None 10 "queued" 2 2)
                (mkJob 2 "gear" "queued" None None 0) eq_refl eq_refl
                (or_intror (or_introl eq_refl)) eq_refl
                (or_intror (or_introl eq_refl)) eq_refl) as (H1 & _ & H3).
    split; [exact H1|exact H3].
Defined.

(** ** Telemetry polls *)

Lemma write_always_no_fault {A} (a : A) (g : Z -> Db -> Db) w :
  faults w = [] ->
  write (fun now d => Some (a, g now d)) w = (Ret a, set_db (g (clock w) (db w)) w).
Proof. intro F. now apply write_no_fault. Qed.

Lemma mapKlipperStatus_text state :
  match state with Some key => inherited_key key | None => false end = false ->
  exists status,
    mapKlipperStatus state = StatusText status
    /\ In status ["printing"; "paused"; "idle"; "error"; "offline"].
Proof.
  destruct state as [key|]; cbn [mapKlipperStatus]; intro H.
  - repeat match goal with
    | |- context [if (key =? ?k)%string then _ else _] => destruct (key =? k)%string
    end; try rewrite H; eexists; (split; [reflexivity|]); cbn; tauto.
  - eexists. split; [reflexivity|]. cbn. tauto.
Qed.

Lemma mapKlipperStatus_member key :
  inherited_key key = true -> mapKlipperStatus (Some key) = PrototypeMember key.
Proof.
  intro H. cbn [mapKlipperStatus].
  repeat match goal with
  | |- context [if (key =? ?k)%string then _ else _] =>
      destruct (String.eqb_spec key k) as [->|_]; [vm_compute in H; discriminate|]
  end.
  now rewrite H.
Qed.

Lemma pollPrinter_text printer response :
  names_prototype_member response = false ->
  exists status,
    pd_status (pollPrinter printer response) = StatusText status
    /\ In status ["printing"; "paused"; "idle"; "error"; "offline"].
Proof.
  destruct response as [data|]; cbn [names_prototype_member pollPrinter pd_status]; intro H.
  - now apply mapKlipperStatus_text.
  - eexists. split; [reflexivity|]. cbn. tauto.
Qed.

Lemma pollPrinter_member printer response :
  names_prototype_member response = true ->
  exists key, pd_status (pollPrinter printer response) = PrototypeMember key.
Proof.
  destruct response as [data|]; cbn [names_prototype_member pollPrinter pd_status];
    [|discriminate].
  destruct (ks_state data) as [key|]; [|discriminate].
  intro H. exists key. now apply mapKlipperStatus_member.
Qed.

Lemma telemetry_create_no_fault data status w :
  faults w = [] -> pd_status data = StatusText status ->
  telemetry_create data w
  = (Ret tt,
     set_db (with_telemetry
               (telemetry (db w) ++ [telemetry_row (telemetrySeq (db w) + 1) (clock w) data status])
               (telemetrySeq (db w) + 1) (db w)) w).
Proof.
  intros F Hs. unfold telemetry_create. rewrite Hs.
  now rewrite (write_always_no_fault _ _ w F).
Qed.

Lemma pollOne_no_fault io printer response w :
  faults w = [] -> names_prototype_member response = false ->
  exists w',
    pollOne io printer response w = (Ret tt, w')
    /\ faults w' = [] /\ clock w' = clock w
    /\ printers (db w') = printers (db w)
    /\ printerEvents (db w')
       = (printerEvents (db w)
          ++ if over_limit printer response
             then [thermal_event printer response (clock w)] else [])%list.
Proof.
  intros F Hm. unfold pollOne.
  destruct (pollPrinter_text printer response Hm) as (status & Hs & _).
  rewrite (bind_Ret _ _ _ _ _ (telemetry_create_no_fault _ status w F Hs)).
  set (w1 := set_db _ w).
  assert (F1 : faults w1 = []) by exact F.
  assert (Hemit : exists w2,
            (if io
             then emit (MsgTelemetry (printer_id printer) false) ;;
                  emit (MsgTelemetry (printer_id printer) true)
             else ret tt)%client w1 = (Ret tt, w2)
            /\ faults w2 = [] /\ clock w2 = clock w /\ printers (db w2) = printers (db w)
            /\ printerEvents (db w2) = printerEvents (db w)).
  { destruct io; eexists; (split; [reflexivity|]); cbn; auto. }
  destruct Hemit as (w2 & E2 & F2 & C2 & P2 & V2).
  rewrite (bind_Ret _ _ _ _ _ E2).
  assert (Hev : exists w3,
            (if negb (Qle_bool (pd_extruderTemp (pollPrinter printer response))
                               (maxTempExtruder printer))
             then printerEvent_create (printer_id printer) "CRITICAL" "THERMAL_RUNAWAY"
                    (pd_extruderTemp (pollPrinter printer response))
                    (maxTempExtruder printer) ;;
                  (if io then emit (MsgPrinterEvent (printer_id printer)) else ret tt)
             else ret tt)%client w2 = (Ret tt, w3)
            /\ faults w3 = [] /\ clock w3 = clock w /\ printers (db w3) = printers (db w)
            /\ printerEvents (db w3)
               = (printerEvents (db w)
                  ++ if over_limit printer response
                     then [thermal_event printer response (clock w)] else [])%list).
  { unfold over_limit.
    destruct (negb (Qle_bool _ _)).
    - unfold printerEvent_create.
      rewrite (bind_Ret _ _ _ _ _ (write_always_no_fault _ _ w2 F2)).
      unfold thermal_event. rewrite <- C2, <- V2.
      destruct io; eexists; (split; [reflexivity|]); cbn; auto.
    - exists w2. rewrite app_nil_r. auto. }
  destruct Hev as (w3 & E3 & F3 & C3 & P3 & V3).
  rewrite (bind_Ret _ _ _ _ _ E3).
  unfold bind at 1. unfold query at 1.
  destruct (500 <? telemetryCount (printer_id printer) (db w3))%nat.
  - unfold bind at 1. unfold query at 1. unfold telemetry_deleteMany.
    rewrite (write_always_no_fault _ _ w3 F3).
    eexists. split; [reflexivity|]. cbn. auto.
  - exists w3. auto.
Qed.

Lemma events_of_app pid d d' extra :
  printerEvents d' = (printerEvents d ++ extra)%list ->
  events_of pid d'
  = (events_of pid d + length (filter (fun e => (pe_printerId e =? pid)%Z) extra))%nat.
Proof. intro E. unfold events_of. now rewrite E, filter_app, length_app. Qed.

Lemma pollLoop_no_fault io network ps : forall w pid,
  faults w = [] ->
  (forall q, In q ps -> names_prototype_member (network q) = false) ->
  exists w',
    pollLoop io network ps w = (Ret tt, w')
    /\ faults w' = [] /\ printers (db w') = printers (db w)
    /\ events_of pid (db w')
       = (events_of pid (db w)
          + length (filter (fun q => (printer_id q =? pid)%Z && over_limit q (network q)) ps))%nat.
Proof.
  induction ps as [|printer rest IH]; intros w pid F Hm.
  - exists w. cbn. repeat split; auto.
  - cbn [pollLoop].
    destruct (pollOne_no_fault io printer (network printer) w F (Hm _ (or_introl eq_refl)))
      as (w1 & E1 & F1 & _ & P1 & V1).
    rewrite (bind_Ret _ _ _ _ _ E1).
    destruct (IH w1 pid F1 (fun q Hq => Hm q (or_intror Hq))) as (w2 & E2 & F2 & P2 & V2).
    exists w2. split; [exact E2|]. split; [exact F2|]. split; [congruence|].
    rewrite V2, (events_of_app pid _ _ _ V1). cbn [filter].
    destruct (Z.eqb_spec (printer_id printer) pid) as [Eid|Eid];
      destruct (over_limit printer (network printer)); cbn;
      try rewrite Eid; try rewrite Z.eqb_refl; cbn; try lia.
    destruct (Z.eqb_spec (printer_id printer) pid); [contradiction|cbn; lia].
Qed.

Lemma count_one_printer (f : Printer -> bool) l p :
  NoDup (map printer_id l) -> In p l ->
  length (filter (fun q => (printer_id q =? printer_id p) && f q) l)
  = if f p then 1%nat else 0%nat.
Proof.
  induction l as [|x l IH]; cbn; intros ND Hin; [contradiction|].
  inversion ND as [|? ? Hx ND']; subst.
  assert (Hnone : ~ In (printer_id x) (map printer_id l) ->
                  length (filter (fun q => (printer_id q =? printer_id x) && f q) l) = 0%nat).
  { clear. induction l as [|y l IH]; cbn; intro H; [reflexivity|].
    destruct (Z.eqb_spec (printer_id y) (printer_id x)); [tauto|]. cbn. apply IH. tauto. }
  destruct Hin as [->|Hin].
  - rewrite Z.eqb_refl. cbn. destruct (f p); cbn; now rewrite Hnone.
  - destruct (Z.eqb_spec (printer_id x) (printer_id p)) as [E|E].
    + exfalso. apply Hx. rewrite E. now apply in_map.
    + cbn. now apply IH.
Qed.

Lemma runPoll_no_fault io network w p :
  faults w = [] ->
  (forall q, In q (printers (db w)) -> names_prototype_member (network q) = false) ->
  NoDup (map printer_id (printers (db w))) ->
  In p (printers (db w)) -> isActive p = true ->
  exists w',
    runPoll io network w = (Ret tt, w')
    /\ faults w' = [] /\ printers (db w') = printers (db w)
    /\ events_of (printer_id p) (db w')
       = (events_of (printer_id p) (db w)
          + if over_limit p (network p) then 1 else 0)%nat.
Proof.
  intros F Hm ND Hin Hact. unfold runPoll.
  destruct (pollLoop_no_fault io network (activePrinters (db w)) w (printer_id p) F)
    as (w' & E & F' & P' & V').
  { intros q Hq. apply Hm. unfold activePrinters in Hq. now apply filter_In in Hq. }
  exists w'. split.
  - apply try_catch_Ret. unfold bind, query. exact E.
  - split; [exact F'|]. split; [exact P'|].
    rewrite V'. f_equal.
    apply (count_one_printer (fun q => over_limit q (network q))).
    + now apply NoDup_map_filter.
    + apply filter_In. auto.
Qed.

(** C5 (counterexample).  Limit 260, five consecutive polls answer 300: five
    PrinterEvent rows are written (and five socket events emitted), not one. *)
Lemma five_hot_polls_five_events :
  maxTempExtruder printerA = 260%Q
  /\ pd_extruderTemp (pollPrinter printerA (hot printerA)) = 300%Q
  /\ events_of 1 (db one_printer) = 0%nat
  /\ events_of 1 (db (snd (pollEvery true [hot; hot; hot; hot; hot] one_printer))) = 5%nat
  /\ length (filter (fun m => match m with MsgPrinterEvent _ => true | _ => false end)
                    (emitted (snd (pollEvery true [hot; hot; hot; hot; hot] one_printer))))
     = 5%nat.
Proof. repeat split. Qed.

(** C5 (amended).  The thermal check is level-triggered and keeps no memory
    of earlier polls: when no storage write fails and every state the
    printers report can be stored (none names a member of
    [Object.prototype]), every poll in which an active printer's extruder
    reading exceeds its limit writes one more critical event for that
    printer, whatever the polls before it reported; a run of [n] consecutive
    over-limit polls leaves [n] events. *)
Theorem every_over_limit_poll_raises_an_event io networks : forall w p,
  faults w = [] ->
  (forall network q, In network networks -> In q (printers (db w)) ->
     names_prototype_member (network q) = false) ->
  NoDup (map printer_id (printers (db w))) ->
  In p (printers (db w)) -> isActive p = true ->
  events_of (printer_id p) (db (snd (pollEvery io networks w)))
  = (events_of (printer_id p) (db w)
     + length (filter (fun network => over_limit p (network p)) networks))%nat.
Proof.
  induction networks as [|network rest IH]; intros w p F Hm ND Hin Hact.
  - cbn. lia.
  - cbn [pollEvery filter].
    unfold bind at 1. cbn [sleep].
    set (w0 := mkWorld (db w) (clock w + POLL_INTERVAL_MS) (emitted w) (faults w)).
    assert (Hm0 : forall q, In q (printers (db w0)) -> names_prototype_member (network q) = false)
      by (intros q Hq; apply Hm; [now left|exact Hq]).
    destruct (runPoll_no_fault io network w0 p F Hm0 ND Hin Hact)
      as (w1 & E & F1 & P1 & V1).
    rewrite (bind_Ret _ _ _ _ _ E).
    rewrite IH; try assumption; try (rewrite P1; assumption).
    + rewrite V1. cbn [db w0].
      destruct (over_limit p (network p)); cbn [length]; lia.
    + intros network' q Hn Hq. rewrite P1 in Hq. apply Hm; [now right|exact Hq].
Qed.

Lemma every_over_limit_poll_raises_an_event_witness :
  events_of 1 (db (snd (pollEvery true [hot; hot; hot] one_printer))) = 3%nat.
Proof.
  refine (every_over_limit_poll_raises_an_event true [hot; hot; hot] one_printer printerA
            eq_refl _ _ _ eq_refl).
  - intros network q [<-|[<-|[<-|[]]]] _; reflexivity.
  - repeat constructor. cbn. tauto.
  - left. reflexivity.
Defined.

(** * More of the backend *)

(** ** One poll of one printer *)

Lemma pollPrinter_printerId printer response :
  pd_printerId (pollPrinter printer response) = printer_id printer.
Proof. now destruct response. Qed.

Lemma pollOne_effect io printer response status w :
  faults w = [] ->
  pd_status (pollPrinter printer response) = StatusText status ->
  exists w',
    pollOne io printer response w = (Ret tt, w')
    /\ faults w' = [] /\ clock w' = clock w
    /\ printers (db w') = printers (db w)
    /\ jobs (db w') = jobs (db w)
    /\ queueItems (db w') = queueItems (db w)
    /\ energySettings (db w') = energySettings (db w)
    /\ energyReadings (db w') = energyReadings (db w)
    /\ telemetrySeq (db w') = telemetrySeq (db w) + 1
    /\ telemetry (db w')
       = pruned (printer_id printer)
           (telemetry (db w)
            ++ [telemetry_row (telemetrySeq (db w) + 1) (clock w)
                              (pollPrinter printer response) status]).
Proof.
  intros F Hs. unfold pollOne.
  rewrite (bind_Ret _ _ _ _ _ (telemetry_create_no_fault _ status w F Hs)).
  set (rows1 := (telemetry (db w) ++ _)%list).
  set (w1 := set_db _ w).
  pose (Inv := fun v : World =>
      faults v = [] /\ clock v = clock w /\ printers (db v) = printers (db w)
      /\ jobs (db v) = jobs (db w) /\ queueItems (db v) = queueItems (db w)
      /\ energySettings (db v) = energySettings (db w)
      /\ energyReadings (db v) = energyReadings (db w)
      /\ telemetrySeq (db v) = telemetrySeq (db w) + 1
      /\ telemetry (db v) = rows1).
  assert (I1 : Inv w1) by (unfold Inv, w1; cbn; auto 10).
  assert (Hemit : exists w2,
            (if io
             then emit (MsgTelemetry (printer_id printer) false) ;;
                  emit (MsgTelemetry (printer_id printer) true)
             else ret tt)%client w1 = (Ret tt, w2) /\ Inv w2).
  { destruct io; eexists; (split; [reflexivity|]); exact I1. }
  destruct Hemit as (w2 & E2 & I2).
  rewrite (bind_Ret _ _ _ _ _ E2).
  assert (Hev : exists w3,
            (if negb (Qle_bool (pd_extruderTemp (pollPrinter printer response))
                               (maxTempExtruder printer))
             then printerEvent_create (printer_id printer) "CRITICAL" "THERMAL_RUNAWAY"
                    (pd_extruderTemp (pollPrinter printer response))
                    (maxTempExtruder printer) ;;
                  (if io then emit (MsgPrinterEvent (printer_id printer)) else ret tt)
             else ret tt)%client w2 = (Ret tt, w3) /\ Inv w3).
  { destruct (negb (Qle_bool _ _)).
    - unfold printerEvent_create.
      rewrite (bind_Ret _ _ _ _ _ (write_always_no_fault _ _ w2 (proj1 I2))).
      destruct io; eexists; (split; [reflexivity|]); exact I2.
    - exists w2. auto. }
  destruct Hev as (w3 & E3 & I3).
  rewrite (bind_Ret _ _ _ _ _ E3).
  destruct I3 as (F3 & C3 & P3 & J3 & Q3 & S3 & R3 & N3 & T3).
  unfold bind at 1. unfold query at 1.
  unfold pruned. fold rows1.
  unfold telemetryCount. rewrite T3.
  destruct (500 <? length (filter _ rows1))%nat.
  - unfold bind at 1. unfold query at 1. unfold telemetry_deleteMany.
    rewrite (write_always_no_fault _ _ w3 F3).
    eexists. split; [reflexivity|].
    unfold oldestTelemetryIds. rewrite T3. cbn. auto 12.
  - exists w3. auto 12.
Qed.

(** ** Sorting and filtering facts *)

Lemma orderBy_head_cases {A} (le : A -> A -> bool) (x : A) l :
  le x x = true ->
  (forall y, In y l -> y = x \/ (le y x = false /\ le x y = true)) ->
  hd_error (orderBy le l) = Some x
  \/ (forall y, In y l -> le y x = false /\ le x y = true).
Proof.
  intro Hrefl. induction l as [|a l IH]; intro Hmax.
  - right. intros y [].
  - cbn [orderBy].
    destruct IH as [Hhd|Hbelow].
    + intros y Hy. apply Hmax. now right.
    + left. destruct (orderBy le l) as [|y s]; [discriminate|]. injection Hhd as ->.
      cbn. destruct (Hmax a (or_introl eq_refl)) as [->|[Hax _]].
      * now rewrite Hrefl.
      * now rewrite Hax.
    + destruct (Hmax a (or_introl eq_refl)) as [->|Ha].
      * left. destruct (orderBy le l) as [|y s] eqn:E; [reflexivity|]. cbn.
        assert (Hy : In y l).
        { apply (Permutation_in _ (orderBy_perm le l)). rewrite E. now left. }
        destruct (Hbelow y Hy) as [_ Hxy]. now rewrite Hxy.
      * right. intros y [<-|Hy]; auto.
Qed.

Lemma orderBy_head_max {A} (le : A -> A -> bool) (x : A) l :
  In x l -> le x x = true ->
  (forall y, In y l -> y = x \/ (le y x = false /\ le x y = true)) ->
  hd_error (orderBy le l) = Some x.
Proof.
  intros Hin Hrefl Hmax.
  destruct (orderBy_head_cases le x l Hrefl Hmax) as [H|H]; [exact H|].
  destruct (H x Hin) as [Hf _]. congruence.
Qed.

Lemma sorted_app_le {A} (R : A -> A -> Prop) l1 l2 a b :
  StronglySorted R (l1 ++ l2) -> In a l1 -> In b l2 -> R a b.
Proof.
  induction l1 as [|x l1 IH]; cbn; intros S Ha Hb; [contradiction|].
  inversion S as [|? ? S' Hall]; subst.
  destruct Ha as [->|Ha].
  - rewrite Forall_forall in Hall. apply Hall. apply in_or_app. now right.
  - now apply IH.
Qed.

Lemma filter_filter_comm {A} (f g : A -> bool) l :
  filter f (filter g l) = filter g (filter f l).
Proof.
  induction l as [|x l IH]; cbn; [reflexivity|].
  destruct (f x) eqn:F, (g x) eqn:G; cbn; rewrite ?F, ?G, IH; reflexivity.
Qed.

Lemma filter_filter_absorb {A} (f g : A -> bool) l :
  (forall x, In x l -> f x = true -> g x = true) ->
  filter f (filter g l) = filter f l.
Proof.
  induction l as [|x l IH]; cbn; intro H; [reflexivity|].
  destruct (f x) eqn:F.
  - rewrite (H x (or_introl eq_refl) F). cbn. rewrite F. f_equal. apply IH. auto.
  - destruct (g x); cbn; rewrite ?F; apply IH; auto.
Qed.

Lemma filter_perm {A} (f : A -> bool) l l' :
  Permutation l l' -> Permutation (filter f l) (filter f l').
Proof.
  induction 1 as [|x l l' P IH|x y l|l l' l'' P1 IH1 P2 IH2]; cbn.
  - constructor.
  - destruct (f x); [now constructor|exact IH].
  - destruct (f x), (f y); try reflexivity. apply perm_swap.
  - now transitivity (filter f l').
Qed.

Lemma filter_all_false {A} (f : A -> bool) l :
  (forall x, In x l -> f x = false) -> filter f l = [].
Proof.
  induction l as [|x l IH]; cbn; intro H; [reflexivity|].
  rewrite (H x (or_introl eq_refl)). apply IH. auto.
Qed.

Lemma filter_all_true {A} (f : A -> bool) l :
  (forall x, In x l -> f x = true) -> filter f l = l.
Proof.
  induction l as [|x l IH]; cbn; intro H; [reflexivity|].
  rewrite (H x (or_introl eq_refl)). f_equal. apply IH. auto.
Qed.

Lemma id_listed (ids : list Z) (id : Z) :
  existsb (Z.eqb id) ids = true <-> In id ids.
Proof.
  rewrite existsb_exists. split.
  - intros (x & Hin & E). apply Z.eqb_eq in E. now subst.
  - intro H. exists id. split; [exact H|apply Z.eqb_refl].
Qed.

Lemma NoDup_map_app_disjoint {A} (f : A -> Z) l1 l2 a b :
  NoDup (map f (l1 ++ l2)) -> In a l1 -> In b l2 -> f a <> f b.
Proof.
  induction l1 as [|x l1 IH]; cbn; intros ND Ha Hb; [contradiction|].
  inversion ND as [|? ? Hx ND']; subst.
  destruct Ha as [->|Ha].
  - intro E. apply Hx. rewrite E. apply in_map. apply in_or_app. now right.
  - now apply IH.
Qed.

(** Deleting by the keys of a prefix removes exactly that prefix. *)
Lemma delete_prefix_by_key {A} (key : A -> Z) l1 l2 :
  NoDup (map key (l1 ++ l2)) ->
  filter (fun t => negb (existsb (Z.eqb (key t)) (map key l1))) (l1 ++ l2) = l2.
Proof.
  intro ND. rewrite filter_app.
  rewrite filter_all_false, filter_all_true; [reflexivity| |].
  - intros b Hb. apply negb_true_iff.
    destruct (existsb _ _) eqn:E; [|reflexivity].
    apply id_listed in E. apply in_map_iff in E. destruct E as (a & E & Ha).
    exfalso. now apply (NoDup_map_app_disjoint key l1 l2 a b ND Ha Hb).
  - intros a Ha. apply negb_false_iff. apply id_listed. now apply in_map.
Qed.

Lemma older_total (a b : PrinterTelemetry) :
  (pt_recordedAt a <=? pt_recordedAt b) = true \/ (pt_recordedAt b <=? pt_recordedAt a) = true.
Proof. rewrite !Z.leb_le. lia. Qed.

Lemma older_trans (a b c : PrinterTelemetry) :
  (pt_recordedAt a <=? pt_recordedAt b) = true ->
  (pt_recordedAt b <=? pt_recordedAt c) = true ->
  (pt_recordedAt a <=? pt_recordedAt c) = true.
Proof. rewrite !Z.leb_le. lia. Qed.

(** ** The clean-up of the telemetry table *)

Lemma pruned_subset pid l t : In t (pruned pid l) -> In t l.
Proof.
  unfold pruned. destruct (500 <? _)%nat; [|auto].
  intro H. now apply filter_In in H.
Qed.

Lemma pruned_ids_NoDup pid l : NoDup (map pt_id l) -> NoDup (map pt_id (pruned pid l)).
Proof.
  unfold pruned. destruct (500 <? _)%nat; [|auto]. apply NoDup_map_filter.
Qed.

Lemma pruned_count pid l :
  NoDup (map pt_id l) ->
  length (filter (fun t => pt_printerId t =? pid) (pruned pid l))
  = Nat.min (length (filter (fun t => pt_printerId t =? pid) l)) 500.
Proof.
  intro ND. unfold pruned.
  set (mine := filter (fun t => pt_printerId t =? pid) l).
  set (sorted := orderBy (fun a b => pt_recordedAt a <=? pt_recordedAt b) mine).
  destruct (Nat.ltb_spec 500 (length mine)) as [Hbig|Hsmall].
  2:{ fold mine. lia. }
  rewrite filter_filter_comm. fold mine.
  set (k := (length mine - 500)%nat).
  assert (P : Permutation sorted mine) by apply orderBy_perm.
  rewrite <- (Permutation_length (filter_perm _ _ _ P)).
  assert (NDs : NoDup (map pt_id sorted)).
  { eapply Permutation_NoDup; [apply Permutation_map; symmetry; exact P|].
    now apply NoDup_map_filter. }
  rewrite <- (firstn_skipn k sorted) in NDs.
  match goal with
  | |- context [filter ?keep sorted] =>
      replace (filter keep sorted)
        with (filter keep (firstn k sorted ++ skipn k sorted))
        by now rewrite firstn_skipn
  end.
  rewrite (delete_prefix_by_key pt_id _ _ NDs).
  rewrite length_skipn, (Permutation_length P). subst k. lia.
Qed.

Lemma pruned_other pid pid' l :
  NoDup (map pt_id l) -> pid' <> pid ->
  filter (fun t => pt_printerId t =? pid') (pruned pid l)
  = filter (fun t => pt_printerId t =? pid') l.
Proof.
  intros ND Hne. unfold pruned. destruct (500 <? _)%nat; [|reflexivity].
  apply filter_filter_absorb. intros t Ht Hp. apply Z.eqb_eq in Hp.
  apply negb_true_iff. destruct (existsb _ _) eqn:E; [|reflexivity].
  apply id_listed in E. apply in_map_iff in E. destruct E as (y & Ey & Hy).
  apply In_firstn in Hy. apply (Permutation_in _ (orderBy_perm _ _)) in Hy.
  apply filter_In in Hy. destruct Hy as [Hy Hpy]. apply Z.eqb_eq in Hpy.
  assert (y = t) by (apply (NoDup_map_injective pt_id l); auto).
  subst. congruence.
Qed.

Lemma pruned_keeps_newest pid l x :
  NoDup (map pt_id l) -> In x l -> pt_printerId x = pid ->
  (forall y, In y l -> pt_printerId y = pid -> y = x \/ pt_recordedAt y < pt_recordedAt x) ->
  In x (pruned pid l).
Proof.
  intros ND Hx Hp Hmax. unfold pruned.
  set (mine := filter (fun t => pt_printerId t =? pid) l).
  set (sorted := orderBy (fun a b => pt_recordedAt a <=? pt_recordedAt b) mine).
  destruct (Nat.ltb_spec 500 (length mine)) as [Hbig|Hsmall]; [|exact Hx].
  set (k := (length mine - 500)%nat).
  apply filter_In. split; [exact Hx|].
  apply negb_true_iff. destruct (existsb _ _) eqn:E; [|reflexivity]. exfalso.
  apply id_listed in E. apply in_map_iff in E. destruct E as (y & Ey & Hy).
  assert (P : Permutation sorted mine) by apply orderBy_perm.
  assert (Hin_mine : forall t, In t sorted -> In t l /\ pt_printerId t = pid).
  { intros t Ht. apply (Permutation_in _ P) in Ht. apply filter_In in Ht.
    destruct Ht as [Ht Hpt]. apply Z.eqb_eq in Hpt. auto. }
  assert (y = x).
  { apply (NoDup_map_injective pt_id l); auto.
    apply Hin_mine. now apply In_firstn in Hy. }
  subst y.
  assert (NDs : NoDup (map pt_id (firstn k sorted ++ skipn k sorted))).
  { rewrite firstn_skipn.
    eapply Permutation_NoDup; [apply Permutation_map; symmetry; exact P|].
    now apply NoDup_map_filter. }
  assert (Hs : StronglySorted (fun a b => (pt_recordedAt a <=? pt_recordedAt b) = true)
                 (firstn k sorted ++ skipn k sorted)).
  { rewrite firstn_skipn. apply orderBy_sorted; [apply older_total|apply older_trans]. }
  destruct (skipn k sorted) as [|z rest] eqn:Ez.
  { apply (f_equal (@length _)) in Ez. rewrite length_skipn, (Permutation_length P) in Ez.
    cbn in Ez. subst k. lia. }
  assert (Hz : In z (z :: rest)) by now left.
  pose proof (sorted_app_le _ _ _ x z Hs Hy Hz) as Hle. apply Z.leb_le in Hle.
  pose proof (NoDup_map_app_disjoint pt_id _ _ x z NDs Hy Hz) as Hid.
  assert (Hz' : In z sorted).
  { rewrite <- (firstn_skipn k sorted). apply in_or_app. right. now rewrite Ez. }
  destruct (Hin_mine z Hz') as [Hzl Hzp].
  destruct (Hmax z Hzl Hzp) as [->|Hlt]; [congruence|lia].
Qed.

Lemma fresh_row_keeps_pk l (row : PrinterTelemetry) seq :
  NoDup (map pt_id l) -> (forall t, In t l -> pt_id t <= seq) -> pt_id row = seq + 1 ->
  NoDup (map pt_id (l ++ [row])).
Proof.
  intros ND Hle Hid. induction l as [|x l IH]; cbn.
  - repeat constructor. intros [].
  - inversion ND as [|? ? Hx ND']; subst. constructor.
    + rewrite map_app, in_app_iff. cbn. intros [H|[H|[]]]; [now apply Hx|].
      specialize (Hle x (or_introl eq_refl)). lia.
    + apply IH; [exact ND'|]. intros t Ht. apply Hle. now right.
Qed.

Lemma latestTelemetryOf_rows pid d d' :
  rows_of pid d' = rows_of pid d -> latestTelemetryOf pid d' = latestTelemetryOf pid d.
Proof. unfold latestTelemetryOf, rows_of. now intros ->. Qed.

Lemma telemetryCount_rows pid d : telemetryCount pid d = length (rows_of pid d).
Proof. reflexivity. Qed.

(** What one iteration of the polling loop does to the telemetry table. *)
Lemma pollOne_telemetry io printer response status w :
  faults w = [] -> telemetry_ok (db w) ->
  pd_status (pollPrinter printer response) = StatusText status ->
  exists w',
    pollOne io printer response w = (Ret tt, w')
    /\ faults w' = [] /\ clock w' = clock w
    /\ printers (db w') = printers (db w)
    /\ telemetry_ok (db w')
    /\ (forall pid, pid <> printer_id printer -> rows_of pid (db w') = rows_of pid (db w))
    /\ telemetryCount (printer_id printer) (db w')
       = Nat.min (S (telemetryCount (printer_id printer) (db w))) 500
    /\ ((forall t, In t (rows_of (printer_id printer) (db w)) -> pt_recordedAt t < clock w) ->
        latestTelemetryOf (printer_id printer) (db w')
        = Some (telemetry_row (telemetrySeq (db w) + 1) (clock w)
                              (pollPrinter printer response) status)).
Proof.
  intros F [ND Hseq] Hs.
  destruct (pollOne_effect io printer response status w F Hs)
    as (w' & E & F' & C' & P' & _ & _ & _ & _ & S' & T').
  set (row := telemetry_row (telemetrySeq (db w) + 1) (clock w)
                            (pollPrinter printer response) status) in *.
  set (pid := printer_id printer) in *.
  assert (Hrow_pid : pt_printerId row = pid) by apply pollPrinter_printerId.
  assert (ND1 : NoDup (map pt_id (telemetry (db w) ++ [row])))
    by (apply (fresh_row_keeps_pk _ row (telemetrySeq (db w))); auto).
  assert (Hmine : filter (fun t => pt_printerId t =? pid) (telemetry (db w) ++ [row])
                  = (rows_of pid (db w) ++ [row])%list).
  { rewrite filter_app. cbn [filter]. rewrite Hrow_pid, Z.eqb_refl. reflexivity. }
  exists w'. split; [exact E|]. split; [exact F'|]. split; [exact C'|].
  split; [exact P'|]. split; [|split; [|split]].
  - constructor.
    + rewrite T'. now apply pruned_ids_NoDup.
    + intros t Ht. rewrite T' in Ht. apply pruned_subset in Ht.
      rewrite S'. apply in_app_iff in Ht. destruct Ht as [Ht|[<-|[]]].
      * specialize (Hseq t Ht). lia.
      * subst row. cbn [pt_id telemetry_row]. lia.
  - intros pid' Hne. unfold rows_of. rewrite T'.
    rewrite (pruned_other pid pid' _ ND1 Hne).
    rewrite filter_app. cbn [filter]. rewrite Hrow_pid.
    destruct (Z.eqb_spec pid pid'); [congruence|]. apply app_nil_r.
  - unfold telemetryCount. rewrite T'. rewrite (pruned_count pid _ ND1).
    rewrite Hmine, length_app. unfold rows_of. cbn [length]. f_equal. lia.
  - intro Hold. unfold latestTelemetryOf. rewrite T'.
    assert (Hkept : In row (pruned pid (telemetry (db w) ++ [row]))).
    { apply pruned_keeps_newest; auto.
      - apply in_or_app. right. now left.
      - intros y Hy Hyp. apply in_app_iff in Hy. destruct Hy as [Hy|[<-|[]]]; [|now left].
        right. change (pt_recordedAt row) with (clock w). apply Hold.
        apply filter_In. split; [exact Hy|]. now apply Z.eqb_eq. }
    apply orderBy_head_max.
    + apply filter_In. split; [exact Hkept|]. rewrite Hrow_pid. apply Z.eqb_refl.
    + apply Z.leb_refl.
    + intros y Hy. apply filter_In in Hy. destruct Hy as [Hy Hyp].
      apply pruned_subset in Hy. apply in_app_iff in Hy.
      destruct Hy as [Hy|[<-|[]]]; [|now left].
      right. change (pt_recordedAt row) with (clock w).
      assert (pt_recordedAt y < clock w)
        by (apply Hold; apply filter_In; auto).
      rewrite Z.leb_gt, Z.leb_le. lia.
Qed.

(** ** A whole poll *)

Lemma pollLoop_telemetry io network ps : forall w,
  faults w = [] -> telemetry_ok (db w) ->
  (forall q, In q ps -> names_prototype_member (network q) = false) ->
  exists w',
    pollLoop io network ps w = (Ret tt, w')
    /\ faults w' = [] /\ clock w' = clock w
    /\ printers (db w') = printers (db w)
    /\ telemetry_ok (db w')
    /\ (forall pid, ~ In pid (map printer_id ps) -> rows_of pid (db w') = rows_of pid (db w)).
Proof.
  induction ps as [|printer rest IH]; intros w F OK Hm.
  - exists w. cbn. auto 10.
  - cbn [pollLoop].
    destruct (pollPrinter_text printer (network printer) (Hm _ (or_introl eq_refl)))
      as (status & Hs & _).
    destruct (pollOne_telemetry io printer (network printer) status w F OK Hs)
      as (w1 & E1 & F1 & C1 & P1 & OK1 & R1 & _).
    rewrite (bind_Ret _ _ _ _ _ E1).
    destruct (IH w1 F1 OK1 (fun q Hq => Hm q (or_intror Hq)))
      as (w2 & E2 & F2 & C2 & P2 & OK2 & R2).
    exists w2. split; [exact E2|]. split; [exact F2|]. split; [congruence|].
    split; [congruence|]. split; [exact OK2|].
    intros pid Hout. cbn in Hout. rewrite R2 by tauto. apply R1. intro; subst; tauto.
Qed.

Lemma pollLoop_polled io network ps : forall w p,
  faults w = [] -> telemetry_ok (db w) ->
  (forall q, In q ps -> names_prototype_member (network q) = false) ->
  NoDup (map printer_id ps) -> In p ps ->
  exists w',
    pollLoop io network ps w = (Ret tt, w')
    /\ telemetryCount (printer_id p) (db w')
       = Nat.min (S (telemetryCount (printer_id p) (db w))) 500
    /\ ((forall t, In t (rows_of (printer_id p) (db w)) -> pt_recordedAt t < clock w) ->
        exists id status,
          pd_status (pollPrinter p (network p)) = StatusText status
          /\ latestTelemetryOf (printer_id p) (db w')
             = Some (telemetry_row id (clock w) (pollPrinter p (network p)) status)).
Proof.
  induction ps as [|printer rest IH]; intros w p F OK Hm ND Hin; [contradiction|].
  cbn in ND. inversion ND as [|? ? Hx ND']; subst.
  cbn [pollLoop].
  destruct (pollPrinter_text printer (network printer) (Hm _ (or_introl eq_refl)))
    as (status & Hs & _).
  destruct (pollOne_telemetry io printer (network printer) status w F OK Hs)
    as (w1 & E1 & F1 & C1 & P1 & OK1 & R1 & N1 & L1).
  rewrite (bind_Ret _ _ _ _ _ E1).
  assert (Hm' : forall q, In q rest -> names_prototype_member (network q) = false)
    by (intros q Hq; apply Hm; now right).
  destruct Hin as [->|Hin].
  - destruct (pollLoop_telemetry io network rest w1 F1 OK1 Hm')
      as (w2 & E2 & _ & _ & _ & _ & R2).
    exists w2. split; [exact E2|].
    rewrite !telemetryCount_rows, (R2 _ Hx), <- !telemetryCount_rows.
    split; [exact N1|].
    intro Hold. eexists. exists status. split; [exact Hs|].
    rewrite (latestTelemetryOf_rows _ _ _ (R2 _ Hx)). now apply L1.
  - assert (Hne : printer_id p <> printer_id printer).
    { intro E. apply Hx. rewrite <- E. now apply in_map. }
    destruct (IH w1 p F1 OK1 Hm' ND' Hin) as (w2 & E2 & N2 & L2).
    exists w2. split; [exact E2|].
    rewrite !telemetryCount_rows, (R1 _ Hne) in N2. rewrite !telemetryCount_rows.
    split; [exact N2|].
    intro Hold. rewrite C1, (R1 _ Hne) in L2. now apply L2.
Qed.

Lemma active_storable network d :
  (forall q, In q (printers d) -> names_prototype_member (network q) = false) ->
  forall q, In q (activePrinters d) -> names_prototype_member (network q) = false.
Proof.
  intros H q Hq. apply H. unfold activePrinters in Hq. now apply filter_In in Hq.
Qed.

Lemma runPoll_run io network w :
  faults w = [] -> telemetry_ok (db w) ->
  (forall q, In q (printers (db w)) -> names_prototype_member (network q) = false) ->
  runPoll io network w = pollLoop io network (activePrinters (db w)) w
  /\ fst (runPoll io network w) = Ret tt.
Proof.
  intros F OK Hm. unfold runPoll.
  destruct (pollLoop_telemetry io network (activePrinters (db w)) w F OK
              (active_storable network (db w) Hm)) as (w' & E & _).
  assert (R : try_catch (printers <- query activePrinters ;; pollLoop io network printers)
                        (ret tt) w = (Ret tt, w')).
  { apply try_catch_Ret. unfold bind, query. exact E. }
  rewrite R, E. auto.
Qed.

Lemma runPoll_polled io network w p :
  faults w = [] -> telemetry_ok (db w) ->
  (forall q, In q (printers (db w)) -> names_prototype_member (network q) = false) ->
  NoDup (map printer_id (printers (db w))) ->
  In p (printers (db w)) -> isActive p = true ->
  telemetryCount (printer_id p) (db (snd (runPoll io network w)))
  = Nat.min (S (telemetryCount (printer_id p) (db w))) 500
  /\ (readings_before (clock w) (db w) ->
      exists id status,
        pd_status (pollPrinter p (network p)) = StatusText status
        /\ latestTelemetryOf (printer_id p) (db (snd (runPoll io network w)))
           = Some (telemetry_row id (clock w) (pollPrinter p (network p)) status)).
Proof.
  intros F OK Hm ND Hin Hact.
  destruct (runPoll_run io network w F OK Hm) as [-> _].
  assert (NDa : NoDup (map printer_id (activePrinters (db w))))
    by now apply NoDup_map_filter.
  assert (Hp : In p (activePrinters (db w))) by (apply filter_In; auto).
  destruct (pollLoop_polled io network _ w p F OK (active_storable network (db w) Hm) NDa Hp)
    as (w' & E & N & L).
  rewrite E. split; [exact N|].
  intro Hold. apply L. intros t Ht. apply Hold. unfold rows_of in Ht.
  now apply filter_In in Ht.
Qed.

Lemma runPoll_telemetry_ok io network w :
  faults w = [] -> telemetry_ok (db w) ->
  (forall q, In q (printers (db w)) -> names_prototype_member (network q) = false) ->
  telemetry_ok (db (snd (runPoll io network w)))
  /\ printers (db (snd (runPoll io network w))) = printers (db w).
Proof.
  intros F OK Hm. destruct (runPoll_run io network w F OK Hm) as [-> _].
  destruct (pollLoop_telemetry io network (activePrinters (db w)) w F OK
              (active_storable network (db w) Hm))
    as (w' & E & _ & _ & P & OK' & _).
  rewrite E. auto.
Qed.

Lemma NoDup_map_inj {A B} (f : A -> B) l :
  (forall a b, f a = f b -> a = b) -> NoDup l -> NoDup (map f l).
Proof.
  intros Hf ND. induction ND as [|x l Hx ND IH]; cbn; constructor; [|exact IH].
  intro H. apply in_map_iff in H. destruct H as (y & E & Hy).
  apply Hf in E. now subst.
Qed.

(** The sample history: 500 rows with ids and timestamps 1 to 500. *)
Lemma full_history_ok :
  telemetry_ok (db full_history) /\ readings_before (clock full_history) (db full_history).
Proof.
  split; [constructor|]; cbn [db full_history telemetry telemetrySeq clock].
  - rewrite map_map. cbn [pt_id telemetry_of].
    apply NoDup_map_inj; [intros a b; apply Nat2Z.inj|apply seq_NoDup].
  - intros t Ht. apply in_map_iff in Ht. destruct Ht as (k & <- & Hk).
    apply in_seq in Hk. cbn [pt_id telemetry_of]. lia.
  - intros t Ht. apply in_map_iff in Ht. destruct Ht as (k & <- & Hk).
    apply in_seq in Hk. cbn [pt_recordedAt telemetry_of]. lia.
Qed.

(** X1.  A poll in which no write throws and every reported state can be
    stored leaves every active printer with its previous number of telemetry
    rows plus one, capped at 500, and keeps the primary key of the table
    intact. *)
Theorem runPoll_caps_history io network w p :
  faults w = [] -> telemetry_ok (db w) ->
  (forall q, In q (printers (db w)) -> names_prototype_member (network q) = false) ->
  NoDup (map printer_id (printers (db w))) ->
  In p (printers (db w)) -> isActive p = true ->
  telemetryCount (printer_id p) (db (snd (runPoll io network w)))
  = Nat.min (S (telemetryCount (printer_id p) (db w))) 500
  /\ telemetry_ok (db (snd (runPoll io network w))).
Proof.
  intros F OK Hm ND Hin Hact. split.
  - apply (runPoll_polled io network w p); assumption.
  - apply runPoll_telemetry_ok; assumption.
Qed.

Lemma runPoll_caps_history_witness :
  telemetryCount 1 (db full_history) = 500%nat
  /\ telemetryCount 1 (db (snd (runPoll true hot full_history))) = 500%nat
  /\ telemetryCount 1 (db (snd (runPoll true hot one_printer))) = 1%nat.
Proof.
  split; [vm_compute; reflexivity|]. split.
  - refine (eq_trans
              (proj1 (runPoll_caps_history true hot full_history printerA eq_refl
                        (proj1 full_history_ok) (fun _ _ => eq_refl)
                        (NoDup_cons 1 (fun H : In 1 [] => H) (NoDup_nil Z))
                        (or_introl eq_refl) eq_refl)) _).
    vm_compute. reflexivity.
  - refine (proj1 (runPoll_caps_history true hot one_printer printerA eq_refl _
                     (fun _ _ => eq_refl) _ _ eq_refl)).
    + constructor; cbn; [constructor|intros t []].
    + repeat constructor. cbn. tauto.
    + left. reflexivity.
Defined.

(** X2.  When every stored reading is older than the clock, the latest
    reading of an active printer right after a poll is the row that poll
    stored for it: what the printer answered, stamped with the time of the
    poll; the clean-up run by the same poll does not delete it. *)
Theorem poll_then_latest io network w p :
  faults w = [] -> telemetry_ok (db w) ->
  (forall q, In q (printers (db w)) -> names_prototype_member (network q) = false) ->
  NoDup (map printer_id (printers (db w))) ->
  In p (printers (db w)) -> isActive p = true ->
  readings_before (clock w) (db w) ->
  exists id status,
    pd_status (pollPrinter p (network p)) = StatusText status
    /\ latestTelemetryOf (printer_id p) (db (snd (runPoll io network w)))
       = Some (telemetry_row id (clock w) (pollPrinter p (network p)) status).
Proof.
  intros F OK Hm ND Hin Hact Hold.
  destruct (runPoll_polled io network w p F OK Hm ND Hin Hact) as [_ L].
  exact (L Hold).
Qed.

Lemma poll_then_latest_witness :
  latestTelemetryOf 1 (db full_history) = Some (telemetry_of 500 1 "printing" 500)
  /\ exists id,
       latestTelemetryOf 1 (db (snd (runPoll true cooled full_history)))
       = Some (telemetry_row id 1000 (pollPrinter printerA (cooled printerA)) "idle").
Proof.
  split; [vm_compute; reflexivity|].
  destruct (poll_then_latest true cooled full_history printerA eq_refl
              (proj1 full_history_ok) (fun _ _ => eq_refl)
              (NoDup_cons 1 (fun H : In 1 [] => H) (NoDup_nil Z))
              (or_introl eq_refl) eq_refl (proj2 full_history_ok))
    as (id & status & Hs & L).
  exists id. injection Hs as <-. exact L.
Defined.

(** X3.  Right after such a poll the scheduler's eligibility of an active
    printer is decided by that poll alone: the printer is in the tick's list
    of eligible printers exactly when the poll stored status [idle] or
    [offline] for it -- so a printer that did not answer is eligible. *)
Theorem polled_status_decides_eligibility io network w p :
  faults w = [] -> telemetry_ok (db w) ->
  (forall q, In q (printers (db w)) -> names_prototype_member (network q) = false) ->
  NoDup (map printer_id (printers (db w))) ->
  In p (printers (db w)) -> isActive p = true ->
  readings_before (clock w) (db w) ->
  (In p (idlePrinters (db (snd (runPoll io network w))))
   <-> pd_status (pollPrinter p (network p)) = StatusText "idle"
       \/ pd_status (pollPrinter p (network p)) = StatusText "offline")
  /\ (network p = None -> In p (idlePrinters (db (snd (runPoll io network w))))).
Proof.
  intros F OK Hm ND Hin Hact Hold.
  assert (Hiff : In p (idlePrinters (db (snd (runPoll io network w))))
                 <-> pd_status (pollPrinter p (network p)) = StatusText "idle"
                     \/ pd_status (pollPrinter p (network p)) = StatusText "offline").
  { unfold idlePrinters, activePrinters. rewrite !filter_In.
    rewrite (proj2 (runPoll_telemetry_ok io network w F OK Hm)).
    destruct (proj2 (runPoll_polled io network w p F OK Hm ND Hin Hact) Hold)
      as (id & status & Hs & ->).
    cbn [counts_as_idle pt_status telemetry_row].
    rewrite Hs, orb_true_iff, !String.eqb_eq.
    split.
    - intros [_ [->| ->]]; auto.
    - intros [[= ->]|[= ->]]; auto. }
  split; [exact Hiff|].
  intro Hnone. apply Hiff. rewrite Hnone. now right.
Qed.

Lemma polled_status_decides_eligibility_witness :
  ~ In printerA (idlePrinters (db full_history))
  /\ In printerA (idlePrinters (db (snd (runPoll true cooled full_history))))
  /\ ~ In printerA (idlePrinters (db (snd (runPoll true hot full_history)))).
Proof.
  split; [vm_compute; exact (fun H => H)|].
  pose proof (proj1 (polled_status_decides_eligibility true cooled full_history printerA
                       eq_refl (proj1 full_history_ok) (fun _ _ => eq_refl)
                       (NoDup_cons 1 (fun H : In 1 [] => H) (NoDup_nil Z))
                       (or_introl eq_refl) eq_refl (proj2 full_history_ok))) as Hcooled.
  pose proof (proj1 (polled_status_decides_eligibility true hot full_history printerA
                       eq_refl (proj1 full_history_ok) (fun _ _ => eq_refl)
                       (NoDup_cons 1 (fun H : In 1 [] => H) (NoDup_nil Z))
                       (or_introl eq_refl) eq_refl (proj2 full_history_ok))) as Hhot.
  split.
  - exact (proj2 Hcooled (or_introl eq_refl)).
  - intro Hin. destruct (proj1 Hhot Hin) as [E|E]; vm_compute in E; discriminate.
Defined.

(** ** Filtering a sorted query result *)

Section OrderByFilter.
Context {A : Type} (le : A -> A -> bool) (f : A -> bool).
Hypothesis le_total : forall a b, le a b = true \/ le b a = true.
Hypothesis le_trans : forall a b c, le a b = true -> le b c = true -> le a c = true.

Lemma insert_row_front x l :
  (forall z, In z l -> le x z = true) -> insert_row le x l = x :: l.
Proof.
  destruct l as [|y l]; cbn; intro H; [reflexivity|].
  now rewrite (H y (or_introl eq_refl)).
Qed.

Lemma insert_row_filter x l :
  StronglySorted (fun a b => le a b = true) l ->
  filter f (insert_row le x l)
  = if f x then insert_row le x (filter f l) else filter f l.
Proof.
  induction 1 as [|y l Hs IH Hall]; cbn.
  - now destruct (f x).
  - destruct (le x y) eqn:E; cbn.
    + destruct (f x) eqn:Fx; [|reflexivity].
      destruct (f y) eqn:Fy; cbn; [now rewrite E|].
      rewrite insert_row_front; [reflexivity|].
      intros z Hz. apply filter_In in Hz. destruct Hz as [Hz _].
      rewrite Forall_forall in Hall. apply le_trans with y; auto.
    + rewrite IH. destruct (f y) eqn:Fy; destruct (f x) eqn:Fx; cbn;
        rewrite ?E; reflexivity.
Qed.

Lemma orderBy_filter l : filter f (orderBy le l) = orderBy le (filter f l).
Proof.
  induction l as [|x l IH]; cbn; [reflexivity|].
  rewrite insert_row_filter by now apply orderBy_sorted.
  rewrite IH. now destruct (f x).
Qed.
End OrderByFilter.

Lemma sorted_firstn {A} (R : A -> A -> Prop) n : forall l,
  StronglySorted R l -> StronglySorted R (firstn n l).
Proof.
  induction n as [|n IH]; intros l S; [constructor|].
  destruct S as [|x l S Hall]; cbn; constructor; [now apply IH|].
  rewrite Forall_forall in *. intros y Hy. apply Hall. now apply In_firstn in Hy.
Qed.

Lemma sorted_snoc {A} (R : A -> A -> Prop) l x :
  StronglySorted R l -> Forall (fun a => R a x) l -> StronglySorted R (l ++ [x]).
Proof.
  induction 1 as [|y l S IH Hall]; cbn; intro H.
  - repeat constructor.
  - inversion H as [|? ? Hy H']; subst. constructor; [now apply IH|].
    apply Forall_app. split; [exact Hall|]. now repeat constructor.
Qed.

Lemma sorted_rev {A} (R : A -> A -> Prop) l :
  StronglySorted R l -> StronglySorted (fun a b => R b a) (rev l).
Proof.
  induction 1 as [|x l S IH Hall]; cbn; [constructor|].
  apply sorted_snoc; [exact IH|].
  rewrite Forall_forall in *. intros a Ha. apply Hall. now apply in_rev.
Qed.

(** ** Queue routes *)

Lemma queue_sorted_as_served l :
  StronglySorted (fun a b => queue_le a b = true) l -> StronglySorted served_before l.
Proof.
  induction 1 as [|a l Hs IH Hall]; constructor; auto.
  eapply Forall_impl; [|exact Hall]. intros b. apply queue_le_spec.
Qed.

Lemma read_result {A} (f : Db -> A) w :
  db (snd (read f w)) = db w
  /\ (hd false (faults w) = true -> fst (read f w) = Throw)
  /\ (hd false (faults w) = false -> fst (read f w) = Ret (f (db w))).
Proof.
  unfold read. destruct (faults w) as [|[|] rest]; cbn; repeat split; auto; discriminate.
Qed.

(** X4.  The handler of the queue listing never changes the database.  When
    its query throws it answers 500; otherwise it answers 200 with every
    entry once, sorted by priority rank and then by insertion time, and its
    queued, printer-less entries appear in exactly the order in which the
    scheduler serves them. *)
Theorem queue_listing_is_service_order w :
  db (snd (listQueue w)) = db w
  /\ (hd false (faults w) = true -> fst (listQueue w) = Ret QueueListFailed500)
  /\ (hd false (faults w) = false ->
      exists items,
        fst (listQueue w) = Ret (QueueList200 items)
        /\ Permutation (map (fun x => fst (fst x)) items) (queueItems (db w))
        /\ StronglySorted served_before (map (fun x => fst (fst x)) items)
        /\ filter is_candidate (map (fun x => fst (fst x)) items) = candidates (db w)).
Proof.
  unfold listQueue, try_catch, bind, ret.
  set (f := fun d => map (with_relations d) (orderBy queue_le (queueItems d))).
  destruct (read_result f w) as (Hdb & Hthrow & Hret).
  destruct (read f w) as [[items|] w'] eqn:E; cbn [fst snd] in *.
  - split; [exact Hdb|]. split.
    + intro F. specialize (Hthrow F). discriminate.
    + intro F. specialize (Hret F). injection Hret as ->.
      exists (f (db w)). split; [reflexivity|].
      subst f. cbn beta. rewrite map_map. cbn [with_relations fst]. rewrite map_id.
      split; [apply orderBy_perm|].
      split.
      * apply queue_sorted_as_served. apply orderBy_sorted;
          [apply queue_le_total|apply queue_le_trans].
      * unfold candidates. apply orderBy_filter; [apply queue_le_total|apply queue_le_trans].
  - split; [exact Hdb|]. split; [reflexivity|].
    intro F. specialize (Hret F). discriminate.
Qed.

Lemma queue_listing_is_service_order_witness :
  (exists items,
     fst (listQueue calm) = Ret (QueueList200 items)
     /\ filter is_candidate (map (fun x => fst (fst x)) items)
        = [mkQueueItem 2 2 None 1 "queued" 2 2; mkQueueItem 1 1 None 5 "queued" 1 1])
  /\ fst (listQueue (mkWorld (shop 3) 1000 [] [true])) = Ret QueueListFailed500.
Proof.
  split.
  - destruct (proj2 (proj2 (queue_listing_is_service_order calm)) eq_refl)
      as (items & E & _ & _ & H).
    exists items. split; [exact E|]. rewrite H. reflexivity.
  - exact (proj1 (proj2 (queue_listing_is_service_order (mkWorld (shop 3) 1000 [] [true])))
             eq_refl).
Defined.

Lemma set_priority_ids id r t l : map qi_id (set_priority id r t l) = map qi_id l.
Proof.
  unfold set_priority. rewrite map_map. apply map_ext.
  intro q. now destruct (qi_id q =? id).
Qed.

Lemma set_priority_other id r t l q :
  In q l -> qi_id q <> id -> In q (set_priority id r t l).
Proof.
  intros Hin Hne. unfold set_priority. apply in_map_iff. exists q. split; [|exact Hin].
  destruct (Z.eqb_spec (qi_id q) id); congruence.
Qed.

Lemma set_priority_hit id r t l q :
  In q l -> qi_id q = id -> In (rerank_item r t q) (set_priority id r t l).
Proof.
  intros Hin He. unfold set_priority. apply in_map_iff. exists q. split; [|exact Hin].
  destruct (Z.eqb_spec (qi_id q) id); congruence.
Qed.

Lemma set_priority_rows id r t l q' :
  In q' (set_priority id r t l) ->
  (In q' l /\ qi_id q' <> id) \/ exists q, In q l /\ qi_id q = id /\ q' = rerank_item r t q.
Proof.
  unfold set_priority. intro H. apply in_map_iff in H. destruct H as (q & Hq & Hin).
  destruct (Z.eqb_spec (qi_id q) id).
  - right. exists q. auto.
  - left. subst. auto.
Qed.

Lemma changePriority_no_fault w id priority q r :
  faults w = [] ->
  NoDup (map qi_id (queueItems (db w))) ->
  In q (queueItems (db w)) -> qi_id q = id ->
  priorityRank priority = Some r ->
  changePriority id priority w
  = (Ret (Priority200 (rerank_item r (clock w) q)),
     mkWorld (with_queueItems (set_priority id r (clock w) (queueItems (db w))) (db w))
             (clock w) (emitted w ++ [MsgQueueUpdated id]) []).
Proof.
  intros F ND Hq Hid Hr.
  pose proof (findQueueItem_unique id (db w) q ND Hq Hid) as Hfind.
  unfold changePriority. rewrite Hr. unfold queueItem_update_priority.
  apply try_catch_Ret.
  erewrite bind_Ret; [|apply write_no_fault; [exact F|]; rewrite Hfind; reflexivity].
  unfold bind, emit, ret. cbn [fst snd set_db db clock emitted faults].
  change (qi_id (rerank_item r (clock w) q)) with (qi_id q). rewrite Hid.
  destruct w as [d c em fl]. cbn in F. subst fl. reflexivity.
Qed.

Lemma priorityRank_values priority r :
  priorityRank priority = Some r ->
  (priority = "high" /\ r = 1) \/ (priority = "low" /\ r = 10)
  \/ (priority <> "high" /\ priority <> "low" /\ r = 5).
Proof.
  unfold priorityRank.
  destruct (String.eqb_spec priority "high") as [->|Hh]; [intros [= <-]; auto|].
  destruct (String.eqb_spec priority "medium") as [->|Hm];
    [intros [= <-]; right; right; repeat split; discriminate|].
  destruct (String.eqb_spec priority "low") as [->|Hl]; [intros [= <-]; auto|].
  destruct (inherited_key priority); [discriminate|].
  intros [= <-]. auto.
Qed.

(** X5.  When no write throws, changing the priority of an existing entry
    answers 200 with the rewritten entry; the entry gets rank 1 for [high],
    10 for [low] and 5 for anything else the route accepts, and keeps its
    status, printer and job -- also when it is already assigned; every other
    entry, and the jobs, printers and telemetry, are left as they were. *)
Theorem changePriority_effect w queueItemId priority q r :
  faults w = [] ->
  NoDup (map qi_id (queueItems (db w))) ->
  In q (queueItems (db w)) -> qi_id q = queueItemId ->
  priorityRank priority = Some r ->
  let after := snd (changePriority queueItemId priority w) in
  fst (changePriority queueItemId priority w)
  = Ret (Priority200 (rerank_item r (clock w) q))
  /\ ((priority = "high" /\ r = 1) \/ (priority = "low" /\ r = 10)
      \/ (priority <> "high" /\ priority <> "low" /\ r = 5))
  /\ (forall q', In q' (queueItems (db after)) <->
                 (In q' (queueItems (db w)) /\ qi_id q' <> queueItemId)
                 \/ q' = rerank_item r (clock w) q)
  /\ jobs (db after) = jobs (db w)
  /\ printers (db after) = printers (db w)
  /\ telemetry (db after) = telemetry (db w).
Proof.
  intros F ND Hq Hid Hr after. subst after.
  rewrite (changePriority_no_fault w queueItemId priority q r F ND Hq Hid Hr).
  cbn [fst snd db queueItems jobs printers telemetry with_queueItems].
  split; [reflexivity|].
  split; [now apply priorityRank_values|].
  split; [|auto].
  intro q'. split.
  - intro H. apply set_priority_rows in H.
    destruct H as [H|(q0 & H0 & E0 & ->)]; [now left|right].
    f_equal. apply (NoDup_map_injective qi_id (queueItems (db w))); auto. congruence.
  - intros [[H Hne]| ->].
    + now apply set_priority_other.
    + now apply set_priority_hit.
Qed.

Lemma changePriority_effect_witness :
  fst (changePriority 2 "urgent" calm)
  = Ret (Priority200 (rerank_item 5 1000 (mkQueueItem 2 2 None 1 "queued" 2 2))).
Proof.
  refine (proj1 (changePriority_effect calm 2 "urgent"
                   (mkQueueItem 2 2 None 1 "queued" 2 2) 5 eq_refl _ _ eq_refl eq_refl)).
  - repeat constructor; cbn; intuition discriminate.
  - right. left. reflexivity.
Defined.

(** X6.  Changing the priority of an entry that does not exist, or with a
    label that is a property every JavaScript object inherits (such as
    [constructor] or [toString]), answers 500 and leaves the database and the
    socket untouched, whatever the storage does. *)
Theorem changePriority_rejects w queueItemId priority :
  findQueueItem queueItemId (db w) = None \/ inherited_key priority = true ->
  fst (changePriority queueItemId priority w) = Ret PriorityFailed500
  /\ db (snd (changePriority queueItemId priority w)) = db w
  /\ emitted (snd (changePriority queueItemId priority w)) = emitted w.
Proof.
  intro H. unfold changePriority, try_catch, bind.
  destruct (priorityRank priority) as [r|] eqn:Hr.
  - destruct H as [Hnone|Hinh].
    + unfold queueItem_update_priority, write. rewrite Hnone.
      destruct (faults w) as [|[|] rest]; cbn; auto.
    + exfalso. unfold priorityRank in Hr.
      destruct (String.eqb_spec priority "high") as [->|_]; [discriminate|].
      destruct (String.eqb_spec priority "medium") as [->|_]; [discriminate|].
      destruct (String.eqb_spec priority "low") as [->|_]; [discriminate|].
      rewrite Hinh in Hr. discriminate.
  - cbn. auto.
Qed.

Lemma changePriority_rejects_witness :
  fst (changePriority 2 "toString" calm) = Ret PriorityFailed500
  /\ db (snd (changePriority 2 "toString" calm)) = db calm.
Proof.
  destruct (changePriority_rejects calm 2 "toString" (or_intror eq_refl)) as (H1 & H2 & _).
  split; [exact H1|exact H2].
Defined.

(** X7.  After [high] has been set on a queued, printer-less entry, that
    entry heads the scheduler's candidate list -- it is the next one served --
    provided every other queued, printer-less entry has a rank above 1. *)
Theorem bumped_entry_is_served_next w queueItemId q :
  faults w = [] ->
  NoDup (map qi_id (queueItems (db w))) ->
  In q (queueItems (db w)) -> qi_id q = queueItemId ->
  is_candidate q = true ->
  (forall c, In c (queueItems (db w)) -> is_candidate c = true ->
             qi_id c <> queueItemId -> 1 < qi_priority c) ->
  hd_error (candidates (db (snd (changePriority queueItemId "high" w))))
  = Some (rerank_item 1 (clock w) q).
Proof.
  intros F ND Hq Hid Hc Hothers.
  rewrite (changePriority_no_fault w queueItemId "high" q 1 F ND Hq Hid eq_refl).
  cbn [snd db]. unfold candidates. cbn [queueItems with_queueItems].
  apply orderBy_head_max.
  - apply filter_In. split; [now apply set_priority_hit|exact Hc].
  - apply queue_le_spec. unfold served_before. lia.
  - intros y Hy. apply filter_In in Hy. destruct Hy as [Hy Hyc].
    apply set_priority_rows in Hy.
    destruct Hy as [[Hy Hne]|(q0 & H0 & E0 & ->)].
    + right. specialize (Hothers y Hy Hyc Hne). split.
      * destruct (queue_le y (rerank_item 1 (clock w) q)) eqn:E; [|reflexivity].
        apply queue_le_spec in E. unfold served_before in E. cbn in E. lia.
      * apply queue_le_spec. unfold served_before. cbn. lia.
    + left. f_equal. apply (NoDup_map_injective qi_id (queueItems (db w))); auto.
      congruence.
Qed.

Lemma bumped_entry_is_served_next_witness :
  hd_error (candidates (db (snd (changePriority 2 "high" backlog))))
  = Some (rerank_item 1 1000 (mkQueueItem 2 2 None 10 "queued" 2 2)).
Proof.
  refine (bumped_entry_is_served_next backlog 2 (mkQueueItem 2 2 None 10 "queued" 2 2)
            eq_refl _ _ eq_refl eq_refl _).
  - repeat constructor; cbn; intuition discriminate.
  - right. left. reflexivity.
  - intros c [<-|[<-|[]]] _ Hne; cbn in *; [lia|congruence].
Defined.

Lemma find_deleted id (l : list QueueItem) :
  find (fun q => qi_id q =? id) (filter (fun q => negb (qi_id q =? id)) l) = None.
Proof.
  induction l as [|x l IH]; cbn; [reflexivity|].
  destruct (Z.eqb_spec (qi_id x) id) as [E|E]; cbn; [exact IH|].
  destruct (Z.eqb_spec (qi_id x) id); [contradiction|exact IH].
Qed.

Lemma removeFromQueue_absent id w :
  findQueueItem id (db w) = None -> removeFromQueue id w = (Ret QueueItemNotFound404, w).
Proof.
  intro H. unfold removeFromQueue, try_catch, bind, query, ret. now rewrite H.
Qed.

Lemma removeFromQueue_no_fault w id q j :
  faults w = [] ->
  NoDup (map qi_id (queueItems (db w))) ->
  In q (queueItems (db w)) -> qi_id q = id ->
  In j (jobs (db w)) -> job_id j = qi_jobId q ->
  removeFromQueue id w
  = (Ret Removed200,
     mkWorld
       (with_jobs (map (fun j => if job_id j =? qi_jobId q then cancel_job (clock w) j else j)
                       (jobs (db w)))
          (with_queueItems (filter (fun q => negb (qi_id q =? id)) (queueItems (db w)))
                           (db w)))
       (clock w) (emitted w ++ [MsgQueueUpdated id]) []).
Proof.
  intros F ND Hq Hid Hj Hjid.
  pose proof (findQueueItem_unique id (db w) q ND Hq Hid) as Hfind.
  unfold removeFromQueue. apply try_catch_Ret.
  unfold bind at 1. unfold query at 1. rewrite Hfind.
  unfold queueItem_delete.
  erewrite bind_Ret; [|apply write_no_fault; [exact F|]; rewrite Hfind; reflexivity].
  set (w1 := set_db _ w).
  assert (Hfj : exists j', findJob (qi_jobId q) (db w1) = Some j').
  { apply findJob_found. subst w1. cbn [db set_db jobs with_queueItems].
    rewrite <- Hjid. now apply in_map. }
  destruct Hfj as [j' Hfj].
  unfold job_cancel.
  erewrite bind_Ret; [|apply write_no_fault; [exact F|]; rewrite Hfj; reflexivity].
  unfold bind, emit, ret. subst w1.
  destruct w as [d c em fl]. cbn in F. subst fl. reflexivity.
Qed.

(** X8.  When no write throws, removing an existing entry answers 200; the
    entry is gone and all other entries stay; its job is set to [cancelled]
    but keeps the printer and the start time it had; printers and telemetry
    are not touched; and removing the same entry again answers 404 and changes
    nothing. *)
Theorem removeFromQueue_effect w queueItemId q j :
  faults w = [] ->
  NoDup (map qi_id (queueItems (db w))) ->
  In q (queueItems (db w)) -> qi_id q = queueItemId ->
  In j (jobs (db w)) -> job_id j = qi_jobId q ->
  let after := snd (removeFromQueue queueItemId w) in
  fst (removeFromQueue queueItemId w) = Ret Removed200
  /\ (forall q', In q' (queueItems (db after)) <->
                 In q' (queueItems (db w)) /\ qi_id q' <> queueItemId)
  /\ In (mkJob (job_id j) (job_name j) "cancelled" (job_printerId j) (job_startedAt j)
               (clock w))
        (jobs (db after))
  /\ (forall j', In j' (jobs (db w)) -> job_id j' <> qi_jobId q -> In j' (jobs (db after)))
  /\ printers (db after) = printers (db w)
  /\ telemetry (db after) = telemetry (db w)
  /\ removeFromQueue queueItemId after = (Ret QueueItemNotFound404, after).
Proof.
  intros F ND Hq Hid Hj Hjid after. subst after.
  rewrite (removeFromQueue_no_fault w queueItemId q j F ND Hq Hid Hj Hjid).
  cbn [fst snd db queueItems jobs printers telemetry with_queueItems with_jobs].
  split; [reflexivity|].
  split.
  { intro q'. rewrite filter_In, negb_true_iff, Z.eqb_neq. tauto. }
  split.
  { apply in_map_iff. exists j. split; [|exact Hj].
    destruct (Z.eqb_spec (job_id j) (qi_jobId q)); [reflexivity|congruence]. }
  split.
  { intros j' Hj' Hne. apply in_map_iff. exists j'. split; [|exact Hj'].
    destruct (Z.eqb_spec (job_id j') (qi_jobId q)); congruence. }
  split; [reflexivity|]. split; [reflexivity|].
  apply removeFromQueue_absent. apply find_deleted.
Qed.

Lemma removeFromQueue_effect_witness :
  fst (removeFromQueue 2 calm) = Ret Removed200
  /\ In (mkJob 2 "gear" "cancelled" None None 1000) (jobs (db (snd (removeFromQueue 2 calm)))).
Proof.
  destruct (removeFromQueue_effect calm 2 (mkQueueItem 2 2 None 1 "queued" 2 2)
              (mkJob 2 "gear" "queued" None None 0) eq_refl)
    as (H1 & _ & H3 & _); try reflexivity.
  - repeat constructor; cbn; intuition discriminate.
  - right. left. reflexivity.
  - right. left. reflexivity.
  - split; [exact H1|exact H3].
Defined.

(** ** What a tick leaves for the next one *)

Lemma filter_and {A} (f g : A -> bool) l :
  filter (fun x => f x && g x) l = filter g (filter f l).
Proof.
  induction l as [|x l IH]; cbn; [reflexivity|].
  destruct (f x); cbn; [destruct (g x)|]; now rewrite IH.
Qed.

Lemma assigned_is_no_candidate p t q : is_candidate (assign_item p t q) = false.
Proof. reflexivity. Qed.

Lemma filter_set_queueItem (g : QueueItem -> bool) id p t l :
  (forall q, g (assign_item p t q) = false) ->
  filter g (set_queueItem id p t l) = filter (fun q => g q && negb (qi_id q =? id)) l.
Proof.
  intro Hg. unfold set_queueItem. induction l as [|x l IH]; cbn; [reflexivity|].
  destruct (Z.eqb_spec (qi_id x) id) as [E|E]; cbn.
  - rewrite Hg, andb_false_r. exact IH.
  - rewrite andb_true_r. destruct (g x); now rewrite IH.
Qed.

Lemma commitAll_candidates pairs : forall settings i now d,
  filter is_candidate (queueItems (fst (commitAll settings i now pairs d)))
  = filter (fun q => is_candidate q
                     && negb (existsb (Z.eqb (qi_id q)) (map qi_id (map fst pairs))))
           (queueItems d).
Proof.
  induction pairs as [|[item p] rest IH]; intros settings i now d; cbn [commitAll].
  - cbn. apply filter_ext. intro q. now rewrite andb_true_r.
  - rewrite IH. rows.
    rewrite filter_set_queueItem
      by (intro q; rewrite assigned_is_no_candidate; reflexivity).
    apply filter_ext. intro q. cbn [map fst existsb].
    rewrite negb_orb, <- andb_assoc. f_equal. apply andb_comm.
Qed.

Lemma commitAll_clock pairs : forall settings i now d,
  (forall k, (i <= k < i + length pairs)%nat -> staggers settings k = None) ->
  snd (commitAll settings i now pairs d) = now.
Proof.
  induction pairs as [|[item p] rest IH]; intros settings i now d H; cbn [commitAll];
    [reflexivity|].
  rewrite (H i) by (cbn [length]; lia).
  apply IH. intros k Hk. apply H. cbn [length]. lia.
Qed.

Lemma matchQueue_no_fault_clock settings w :
  faults w = [] -> schema_ok (db w) ->
  clock (snd (matchQueue settings w))
  = snd (commitAll settings 0 (clock w)
           (combine (candidates (db w)) (idlePrinters (db w))) (db w)).
Proof.
  intros F OK. unfold matchQueue, bind, query, ret.
  destruct (Nat.eqb_spec (length (idlePrinters (db w))) 0) as [E|E].
  - apply length_zero_iff_nil in E. rewrite E, combine_nil. reflexivity.
  - destruct (Nat.eqb_spec (length (findQueueItems (length (idlePrinters (db w))) (db w))) 0)
      as [E'|E'].
    + apply length_zero_iff_nil in E'. rewrite <- served_pairs, E'. reflexivity.
    + rewrite served_pairs. rewrite matchLoop_no_fault.
      * reflexivity.
      * exact F.
      * intros item p Hin. apply in_combine_l in Hin.
        apply candidate_in_queue in Hin. destruct Hin as [Hin _].
        split; [now apply in_map|].
        destruct (queue_job_fk _ OK _ Hin) as (j & Hj & Ej).
        rewrite <- Ej. now apply in_map.
Qed.

(** X9.  A tick that does not pause -- warm-up staggering is off, or there is
    at most one pair to commit -- in which no write throws and which
    admission lets through returns with the clock where it was, and the
    candidate list it leaves in the database is the old one without the
    entries just served, in the same order. *)
Theorem tick_drops_the_served_prefix w :
  faults w = [] -> schema_ok (db w) -> fst (processQueue w) <> Ret PeakSkip ->
  let n := Nat.min (length (idlePrinters (db w))) (length (candidates (db w))) in
  (forall s, energySettings (db w) = Some s -> warmupStaggering s = true -> (n <= 1)%nat) ->
  candidates (db (snd (processQueue w))) = skipn n (candidates (db w))
  /\ clock (snd (processQueue w)) = clock w.
Proof.
  intros F OK Hgate n Hpause.
  set (d := db w).
  assert (Hpass : processQueue w = try_catch (matchQueue (energySettings d)) (ret Caught) w).
  { apply processQueue_gate_open. intros s e S L P G. apply Hgate.
    now rewrite (processQueue_gate_shut w s e S L P G). }
  destruct (matchQueue_no_fault (energySettings d) w F OK) as (x & w' & Hrun & Hdb).
  pose proof (matchQueue_no_fault_clock (energySettings d) w F OK) as Hclock.
  rewrite Hpass. unfold try_catch. rewrite Hrun in *. cbn [snd] in *. split.
  - rewrite Hdb.
    unfold candidates at 1. rewrite commitAll_candidates.
    rewrite filter_and. rewrite <- orderBy_filter
      by (first [apply queue_le_total | apply queue_le_trans]).
    change (orderBy queue_le (filter is_candidate (queueItems (db w)))) with (candidates d).
    rewrite map_fst_combine.
    replace (firstn (length (idlePrinters (db w))) (candidates (db w)))
      with (firstn n (candidates d)) by (symmetry; apply firstn_min).
    pose proof (candidates_ids_NoDup d (queue_pk _ OK)) as ND.
    rewrite <- (firstn_skipn n (candidates d)) in ND.
    pose proof (delete_prefix_by_key qi_id _ _ ND) as H.
    rewrite firstn_skipn in H. exact H.
  - rewrite Hclock. apply commitAll_clock.
    intros k Hk. rewrite length_combine in Hk.
    unfold staggers. destruct (energySettings d) as [s|] eqn:S; [|reflexivity].
    destruct (warmupStaggering s) eqn:Ws; [|reflexivity].
    specialize (Hpause s S Ws). subst n.
    assert (k = 0%nat) by lia. subst k. reflexivity.
Qed.

Lemma tick_drops_the_served_prefix_witness :
  warmupStaggering settings6 = true
  /\ candidates (db calm)
     = [mkQueueItem 2 2 None 1 "queued" 2 2; mkQueueItem 1 1 None 5 "queued" 1 1]
  /\ candidates (db (snd (processQueue calm))) = [mkQueueItem 1 1 None 5 "queued" 1 1]
  /\ clock (snd (processQueue calm)) = 1000.
Proof.
  assert (Hgate : fst (processQueue calm) <> Ret PeakSkip) by (vm_compute; discriminate).
  assert (Hpause : forall s, energySettings (db calm) = Some s -> warmupStaggering s = true ->
                     (Nat.min (length (idlePrinters (db calm))) (length (candidates (db calm)))
                      <= 1)%nat)
    by (intros s _ _; vm_compute; lia).
  destruct (tick_drops_the_served_prefix calm eq_refl calm_schema_ok Hgate Hpause) as [H1 H2].
  split; [reflexivity|]. split; [reflexivity|]. split; [exact H1|exact H2].
Defined.

(** ** Start-up report *)

Lemma started_job_is_in_progress p t j l :
  In (start_job p t j) l ->
  In (start_job p t j)
     (filter (fun j => (job_status j =? "printing")%string
                       && negb (optZ_eqb (job_printerId j) None)) l).
Proof. intro H. apply filter_In. split; [exact H|reflexivity]. Qed.

Lemma set_job_absent id p t l : ~ In id (map job_id l) -> set_job id p t l = l.
Proof.
  induction l as [|x l IH]; cbn; intro H; [reflexivity|].
  destruct (Z.eqb_spec (job_id x) id); [tauto|]. f_equal. apply IH. tauto.
Qed.

Lemma count_set_job (f : Job -> bool) p t l j :
  (forall j', f (start_job p t j') = true) ->
  NoDup (map job_id l) -> In j l -> f j = false ->
  length (filter f (set_job (job_id j) p t l)) = S (length (filter f l)).
Proof.
  intro Hf. induction l as [|x l IH]; intros ND Hin Hj; [contradiction|].
  inversion ND as [|? ? Hx ND']; subst.
  destruct Hin as [->|Hin].
  - cbn. rewrite Z.eqb_refl, Hf, Hj. cbn.
    change (map _ l) with (set_job (job_id j) p t l).
    now rewrite set_job_absent.
  - cbn. destruct (Z.eqb_spec (job_id x) (job_id j)) as [E|E].
    + exfalso. apply Hx. rewrite E. now apply in_map.
    + change (map _ l) with (set_job (job_id j) p t l).
      destruct (f x); cbn; now rewrite IH.
Qed.

Lemma commitAll_job_ids pairs : forall settings i now d,
  map job_id (jobs (fst (commitAll settings i now pairs d))) = map job_id (jobs d).
Proof.
  induction pairs as [|[item p] rest IH]; intros; cbn [commitAll]; [reflexivity|].
  rewrite IH. rows. apply set_job_ids.
Qed.

Lemma commitAll_in_progress pairs : forall settings i now d,
  NoDup (map job_id (jobs d)) ->
  NoDup (map qi_jobId (map fst pairs)) ->
  (forall item, In item (map fst pairs) ->
     exists j, In j (jobs d) /\ job_id j = qi_jobId item /\ ~ In j (inProgressJobs d)) ->
  length (inProgressJobs (fst (commitAll settings i now pairs d)))
  = (length (inProgressJobs d) + length pairs)%nat.
Proof.
  induction pairs as [|[item p] rest IH]; intros settings i now d NDj ND Hall;
    cbn [commitAll length].
  - cbn [fst]. lia.
  - cbn in ND. inversion ND as [|? ? Hx ND']; subst.
    destruct (Hall item (or_introl eq_refl)) as (j & Hj & Ej & Hnot).
    set (now' := match staggers settings i with Some ms => now + ms | None => now end).
    rewrite IH.
    + unfold inProgressJobs at 1. rows. rewrite <- Ej.
      rewrite count_set_job.
      * unfold inProgressJobs. lia.
      * reflexivity.
      * exact NDj.
      * exact Hj.
      * destruct (_ && _) eqn:E; [|reflexivity].
        exfalso. apply Hnot. unfold inProgressJobs. apply filter_In. auto.
    + rows. now rewrite set_job_ids.
    + exact ND'.
    + intros item' Hin'. destruct (Hall item' (or_intror Hin')) as (j' & Hj' & Ej' & Hnot').
      assert (Hne : job_id j' <> qi_jobId item).
      { rewrite Ej'. intro E. apply Hx. rewrite <- E. now apply in_map. }
      exists j'. split; [rows; now apply set_job_other|]. split; [exact Ej'|].
      intro Hin. apply Hnot'. unfold inProgressJobs in *.
      unfold commit_pair in Hin. cbn [jobs with_jobs with_queueItems] in Hin.
      apply filter_In in Hin. destruct Hin as [Hin Hf]. apply filter_In. split; [|exact Hf].
      unfold set_job in Hin. apply in_map_iff in Hin. destruct Hin as (j0 & E0 & H0).
      destruct (Z.eqb_spec (job_id j0) (qi_jobId item)) as [E1|E1]; [|now subst].
      exfalso. apply Hne. rewrite <- E0. exact E1.
Qed.

(** X10.  [restoreQueueState] only reports: it returns the number of jobs
    that are [printing] on a printer and changes nothing.  Run right after a
    tick in which no write throws and which admission lets through, it
    reports exactly as many more jobs as the tick committed pairs, provided
    none of the served entries' jobs was already printing on a printer. *)
Theorem startup_report_counts_committed_jobs w :
  faults w = [] -> schema_ok (db w) -> NoDup (map job_id (jobs (db w))) ->
  fst (processQueue w) <> Ret PeakSkip ->
  let d := db w in
  let n := Nat.min (length (idlePrinters d)) (length (candidates d)) in
  (forall item j, In item (firstn n (candidates d)) -> In j (jobs d) ->
                  job_id j = qi_jobId item -> ~ In j (inProgressJobs d)) ->
  restoreQueueState w = (Ret (length (inProgressJobs d)), w)
  /\ restoreQueueState (snd (processQueue w))
     = (Ret (length (inProgressJobs d) + n)%nat, snd (processQueue w)).
Proof.
  intros F OK NDj Hgate d n Hfresh.
  split; [reflexivity|].
  assert (Hpass : processQueue w = try_catch (matchQueue (energySettings d)) (ret Caught) w).
  { apply processQueue_gate_open. intros s e S L P G. apply Hgate.
    now rewrite (processQueue_gate_shut w s e S L P G). }
  destruct (matchQueue_no_fault (energySettings d) w F OK) as (x & w' & Hrun & Hdb).
  assert (Hafter : snd (processQueue w) = w').
  { rewrite Hpass. unfold try_catch. now rewrite Hrun. }
  rewrite Hafter.
  unfold restoreQueueState, try_catch, bind, query, ret. cbn [fst snd]. rewrite Hdb.
  set (served := combine (candidates (db w)) (idlePrinters (db w))).
  assert (Hfst : map fst served = firstn n (candidates d)).
  { subst served n. rewrite map_fst_combine. apply firstn_min. }
  assert (Hlen : length served = n).
  { subst served n. rewrite length_combine. apply Nat.min_comm. }
  rewrite commitAll_in_progress, Hlen; auto.
  - rewrite Hfst. apply NoDup_firstn_map. apply candidates_jobIds_NoDup. apply OK.
  - intros item Hin. rewrite Hfst in Hin.
    assert (Hq : In item (queueItems d)).
    { apply In_firstn in Hin. now apply candidate_in_queue in Hin. }
    destruct (queue_job_fk _ OK _ Hq) as (j & Hj & Ej).
    exists j. split; [exact Hj|]. split; [exact Ej|]. now apply (Hfresh item j).
Qed.

Lemma startup_report_counts_committed_jobs_witness :
  restoreQueueState (snd (processQueue calm)) = (Ret 1%nat, snd (processQueue calm)).
Proof.
  assert (OK : schema_ok (db calm)).
  { constructor; cbn.
    - repeat constructor; cbn; intuition discriminate.
    - repeat constructor; cbn; intuition discriminate.
    - intros q [<-|[<-|[]]]; eexists;
        [split; [left; reflexivity|reflexivity]
        |split; [right; left; reflexivity|reflexivity]]. }
  assert (Hgate : fst (processQueue calm) <> Ret PeakSkip) by (vm_compute; discriminate).
  refine (proj2 (startup_report_counts_committed_jobs calm eq_refl OK _ Hgate _)).
  - repeat constructor; cbn; intuition discriminate.
  - intros item j _ _ _ [].
Defined.

(** ** Energy routes *)

(** X11.  Fetching the settings on a database that has no settings row
    inserts the column defaults (limit 6 kW, peak protection on) and answers
    with them; fetching again changes nothing.  The insert arms the energy
    gate: with a latest reading at or above 5.4 kW the scheduler tick was let
    through before the fetch and is skipped after it. *)
Theorem fetching_settings_arms_the_gate w e :
  hd false (faults w) = false ->
  energySettings (db w) = None ->
  latestEnergyReading (db w) = Some e ->
  over_threshold default_settings e ->
  let after := snd (getEnergySettings w) in
  fst (getEnergySettings w) = Ret (Settings200 default_settings)
  /\ energySettings (db after) = Some default_settings
  /\ getEnergySettings after = (Ret (Settings200 default_settings), after)
  /\ fst (processQueue w) <> Ret PeakSkip
  /\ processQueue after = (Ret PeakSkip, after).
Proof.
  intros F Hnone L G after.
  assert (E : getEnergySettings w
              = (Ret (Settings200 default_settings),
                 set_db (with_energySettings (Some default_settings) (db w))
                        (set_faults (tl (faults w)) w))).
  { unfold getEnergySettings, try_catch, bind, query, energySettings_create, write, ret.
    rewrite Hnone. destruct (faults w) as [|[|] rest]; cbn in F; try discriminate;
      cbn; rewrite Hnone; reflexivity. }
  subst after. rewrite E. cbn [fst snd].
  split; [reflexivity|]. split; [reflexivity|]. split; [reflexivity|]. split.
  - rewrite processQueue_gate_open by (intros; congruence).
    apply caught_tick_never_PeakSkip.
  - apply (processQueue_gate_shut _ default_settings e); auto.
Qed.

Lemma fetching_settings_arms_the_gate_witness :
  processQueue (snd (getEnergySettings
                       (mkWorld (with_energySettings None (shop 5.5)) 1000 [] [])))
  = (Ret PeakSkip,
     snd (getEnergySettings (mkWorld (with_energySettings None (shop 5.5)) 1000 [] []))).
Proof.
  refine (proj2 (proj2 (proj2 (proj2
            (fetching_settings_arms_the_gate
               (mkWorld (with_energySettings None (shop 5.5)) 1000 [] [])
               (mkEnergyReading 5.5 6 0 "calculated" 100) eq_refl eq_refl eq_refl _))))).
  vm_compute. reflexivity.
Defined.

Lemma newer_total (a b : EnergyReading) :
  (er_recordedAt b <=? er_recordedAt a) = true \/ (er_recordedAt a <=? er_recordedAt b) = true.
Proof. rewrite !Z.leb_le. lia. Qed.

Lemma newer_trans (a b c : EnergyReading) :
  (er_recordedAt b <=? er_recordedAt a) = true ->
  (er_recordedAt c <=? er_recordedAt b) = true ->
  (er_recordedAt c <=? er_recordedAt a) = true.
Proof. rewrite !Z.leb_le. lia. Qed.

Lemma sorted_impl {A} (R R' : A -> A -> Prop) l :
  (forall a b, R a b -> R' a b) -> StronglySorted R l -> StronglySorted R' l.
Proof.
  intros H S. induction S as [|a l Hs IH Hall]; constructor; auto.
  eapply Forall_impl; [|exact Hall]. auto.
Qed.

Lemma hd_error_firstn {A} n (l : list A) :
  (0 < n)%nat -> hd_error (firstn n l) = hd_error l.
Proof. destruct n; [lia|]. now destruct l. Qed.

(** X12.  The handler of the readings route never changes the database.
    When its query throws it answers 500; otherwise it answers 200 with the
    most recent readings, at most 100 of them, oldest first, and the last
    element of the list is the reading both energy gates look at. *)
Theorem energy_chart_ends_at_gate_reading w :
  db (snd (getEnergyReadings w)) = db w
  /\ (hd false (faults w) = true -> fst (getEnergyReadings w) = Ret ReadingsFailed500)
  /\ (hd false (faults w) = false ->
      exists readings,
        fst (getEnergyReadings w) = Ret (Readings200 readings)
        /\ StronglySorted (fun a b => er_recordedAt a <= er_recordedAt b) readings
        /\ length readings = Nat.min 100 (length (energyReadings (db w)))
        /\ (forall r, In r readings -> In r (energyReadings (db w)))
        /\ hd_error (rev readings) = latestEnergyReading (db w)).
Proof.
  unfold getEnergyReadings, try_catch, bind, ret.
  set (f := fun d => firstn 100 (orderBy (fun a b => er_recordedAt b <=? er_recordedAt a)
                                         (energyReadings d))).
  destruct (read_result f w) as (Hdb & Hthrow & Hret).
  destruct (read f w) as [[readings|] w'] eqn:E; cbn [fst snd] in *.
  - split; [exact Hdb|]. split.
    + intro F. specialize (Hthrow F). discriminate.
    + intro F. specialize (Hret F). injection Hret as ->.
      set (sorted := orderBy (fun a b => er_recordedAt b <=? er_recordedAt a)
                             (energyReadings (db w))).
      exists (rev (firstn 100 sorted)).
      split; [reflexivity|].
      assert (P : Permutation sorted (energyReadings (db w))) by apply orderBy_perm.
      split.
      * assert (S : StronglySorted (fun a b => er_recordedAt b <= er_recordedAt a)
                      (firstn 100 sorted)).
        { apply sorted_firstn.
          apply (sorted_impl (fun a b => (er_recordedAt b <=? er_recordedAt a) = true)).
          - intros a b H. now apply Z.leb_le.
          - apply orderBy_sorted; [apply newer_total|apply newer_trans]. }
        apply (sorted_rev _ _ S).
      * split; [now rewrite length_rev, length_firstn, (Permutation_length P)|].
        split.
        -- intros r Hr. apply in_rev in Hr. apply In_firstn in Hr.
           now apply (Permutation_in _ P).
        -- rewrite rev_involutive. apply hd_error_firstn. lia.
  - split; [exact Hdb|]. split; [reflexivity|].
    intro F. specialize (Hret F). discriminate.
Qed.

Lemma energy_chart_ends_at_gate_reading_witness :
  (exists readings,
     fst (getEnergyReadings three_readings) = Ret (Readings200 readings)
     /\ hd_error (rev readings) = Some (mkEnergyReading 5.5 6 1 "calculated" 300))
  /\ fst (getEnergyReadings (mkWorld (db three_readings) 1000 [] [true]))
     = Ret ReadingsFailed500.
Proof.
  split.
  - destruct (proj2 (proj2 (energy_chart_ends_at_gate_reading three_readings)) eq_refl)
      as (readings & E & _ & _ & _ & H).
    exists readings. split; [exact E|]. rewrite H. reflexivity.
  - exact (proj1 (proj2 (energy_chart_ends_at_gate_reading
                           (mkWorld (db three_readings) 1000 [] [true]))) eq_refl).
Defined.

(** ** Load calculation *)

Lemma distinctBy_spec {A} (key : A -> Z) rows : forall seen t,
  In t (distinctBy key seen rows)
  <-> ~ In (key t) seen
      /\ hd_error (filter (fun r => key r =? key t) rows) = Some t.
Proof.
  induction rows as [|r rest IH]; intros seen t; cbn [distinctBy filter].
  - cbn. split; [tauto|intros [_ H]; discriminate].
  - destruct (existsb (Z.eqb (key r)) seen) eqn:E.
    + apply id_listed in E. rewrite IH.
      destruct (Z.eqb_spec (key r) (key t)) as [K|K]; [|reflexivity].
      rewrite <- K. tauto.
    + assert (Hr : ~ In (key r) seen).
      { intro H. apply id_listed in H. congruence. }
      cbn [In]. rewrite IH. cbn [In].
      destruct (Z.eqb_spec (key r) (key t)) as [K|K]; cbn [hd_error].
      * rewrite <- K. split.
        -- intros [->|[H _]]; [auto|tauto].
        -- intros [_ H]. left. congruence.
      * split.
        -- intros [->|[H1 H2]]; [congruence|]. tauto.
        -- intros [H1 H2]. right. split; [|exact H2]. intros [H|H]; auto.
Qed.

Lemma distinctBy_NoDup {A} (key : A -> Z) rows : forall seen,
  NoDup (map key (distinctBy key seen rows)).
Proof.
  induction rows as [|r rest IH]; intro seen; cbn [distinctBy]; [constructor|].
  destruct (existsb (Z.eqb (key r)) seen); [apply IH|].
  cbn. constructor; [|apply IH].
  intro H. apply in_map_iff in H. destruct H as (t & K & Ht).
  apply distinctBy_spec in Ht. destruct Ht as [Hseen _]. apply Hseen. left. auto.
Qed.

Lemma desc_total (a b : PrinterTelemetry) :
  (pt_recordedAt b <=? pt_recordedAt a) = true \/ (pt_recordedAt a <=? pt_recordedAt b) = true.
Proof. rewrite !Z.leb_le. lia. Qed.

Lemma desc_trans (a b c : PrinterTelemetry) :
  (pt_recordedAt b <=? pt_recordedAt a) = true ->
  (pt_recordedAt c <=? pt_recordedAt b) = true ->
  (pt_recordedAt c <=? pt_recordedAt a) = true.
Proof. rewrite !Z.leb_le. lia. Qed.

Lemma latestTelemetryOf_first pid d :
  latestTelemetryOf pid d
  = hd_error (filter (fun t => pt_printerId t =? pid)
                (orderBy (fun a b => pt_recordedAt b <=? pt_recordedAt a) (telemetry d))).
Proof.
  unfold latestTelemetryOf. now rewrite orderBy_filter by (apply desc_total || apply desc_trans).
Qed.

Lemma distinctBy_subset {A} (key : A -> Z) rows : forall seen t,
  In t (distinctBy key seen rows) -> In t rows.
Proof.
  induction rows as [|r rest IH]; intros seen t; cbn [distinctBy]; [tauto|].
  destruct (existsb (Z.eqb (key r)) seen).
  - intro H. right. now apply (IH seen).
  - intros [->|H]; [now left|right; now apply (IH (key r :: seen))].
Qed.

Lemma distinctBy_sorted {A} (key : A -> Z) (R : A -> A -> Prop) rows : forall seen,
  StronglySorted R rows -> StronglySorted R (distinctBy key seen rows).
Proof.
  induction rows as [|r rest IH]; intros seen S; cbn [distinctBy]; [constructor|].
  inversion S as [|? ? S' Hall]; subst.
  destruct (existsb (Z.eqb (key r)) seen); [now apply IH|].
  constructor; [now apply IH|].
  rewrite Forall_forall in *. intros t Ht. apply Hall. now apply distinctBy_subset in Ht.
Qed.

(** A row whose key was already seen leaves the result of [distinct] as it
    is, wherever the sort puts it. *)
Lemma distinctBy_insert_seen {A} (key : A -> Z) (le : A -> A -> bool) r rows : forall seen,
  In (key r) seen ->
  distinctBy key seen (insert_row le r rows) = distinctBy key seen rows.
Proof.
  assert (Hskip : forall seen l, In (key r) seen ->
                    distinctBy key seen (r :: l) = distinctBy key seen l).
  { intros seen l H. cbn [distinctBy]. apply id_listed in H. now rewrite H. }
  induction rows as [|y rest IH]; intros seen H; cbn [insert_row].
  - now apply Hskip.
  - destruct (le r y); [now apply Hskip|].
    cbn [distinctBy]. destruct (existsb (Z.eqb (key y)) seen).
    + now apply IH.
    + f_equal. apply IH. now right.
Qed.

(** A row that is strictly older than a stored row with the same key does
    not show up in the result of the sorted [distinct] query. *)
Lemma distinctBy_insert_older (r t : PrinterTelemetry) rows : forall seen,
  StronglySorted (fun a b => (pt_recordedAt b <=? pt_recordedAt a) = true) rows ->
  In t rows -> pt_printerId t = pt_printerId r -> pt_recordedAt r < pt_recordedAt t ->
  distinctBy pt_printerId seen
    (insert_row (fun a b => pt_recordedAt b <=? pt_recordedAt a) r rows)
  = distinctBy pt_printerId seen rows.
Proof.
  induction rows as [|y rest IH]; intros seen S Hin Hkey Hold; [contradiction|].
  inversion S as [|? ? S' Hall]; subst. rewrite Forall_forall in Hall.
  cbn [insert_row].
  destruct (pt_recordedAt y <=? pt_recordedAt r) eqn:E.
  - exfalso. apply Z.leb_le in E.
    destruct Hin as [->|Hin]; [lia|].
    specialize (Hall t Hin). apply Z.leb_le in Hall. lia.
  - cbn [distinctBy]. destruct (existsb (Z.eqb (pt_printerId y)) seen) eqn:Ey.
    + destruct Hin as [->|Hin].
      * apply distinctBy_insert_seen. rewrite <- Hkey. now apply id_listed.
      * now apply IH.
    + f_equal. destruct Hin as [->|Hin].
      * apply distinctBy_insert_seen. left. exact Hkey.
      * now apply IH.
Qed.

Lemma latestPerPrinter_older r t d :
  In t (telemetry d) -> pt_printerId t = pt_printerId r -> pt_recordedAt r < pt_recordedAt t ->
  latestPerPrinter (with_telemetry (r :: telemetry d) (telemetrySeq d) d) = latestPerPrinter d.
Proof.
  intros Hin Hkey Hold. unfold latestPerPrinter. cbn [telemetry with_telemetry orderBy].
  apply (distinctBy_insert_older r t); auto.
  - apply orderBy_sorted; [apply desc_total|apply desc_trans].
  - apply (Permutation_in _ (Permutation_sym (orderBy_perm _ _))). exact Hin.
Qed.

Lemma read_no_fault {A} (f : Db -> A) w : faults w = [] -> read f w = (Ret (f (db w)), w).
Proof.
  intro F. unfold read. rewrite F. cbn. destruct w; cbn in *; now subst.
Qed.

Lemma readEnergyLoad_no_fault w :
  faults w = [] ->
  readEnergyLoad None w
  = (Ret (Some (mkLoadReading
                  (toFixed2 (js_plus (Number_of (baseLoad (energySettings (db w))))
                                     (printerLoad (latestPerPrinter (db w)))))
                  "calculated")), w).
Proof.
  intro F. unfold readEnergyLoad. apply try_catch_Ret.
  rewrite (bind_Ret _ _ _ _ _ (read_no_fault energySettings w F)).
  rewrite (bind_Ret _ _ _ _ _ (read_no_fault latestPerPrinter w F)).
  reflexivity.
Qed.

(** X13.  Without a meter value, and with both queries answering, the load
    is the base load plus the energy draw of exactly one reading per printer
    that has any -- its latest one, the same reading the scheduler and the
    manual route consult -- added up in binary64 from the newest reading to
    the oldest and rounded to two decimals; an older reading of a printer
    does not change the result; a missing settings row or a base load of 0
    counts as 1.2.  When the first query throws the result is [null].  With
    a meter value the database is not consulted. *)
Theorem load_counts_latest_reading_per_printer w :
  let counted := latestPerPrinter (db w) in
  (hd false (faults w) = true -> readEnergyLoad None w = (Ret None, set_faults (tl (faults w)) w))
  /\ (faults w = [] ->
      readEnergyLoad None w
      = (Ret (Some (mkLoadReading
                      (toFixed2 (js_plus (Number_of (baseLoad (energySettings (db w))))
                                         (printerLoad counted)))
                      "calculated")), w)
      /\ forall r t,
           In t (telemetry (db w)) -> pt_printerId t = pt_printerId r ->
           pt_recordedAt r < pt_recordedAt t ->
           fst (readEnergyLoad None
                  (set_db (with_telemetry (r :: telemetry (db w)) (telemetrySeq (db w)) (db w))
                          w))
           = fst (readEnergyLoad None w))
  /\ NoDup (map pt_printerId counted)
  /\ (forall t, In t counted <-> latestTelemetryOf (pt_printerId t) (db w) = Some t)
  /\ StronglySorted (fun a b => pt_recordedAt b <= pt_recordedAt a) counted
  /\ (forall s, energySettings (db w) = Some s -> (baseLoadKw s == 0)%Q ->
                baseLoad (energySettings (db w)) = 1.2%Q)
  /\ (energySettings (db w) = None -> baseLoad (energySettings (db w)) = 1.2%Q)
  /\ (forall register,
        readEnergyLoad (Some register) w
        = (Ret (Some (mkLoadReading (js_div (Number_of (inject_Z register)) (Number_of 100))
                                    "modbus")), w)).
Proof.
  intro counted. split; [|split; [|split; [|split; [|split; [|split; [|split]]]]]].
  - intro F. unfold readEnergyLoad, try_catch, bind, read, ret.
    destruct (faults w) as [|[|] rest]; cbn in F; try discriminate. reflexivity.
  - intro F. split; [now apply readEnergyLoad_no_fault|].
    intros r t Hin Hkey Hold.
    rewrite (readEnergyLoad_no_fault w F), readEnergyLoad_no_fault by exact F.
    cbn [fst db set_db]. rewrite (latestPerPrinter_older r t) by assumption.
    reflexivity.
  - apply distinctBy_NoDup.
  - intro t. subst counted. unfold latestPerPrinter.
    rewrite distinctBy_spec, latestTelemetryOf_first. cbn [In]. tauto.
  - apply distinctBy_sorted.
    apply (sorted_impl (fun a b => (pt_recordedAt b <=? pt_recordedAt a) = true)).
    + intros a b H. now apply Z.leb_le.
    + apply orderBy_sorted; [apply desc_total|apply desc_trans].
  - intros s -> Hz. cbn. unfold or_default. apply Qeq_bool_iff in Hz. now rewrite Hz.
  - now intros ->.
  - reflexivity.
Qed.

Lemma load_counts_latest_reading_per_printer_witness :
  readEnergyLoad None metered
  = (Ret (Some (mkLoadReading (Number_of 1.52) "calculated")), metered)
  /\ latestPerPrinter (db metered)
     = [mkPrinterTelemetry 2 1 210 60 60 0.325 "printing" true 0 20]
  /\ fst (readEnergyLoad None
            (set_db (with_telemetry
                       (mkPrinterTelemetry 3 1 0 0 0 2 "idle" true 0 5 :: telemetry (db metered))
                       2 (db metered)) metered))
     = fst (readEnergyLoad None metered).
Proof.
  destruct (load_counts_latest_reading_per_printer metered) as (_ & H & _).
  destruct (H eq_refl) as [E Hold].
  split; [|split].
  - rewrite E. vm_compute. reflexivity.
  - vm_compute. reflexivity.
  - apply (Hold (mkPrinterTelemetry 3 1 0 0 0 2 "idle" true 0 5)
                (mkPrinterTelemetry 2 1 210 60 60 0.325 "printing" true 0 20)).
    + right. left. reflexivity.
    + reflexivity.
    + reflexivity.
Defined.

(** ** Power-draw estimate, bounds *)





(** ** Status vocabulary *)

Lemma keeps_ret {A} I (a : A) : keeps I (ret a).
Proof. intros w H. exact H. Qed.

Lemma keeps_emit I msg : keeps I (emit msg).
Proof. intros w H. exact H. Qed.

Lemma keeps_invalid_argument {A} I : keeps I (@invalid_argument A).
Proof. intros w H. exact H. Qed.

Lemma keeps_bind {A B} I (m : M A) (k : A -> M B) :
  keeps I m -> (forall a, keeps I (k a)) -> keeps I (bind m k).
Proof.
  intros Hm Hk w H. unfold bind. specialize (Hm w H).
  destruct (m w) as [[a|] w1]; cbn [snd] in *; [now apply Hk|exact Hm].
Qed.

Lemma keeps_query {A B} I (f : Db -> A) (k : A -> M B) :
  (forall a, keeps I (k a)) -> keeps I (bind (query f) k).
Proof. intros Hk. apply keeps_bind; [intros w H; exact H|exact Hk]. Qed.

Lemma keeps_try_catch {A} I (m h : M A) : keeps I m -> keeps I h -> keeps I (try_catch m h).
Proof.
  intros Hm Hh w H. unfold try_catch. specialize (Hm w H).
  destruct (m w) as [[a|] w1]; cbn [snd] in *; [exact Hm|now apply Hh].
Qed.

Lemma keeps_write {A} I (f : Z -> Db -> option (A * Db)) :
  (forall now d a d', I d -> f now d = Some (a, d') -> I d') -> keeps I (write f).
Proof.
  intros Hf w H. unfold write.
  destruct (faults w) as [|[|] rest]; cbn [snd db set_faults];
    try exact H;
    destruct (f (clock w) (db w)) as [[a d']|] eqn:E; cbn [snd db set_db set_faults];
    try exact H; now apply (Hf (clock w) (db w) a d').
Qed.

Lemma mapKlipperStatus_range state status :
  mapKlipperStatus state = StatusText status ->
  In status ["printing"; "paused"; "idle"; "error"; "offline"].
Proof.
  destruct state as [key|]; cbn [mapKlipperStatus].
  - repeat match goal with
    | |- context [if ?c then _ else _] => destruct c
    end; intros [= <-] || discriminate; cbn; tauto.
  - intros [= <-]. cbn. tauto.
Qed.

Lemma pollPrinter_range printer response status :
  pd_status (pollPrinter printer response) = StatusText status ->
  In status ["printing"; "paused"; "idle"; "error"; "offline"].
Proof.
  destruct response as [data|]; cbn [pollPrinter pd_status].
  - apply mapKlipperStatus_range.
  - intros [= <-]. cbn. tauto.
Qed.

Lemma pollOne_known_status rows0 io printer response :
  keeps (known_status rows0) (pollOne io printer response).
Proof.
  unfold pollOne. apply keeps_bind.
  { unfold telemetry_create.
    destruct (pd_status (pollPrinter printer response)) as [status|key] eqn:Hs;
      [|apply keeps_invalid_argument].
    apply keeps_write. intros now d a d' H [= _ <-] t Ht.
    cbn [telemetry with_telemetry] in Ht. apply in_app_iff in Ht.
    destruct Ht as [Ht|[<-|[]]]; [now apply H|].
    right. cbn [pt_status]. now apply (pollPrinter_range printer response). }
  intros _. apply keeps_bind.
  { destruct io; [|apply keeps_ret].
    apply keeps_bind; [apply keeps_emit|intros _; apply keeps_emit]. }
  intros _. apply keeps_bind.
  { destruct (negb (Qle_bool _ _)); [|apply keeps_ret].
    apply keeps_bind.
    - unfold printerEvent_create. apply keeps_write. intros now d a d' H [= _ <-]. exact H.
    - intros _. destruct io; [apply keeps_emit|apply keeps_ret]. }
  intros _. apply keeps_query. intro count.
  destruct (500 <? count)%nat; [|apply keeps_ret].
  apply keeps_query. intro oldest.
  unfold telemetry_deleteMany. apply keeps_write. intros now d a d' H [= _ <-] t Ht.
  cbn [telemetry with_telemetry] in Ht. apply filter_In in Ht. now apply H.
Qed.

Lemma pollLoop_known_status rows0 io network ps :
  keeps (known_status rows0) (pollLoop io network ps).
Proof.
  induction ps as [|printer rest IH]; cbn [pollLoop]; [apply keeps_ret|].
  apply keeps_bind; [apply pollOne_known_status|intros _; exact IH].
Qed.

Lemma pollOne_member io printer response w :
  names_prototype_member response = true ->
  pollOne io printer response w = (Throw, w).
Proof.
  intro H. destruct (pollPrinter_member printer response H) as [key Hs].
  unfold pollOne, telemetry_create. rewrite Hs. reflexivity.
Qed.

Lemma pollLoop_stops io network before p rest w :
  names_prototype_member (network p) = true ->
  pollLoop io network (before ++ p :: rest) w
  = (Throw, snd (pollLoop io network before w)).
Proof.
  intro H. revert w. induction before as [|q before IH]; intro w; cbn [app pollLoop].
  - unfold bind. now rewrite (pollOne_member io p (network p) w H).
  - unfold bind.
    destruct (pollOne io q (network q) w) as [[[]|] w1]; [apply IH|reflexivity].
Qed.

(** X15.  Whatever the printers answer and whichever storage calls throw,
    every telemetry row a poll adds carries one of [printing], [paused],
    [idle], [error] and [offline] -- never [maintenance]; a printer that does
    not answer is stored as [offline] with all metrics at zero, one that
    answers without a state as [offline].  A printer whose reported state
    names a member of [Object.prototype] is not stored at all: the create is
    refused and the poll ends there, so what the poll does is what polling
    only the printers before that one does. *)
Theorem polled_status_vocabulary io network w :
  (forall t, In t (telemetry (db (snd (runPoll io network w)))) ->
     In t (telemetry (db w))
     \/ In (pt_status t) ["printing"; "paused"; "idle"; "error"; "offline"])
  /\ (forall p, network p = None ->
        pollPrinter p (network p)
        = mkPollData (printer_id p) 0 0 0 (StatusText "offline") false 0 0 false)
  /\ (forall p data, network p = Some data -> ks_state data = None ->
        pd_status (pollPrinter p (network p)) = StatusText "offline")
  /\ (forall before p rest,
        activePrinters (db w) = (before ++ p :: rest)%list ->
        names_prototype_member (network p) = true ->
        runPoll io network w = (Ret tt, snd (pollLoop io network before w))).
Proof.
  split; [|split; [|split]].
  - assert (K : keeps (known_status (telemetry (db w))) (runPoll io network)).
    { unfold runPoll. apply keeps_try_catch; [|apply keeps_ret].
      apply keeps_query. intro ps. apply pollLoop_known_status. }
    apply (K w). intros t Ht. now left.
  - intros p ->. reflexivity.
  - intros p data -> Hs. cbn. now rewrite Hs.
  - intros before p rest Ha Hm.
    unfold runPoll, try_catch, bind, query. rewrite Ha.
    now rewrite (pollLoop_stops io network before p rest w Hm).
Qed.

Lemma polled_status_vocabulary_witness :
  names_prototype_member (odd_state printerA) = true
  /\ over_limit printerB (odd_state printerB) = true
  /\ runPoll true odd_state calm = (Ret tt, calm).
Proof.
  split; [reflexivity|]. split; [reflexivity|].
  exact (proj2 (proj2 (proj2 (polled_status_vocabulary true odd_state calm)))
           [] printerA [printerB] eq_refl eq_refl).
Defined.

(** ** Deactivating a printer *)

Lemma findPrinter_unique id d p :
  NoDup (map printer_id (printers d)) -> In p (printers d) -> printer_id p = id ->
  findPrinter id d = Some p.
Proof.
  unfold findPrinter. induction (printers d) as [|x l IH]; cbn; intros ND Hin Hid.
  - contradiction.
  - inversion ND as [|? ? Hx ND']; subst.
    destruct Hin as [->|Hin].
    + now rewrite Z.eqb_refl.
    + destruct (Z.eqb_spec (printer_id x) (printer_id p)) as [E|E].
      * exfalso. apply Hx. rewrite E. now apply in_map.
      * now apply IH.
Qed.

Lemma find_deactivated id l p :
  find (fun p => printer_id p =? id) l = Some p ->
  find (fun p => printer_id p =? id)
       (map (fun p => if printer_id p =? id then deactivate p else p) l)
  = Some (deactivate p).
Proof.
  induction l as [|x l IH]; cbn; [discriminate|].
  destruct (Z.eqb_spec (printer_id x) id) as [E|E]; cbn.
  - intros [= ->]. now rewrite E, Z.eqb_refl.
  - destruct (Z.eqb_spec (printer_id x) id); [contradiction|]. exact IH.
Qed.

Lemma removePrinter_no_fault w id p :
  faults w = [] ->
  NoDup (map printer_id (printers (db w))) ->
  In p (printers (db w)) -> printer_id p = id ->
  removePrinter id w
  = (Ret Deactivated200,
     set_db (with_printers (map (fun p => if printer_id p =? id then deactivate p else p)
                                (printers (db w))) (db w)) w).
Proof.
  intros F ND Hin Hid. unfold removePrinter. apply try_catch_Ret.
  unfold printer_deactivate.
  erewrite bind_Ret;
    [reflexivity
    |apply write_no_fault; [exact F|];
     rewrite (findPrinter_unique id (db w) p ND Hin Hid); reflexivity].
Qed.

(** X16.  When no write throws, deactivating an existing printer answers 200
    and touches nothing but that printer's active flag.  From then on no tick
    counts it as eligible, while every other printer is eligible exactly as
    before; the manual route, which looks the printer up without testing the
    flag, still finds it. *)
Theorem deactivated_printer_leaves_the_scheduler w printerId p :
  faults w = [] ->
  NoDup (map printer_id (printers (db w))) ->
  In p (printers (db w)) -> printer_id p = printerId ->
  let after := snd (removePrinter printerId w) in
  fst (removePrinter printerId w) = Ret Deactivated200
  /\ (forall p', In p' (idlePrinters (db after)) -> printer_id p' <> printerId)
  /\ (forall p', printer_id p' <> printerId ->
        (In p' (idlePrinters (db after)) <-> In p' (idlePrinters (db w))))
  /\ findPrinter printerId (db after) = Some (deactivate p)
  /\ telemetry (db after) = telemetry (db w)
  /\ queueItems (db after) = queueItems (db w)
  /\ jobs (db after) = jobs (db w).
Proof.
  intros F ND Hin Hid after. subst after.
  rewrite (removePrinter_no_fault w printerId p F ND Hin Hid).
  cbn [fst snd db set_db].
  set (ps := map _ (printers (db w))).
  assert (Hrows : forall p', In p' ps <->
            (In p' (printers (db w)) /\ printer_id p' <> printerId)
            \/ (exists p0, In p0 (printers (db w)) /\ printer_id p0 = printerId
                           /\ p' = deactivate p0)).
  { intro p'. subst ps. rewrite in_map_iff. split.
    - intros (p0 & E & H0). destruct (Z.eqb_spec (printer_id p0) printerId).
      + right. exists p0. auto.
      + left. subst. auto.
    - intros [[H Hne]|(p0 & H0 & E0 & ->)].
      + exists p'. split; [|exact H]. destruct (Z.eqb_spec (printer_id p') printerId); congruence.
      + exists p0. split; [|exact H0]. destruct (Z.eqb_spec (printer_id p0) printerId); congruence. }
  assert (Hidle : forall p', In p' (idlePrinters (with_printers ps (db w)))
            <-> In p' ps /\ isActive p' = true
                /\ counts_as_idle (latestTelemetryOf (printer_id p') (db w)) = true).
  { intro p'. unfold idlePrinters, activePrinters. rewrite !filter_In. cbn [printers with_printers].
    unfold latestTelemetryOf. cbn [telemetry with_printers]. tauto. }
  split; [reflexivity|]. split; [|split; [|split]].
  - intros p' H. apply Hidle in H. destruct H as (H & Hact & _).
    apply Hrows in H. destruct H as [[_ Hne]|(p0 & _ & _ & ->)]; [exact Hne|discriminate].
  - intros p' Hne. rewrite Hidle. unfold idlePrinters, activePrinters. rewrite !filter_In.
    rewrite Hrows. split.
    + intros ([[H _]|(p0 & _ & E0 & ->)] & Hact & Hc); [tauto|discriminate].
    + intros [[H Hact] Hc]. tauto.
  - unfold findPrinter. cbn [printers with_printers]. subst ps.
    apply find_deactivated. now apply findPrinter_unique.
  - auto.
Qed.

Lemma deactivated_printer_leaves_the_scheduler_witness :
  fst (removePrinter 1 calm) = Ret Deactivated200
  /\ findPrinter 1 (db (snd (removePrinter 1 calm))) = Some (deactivate printerA).
Proof.
  destruct (deactivated_printer_leaves_the_scheduler calm 1 printerA eq_refl)
    as (H1 & _ & _ & H4 & _).
  - repeat constructor; cbn; intuition discriminate.
  - left. reflexivity.
  - reflexivity.
  - split; [exact H1|exact H4].
Defined.

(** ** Manual assignment and the scheduler's queue *)

(** X17.  A successful manual assignment takes the entry out of the
    scheduler's candidate list and leaves the other candidates in their
    order, so no later tick serves the entry again. *)
Theorem manual_assign_leaves_the_queue w userId queueItemId printerId p q j :
  faults w = [] ->
  admission_open (db w) ->
  findPrinter printerId (db w) = Some p ->
  is_printing (latestTelemetryOf printerId (db w)) = false ->
  NoDup (map qi_id (queueItems (db w))) ->
  In q (queueItems (db w)) -> qi_id q = queueItemId ->
  In j (jobs (db w)) -> job_id j = qi_jobId q ->
  candidates (db (snd (assign userId queueItemId printerId w)))
  = filter (fun c => negb (qi_id c =? queueItemId)) (candidates (db w)).
Proof.
  intros F Hopen Hp Hb ND Hq Hid Hj Hjid.
  rewrite (assign_gate_open _ _ _ w Hopen).
  rewrite (try_catch_Ret _ _ _ _ _
             (assignCommit_no_fault userId queueItemId printerId w p q j
                F Hp Hb ND Hq Hid Hj Hjid)).
  cbn [snd db]. unfold candidates, manual_commit.
  cbn [queueItems with_auditLogs with_jobs with_queueItems].
  rewrite filter_set_queueItem by (intro; reflexivity).
  rewrite filter_and.
  now rewrite orderBy_filter by (apply queue_le_total || apply queue_le_trans).
Qed.

Lemma manual_assign_leaves_the_queue_witness :
  candidates (db (snd (assign 7 2 1 calm)))
  = filter (fun c => negb (qi_id c =? 2)) (candidates (db calm)).
Proof.
  assert (Hopen : admission_open (db calm)).
  { intros s e S L _ G. vm_compute in S, L. injection S as <-. injection L as <-.
    vm_compute in G. discriminate. }
  refine (manual_assign_leaves_the_queue calm 7 2 1 printerA
            (mkQueueItem 2 2 None 1 "queued" 2 2) (mkJob 2 "gear" "queued" None None 0)
            eq_refl Hopen eq_refl eq_refl _ _ eq_refl _ eq_refl).
  - repeat constructor; cbn; intuition discriminate.
  - right. left. reflexivity.
  - right. left. reflexivity.
Defined.
